(** * Layered axiom grids: a shallow embedding of [layer_axiom_game.py]

    The Python program keeps a dictionary [data] from [(layer, axiom)] to a
    pair of square matrices (symbols and read-only flags), a process-wide
    cursor, and a handful of procedures that build, walk and edit the
    grids.  The definitions below follow the source procedure by
    procedure; the theorems afterwards are stated over them. *)

From Stdlib Require Import Ascii.
From stdpp Require Import base option list list_numbers gmap strings countable
  pretty functions.

Local Open Scope Z_scope.
Local Coercion Z.of_nat : nat >-> Z.

(** ** Outcomes of running a Python procedure *)

Inductive exn : Set := KeyError | IndexError | ValueError.

(** A call either returns, propagates an uncaught exception, or is still
    inside a [while True] loop when the step budget of the model is spent. *)
Inductive outcome (A : Type) : Type :=
| Ret (a : A)
| Raise (e : exn)
| Diverge.
Arguments Ret {A} a.
Arguments Raise {A} e.
Arguments Diverge {A}.

#[global] Instance outcome_ret : MRet outcome := λ A a, Ret a.
#[global] Instance outcome_bind : MBind outcome := λ A B k m,
  match m with
  | Ret a => k a
  | Raise e => Raise e
  | Diverge => Diverge
  end.

(** ** Python lists, indexing and [for] loops *)

(** [l[i]] accepts [-len l <= i < len l]; negative indices count from the
    end, everything else is an [IndexError]. *)
Definition py_index (len : nat) (i : Z) : option nat :=
  if decide (0 ≤ i < len) then Some (Z.to_nat i)
  else if decide (- len ≤ i < 0) then Some (Z.to_nat (len + i))
  else None.

Definition py_get {A} (l : list A) (i : Z) : outcome A :=
  match py_index (length l) i ≫= (l !!.) with
  | Some a => Ret a
  | None => Raise IndexError
  end.

Definition py_set {A} (l : list A) (i : Z) (v : A) : outcome (list A) :=
  match py_index (length l) i with
  | Some k => Ret (<[k:=v]> l)
  | None => Raise IndexError
  end.

(** [range(a, b)] *)
Definition py_range (a b : Z) : list Z := seqZ a (b - a).

(** [m[gy][gx]] and [m[gy][gx] = v] on a list of rows. *)
Definition mat_get {A} (m : list (list A)) (gy gx : Z) : outcome A :=
  row ← py_get m gy; py_get row gx.

Definition mat_set {A} (m : list (list A)) (gy gx : Z) (v : A)
  : outcome (list (list A)) :=
  row ← py_get m gy; row' ← py_set row gx v; py_set m gy row'.

(** [for a in l: body], threading the mutated objects as [s]. *)
Fixpoint for_each {A St} (l : list A) (body : A → St → outcome St) (s : St)
  : outcome St :=
  match l with
  | [] => Ret s
  | a :: l' => s' ← body a s; for_each l' body s'
  end.

(** [d[k]] on a dictionary. *)
Definition dict_get `{Countable K} {V} (d : gmap K V) (k : K) : outcome V :=
  match d !! k with
  | Some v => Ret v
  | None => Raise KeyError
  end.

(** ** Configuration constants and the data model *)

Definition DEFAULT_CHAR : string := "◦".
Definition CENTER_CHAR : string := "O".

(** The nine axiom tags of [AXIOM_CONFIGS]. *)
Inductive AxiomTag : Set := AxA | AxB | AxC | AxD | AxE | AxF | AxH | AxI | AxJ.

#[global] Instance AxiomTag_eq_dec : EqDecision AxiomTag.
Proof. solve_decision. Defined.

Definition AxiomTag_code (a : AxiomTag) : nat :=
  match a with
  | AxA => 0 | AxB => 1 | AxC => 2 | AxD => 3 | AxE => 4
  | AxF => 5 | AxH => 6 | AxI => 7 | AxJ => 8
  end%nat.

Definition AxiomTag_of_code (n : nat) : option AxiomTag :=
  match n with
  | 0 => Some AxA | 1 => Some AxB | 2 => Some AxC | 3 => Some AxD
  | 4 => Some AxE | 5 => Some AxF | 6 => Some AxH | 7 => Some AxI
  | 8 => Some AxJ | _ => None
  end%nat.

#[global] Program Instance AxiomTag_countable : Countable AxiomTag :=
  inj_countable AxiomTag_code AxiomTag_of_code _.
Next Obligation. by intros []. Qed.

Abbreviation Grid := (list (list string)) (only parsing).
Abbreviation Flags := (list (list bool)) (only parsing).
Abbreviation Data :=
  (gmap (nat * AxiomTag) (list (list string) * list (list bool))) (only parsing).

(** Layers are the non-negative integers: every caller passes [0], a
    predecessor guarded by [current_layer > 0], a successor, or an element
    of [range(1, max_layers + 1)]. *)
Definition layer_dimension (layer : nat) : Z := 2 * layer + 1.

(** ** [create_layer_axiom] and [ensure_layer_axiom] *)

(** Body of the two nested [for] loops that copy the previous grid. *)
Definition copy_cell (prev_grid : Grid) (offset py px : Z)
    (st : Grid * Flags) : outcome (Grid * Flags) :=
  let '(grid, read_only) := st in
  ch ← mat_get prev_grid py px;
  let ch := if decide (ch = CENTER_CHAR) then " "%string else ch in
  grid ← mat_set grid (py + offset) (px + offset) ch;
  read_only ← mat_set read_only (py + offset) (px + offset) true;
  Ret (grid, read_only).

(** The source is a mutual recursion: [create_layer_axiom layer] calls
    [ensure_layer_axiom (layer - 1)], which calls [create_layer_axiom
    (layer - 1)] when the key is missing.  The inner call is written out
    here so that the recursion is structural on [layer]. *)
Fixpoint create_layer_axiom (layer : nat) (axiom : AxiomTag) (data : Data)
  : outcome Data :=
  let dim := layer_dimension layer in
  let grid := replicate (Z.to_nat dim) (replicate (Z.to_nat dim) DEFAULT_CHAR) in
  let read_only := replicate (Z.to_nat dim) (replicate (Z.to_nat dim) false) in
  match layer with
  | O =>
      grid ← mat_set grid 0 0 CENTER_CHAR;
      read_only ← mat_set read_only 0 0 false;
      Ret (<[(layer, axiom) := (grid, read_only)]> data)
  | S prev =>
      data ← (if decide (is_Some (data !! (prev, axiom))) then Ret data
              else create_layer_axiom prev axiom data);
      '(prev_grid, prev_read_only) ← dict_get data (prev, axiom);
      let prev_dim := layer_dimension prev in
      let offset := (dim - prev_dim) `div` 2 in
      '(grid, read_only) ←
        for_each (py_range 0 prev_dim) (λ py,
          for_each (py_range 0 prev_dim) (λ px,
            copy_cell prev_grid offset py px))
          (grid, read_only);
      Ret (<[(layer, axiom) := (grid, read_only)]> data)
  end.

Definition ensure_layer_axiom (layer : nat) (axiom : AxiomTag) (data : Data)
  : outcome Data :=
  if decide (is_Some (data !! (layer, axiom))) then Ret data
  else create_layer_axiom layer axiom data.

(** ** [get_outer_ring_cells] *)

Definition ring_filter_out (ch : string) : bool :=
  bool_decide (ch ∈ [" "%string; ""%string; DEFAULT_CHAR]).

Definition get_outer_ring_cells (layer : nat) (axiom : AxiomTag) (data : Data)
  : outcome (list (Z * Z * string)) :=
  '(grid, ro) ← dict_get data (layer, axiom);
  let center : Z := layer in
  if decide (layer = O) then
    ch ← mat_get grid 0 0;
    Ret [(0, 0, ch)]
  else
    let N : Z := layer in
    for_each (py_range (- N) (N + 1)) (λ y,
      for_each (py_range (- N) (N + 1)) (λ x ring,
        if decide (Z.abs x `max` Z.abs y = N) then
          let gx := x + center in
          let gy := y + center in
          ch ← mat_get grid gy gx;
          if ring_filter_out ch then Ret ring
          else Ret (ring ++ [(x, y, ch)])
        else Ret ring))
      [].

(** ** The cursor: globals, bounds, walking and writing *)

Record State : Type := mkState {
  data : Data;
  current_layer : nat;
  current_axiom : AxiomTag;
  cursor_x : Z;
  cursor_y : Z
}.

(** Module-level initialisation of the globals. *)
Definition initial_state : State :=
  {| data := ∅; current_layer := 0; current_axiom := AxA;
     cursor_x := 0; cursor_y := 0 |}.

Definition set_cursor (s : State) (x y : Z) : State :=
  {| data := data s; current_layer := current_layer s;
     current_axiom := current_axiom s; cursor_x := x; cursor_y := y |}.

Definition set_data (s : State) (d : Data) : State :=
  {| data := d; current_layer := current_layer s;
     current_axiom := current_axiom s;
     cursor_x := cursor_x s; cursor_y := cursor_y s |}.

Definition is_within_bounds (s : State) (x y : Z) : bool :=
  bool_decide (- current_layer s ≤ x ≤ current_layer s
               ∧ - current_layer s ≤ y ≤ current_layer s).

Definition is_read_only (s : State) (x y : Z) : outcome bool :=
  '(grid, ro) ← dict_get (data s) (current_layer s, current_axiom s);
  let center : Z := current_layer s in
  let gx := x + center in
  let gy := y + center in
  mat_get ro gy gx.

(** The [while True] loop of [jump_across]; one unit of [fuel] pays for one
    iteration. *)
Fixpoint jump_across_loop (fuel : nat) (dx dy x y : Z) (s : State)
  : outcome (bool * State) :=
  match fuel with
  | O => Diverge
  | S fuel' =>
      let nx := x + dx in
      let ny := y + dy in
      if negb (is_within_bounds s nx ny) then Ret (false, s)
      else
        ro ← is_read_only s nx ny;
        if negb ro then Ret (true, set_cursor s nx ny)
        else jump_across_loop fuel' dx dy nx ny s
  end.

Definition jump_across (fuel : nat) (dx dy : Z) (s : State)
  : outcome (bool * State) :=
  jump_across_loop fuel dx dy (cursor_x s) (cursor_y s) s.

Definition move_cursor (fuel : nat) (dx dy : Z) (s : State) : outcome State :=
  '(moved, s') ← jump_across fuel dx dy s;
  if moved : bool then Ret s' else Ret s'.

Definition insert_char (ch : string) (s : State) : outcome State :=
  '(grid, read_only) ← dict_get (data s) (current_layer s, current_axiom s);
  let center : Z := current_layer s in
  let gx := cursor_x s + center in
  let gy := cursor_y s + center in
  ro ← mat_get read_only gy gx;
  if negb ro then
    grid ← mat_set grid gy gx ch;
    Ret (set_data s (<[(current_layer s, current_axiom s) := (grid, read_only)]> (data s)))
  else Ret s.

Definition go_to_layer_axiom (layer : nat) (axiom : AxiomTag) (s : State)
  : outcome State :=
  d ← ensure_layer_axiom layer axiom (data s);
  Ret {| data := d; current_layer := layer; current_axiom := axiom;
         cursor_x := - layer; cursor_y := - layer |}.

(** ** [prefill_layers] *)

(** The [random] module is used through [seed], [sample] and [choice]
    only.  The generator is a parameter of the model: a state, threaded
    through the calls, and the two draws as functions of it. *)
Record Random : Type := mkRandom {
  rng_state : Type;
  rng_seed : Z → rng_state;
  rng_sample : rng_state → list (Z * Z) → nat → list (Z * Z) * rng_state;
  rng_choice : rng_state → list string → string * rng_state
}.

(** What the library promises of the two draws. *)
Record RandomSpec (R : Random) : Prop := mkRandomSpec {
  rng_sample_elem : ∀ g pop k c, c ∈ (rng_sample R g pop k).1 → c ∈ pop;
  rng_sample_length : ∀ g pop k,
    (k ≤ length pop)%nat → length (rng_sample R g pop k).1 = k;
  rng_choice_elem : ∀ g l, l ≠ [] → (rng_choice R g l).1 ∈ l
}.

(** A generator for running the model: the first [k] of the population,
    the first of the choices. *)
Definition first_random : Random :=
  {| rng_state := unit;
     rng_seed := λ _, ();
     rng_sample := λ g pop k, (take k pop, g);
     rng_choice := λ g l, (default ""%string (head l), g) |}.

Section prefill.
Context (R : Random).

(** [random.sample(population, k)] and [random.choice(seq)] *)
Definition random_sample (g : rng_state R) (population : list (Z * Z)) (k : Z)
  : outcome (list (Z * Z) * rng_state R) :=
  if decide (0 ≤ k ≤ length population)
  then Ret (rng_sample R g population (Z.to_nat k))
  else Raise ValueError.

Definition random_choice (g : rng_state R) (seq : list string)
  : outcome (string * rng_state R) :=
  if decide (seq = []) then Raise IndexError else Ret (rng_choice R g seq).

(** The loop that collects [ring_coords]. *)
Definition unfrozen_ring_coords (layer : nat) (ro : Flags)
  : outcome (list (Z * Z)) :=
  let center : Z := layer in
  let N : Z := layer in
  for_each (py_range (- N) (N + 1)) (λ y,
    for_each (py_range (- N) (N + 1)) (λ x ring_coords,
      if decide (Z.abs x `max` Z.abs y = N) then
        let gx := x + center in
        let gy := y + center in
        frozen ← mat_get ro gy gx;
        if negb frozen then Ret (ring_coords ++ [(gx, gy)])
        else Ret ring_coords
      else Ret ring_coords))
    [].

(** Body of the loops over [layer] and [axiom]. *)
Definition prefill_grid (mode : string) (fills : AxiomTag → list string)
    (layer : nat) (axiom : AxiomTag) (st : Data * rng_state R)
  : outcome (Data * rng_state R) :=
  let '(data, g) := st in
  data ← ensure_layer_axiom layer axiom data;
  '(grid, ro) ← dict_get data (layer, axiom);
  ring_coords ← unfrozen_ring_coords layer ro;
  let total := length ring_coords in
  if decide (total = O) then Ret (data, g)
  else
    let chars_list := fills axiom in
    base_char ←
      (if decide (layer ≤ length chars_list)%nat
       then c ← py_get chars_list (layer - 1); Ret (Some c)
       else Ret None);
    if decide (mode = "full"%string) then
      match base_char with
      | Some c =>
          grid ← for_each ring_coords (λ '(gx, gy) grid,
                    if decide (c ∈ [DEFAULT_CHAR]) then Ret grid
                    else mat_set grid gy gx c) grid;
          Ret (<[(layer, axiom) := (grid, ro)]> data, g)
      | None => Ret (data, g)
      end
    else if decide (mode = "partial"%string) then
      match base_char with
      | Some c =>
          '(selected, g) ← random_sample g ring_coords (total `div` 2);
          grid ← for_each selected (λ '(gx, gy) grid,
                    mat_set grid gy gx c) grid;
          Ret (<[(layer, axiom) := (grid, ro)]> data, g)
      | None => Ret (data, g)
      end
    else if decide (mode = "random"%string) then
      if decide (0 < length chars_list)%nat then
        '(selected, g) ← random_sample g ring_coords (total `div` 2);
        '(grid, g) ← for_each selected (λ '(gx, gy) '(grid, g),
                    '(ch, g) ← random_choice g chars_list;
                    grid ← mat_set grid gy gx ch;
                    Ret (grid, g)) (grid, g);
        Ret (<[(layer, axiom) := (grid, ro)]> data, g)
      else Ret (data, g)
    else Ret (data, g).

Definition axioms : list AxiomTag :=
  [AxA; AxB; AxC; AxD; AxE; AxF; AxH; AxI; AxJ].

(** [max(len(fillA), ..., len(fillJ))] *)
Definition max_layers_of
    (fillA fillB fillC fillD fillE fillF fillH fillI fillJ : list string) : nat :=
  (length fillA `max` (length fillB `max` (length fillC `max`
  (length fillD `max` (length fillE `max` (length fillF `max`
  (length fillH `max` (length fillI `max` length fillJ))))))))%nat.

(** The dictionary [fills]. *)
Definition fills_dict
    (fillA fillB fillC fillD fillE fillF fillH fillI fillJ : list string)
    (axiom : AxiomTag) : list string :=
  match axiom with
  | AxA => fillA | AxB => fillB | AxC => fillC | AxD => fillD
  | AxE => fillE | AxF => fillF | AxH => fillH | AxI => fillI
  | AxJ => fillJ
  end.

Definition prefill_layers (mode : string)
    (fillA fillB fillC fillD fillE fillF fillH fillI fillJ : list string)
    (data : Data) : outcome Data :=
  let max_layers :=
    max_layers_of fillA fillB fillC fillD fillE fillF fillH fillI fillJ in
  let g := rng_seed R 0 in
  let fills :=
    fills_dict fillA fillB fillC fillD fillE fillF fillH fillI fillJ in
  '(data, _) ←
    for_each (seq 1 max_layers) (λ layer,
      for_each axioms (λ axiom, prefill_grid mode fills layer axiom))
      (data, g);
  Ret data.
End prefill.

(** ** The per-grid part of [render_3d]

    Coordinates are floating-point numbers; the model keeps them abstract.
    [circle_point axiom layer i k] stands for
    [calculate_coordinates(axiom, layer, 2*pi*i/k)] and
    [square_point axiom layer i k] for
    [calculate_square_coordinates(axiom, layer, i/k)]; [atan2] and the
    order on its results are parameters as well. *)
Section render.
Context {coord angle : Type}.
Context (atan2 : Z → Z → angle) (angle_le : angle → angle → bool).
Context (circle_point square_point :
           AxiomTag → nat → nat → nat → coord * coord * coord).

(** [ring_cells.sort(key=lambda c: atan2(c[1], c[0]))], a stable sort. *)
Fixpoint insert_by_angle (c : Z * Z * string) (l : list (Z * Z * string))
  : list (Z * Z * string) :=
  match l with
  | [] => [c]
  | d :: l' =>
      if angle_le (atan2 c.1.2 c.1.1) (atan2 d.1.2 d.1.1)
      then c :: d :: l'
      else d :: insert_by_angle c l'
  end.

Definition sort_by_angle (l : list (Z * Z * string)) : list (Z * Z * string) :=
  foldr insert_by_angle [] l.

Record Trace : Type := mkTrace {
  x_vals : list coord;
  y_vals : list coord;
  z_vals : list coord;
  text_vals : list string
}.

(** The [enumerate] loop that fills the four lists. *)
Definition plot_cells (point : nat → nat → coord * coord * coord)
    (ring_cells : list (Z * Z * string)) : Trace :=
  foldl (λ t '(i, (ox, oy, ch)),
           let '(x, y, z) := point i (length ring_cells) in
           {| x_vals := x_vals t ++ [x]; y_vals := y_vals t ++ [y];
              z_vals := z_vals t ++ [z]; text_vals := text_vals t ++ [ch] |})
        {| x_vals := []; y_vals := []; z_vals := []; text_vals := [] |}
        (imap (λ i c, (i, c)) ring_cells).

(** [layer_axiom_game.py]: the ring on a circle.  [None] is the
    [continue] taken on an empty ring. *)
Definition render_3d_trace (layer : nat) (axiom : AxiomTag)
    (ring_cells : list (Z * Z * string)) : outcome (option Trace) :=
  if decide (ring_cells = []) then Ret None
  else
    let ring_cells := sort_by_angle ring_cells in
    let t := plot_cells (circle_point axiom layer) ring_cells in
    if decide (1 < length (x_vals t))%nat then
      x0 ← py_get (x_vals t) 0;
      y0 ← py_get (y_vals t) 0;
      z0 ← py_get (z_vals t) 0;
      Ret (Some {| x_vals := x_vals t ++ [x0]; y_vals := y_vals t ++ [y0];
                   z_vals := z_vals t ++ [z0]; text_vals := text_vals t |})
    else Ret (Some t).

(** [old_versions/axiom_square_beta.py]: the ring on a square. *)
Definition render_3d_trace_square (layer : nat) (axiom : AxiomTag)
    (ring_cells : list (Z * Z * string)) : outcome (option Trace) :=
  if decide (ring_cells = []) then Ret None
  else
    let ring_cells := sort_by_angle ring_cells in
    let t := plot_cells (square_point axiom layer) ring_cells in
    if decide (1 < length (x_vals t))%nat then
      x0 ← py_get (x_vals t) 0;
      y0 ← py_get (y_vals t) 0;
      z0 ← py_get (z_vals t) 0;
      t0 ← py_get (text_vals t) 0;
      Ret (Some {| x_vals := x_vals t ++ [x0]; y_vals := y_vals t ++ [y0];
                   z_vals := z_vals t ++ [z0];
                   text_vals := text_vals t ++ [t0] |})
    else Ret (Some t).
End render.

(** ** Sessions: the commands of the interactive loop *)

Inductive command : Type :=
| MoveCursor (dx dy : Z)
| WriteSymbol (ch : string)
| SwitchContext (layer : nat) (axiom : AxiomTag)
| Prefill (mode : string) (fills : AxiomTag → list string).

(** The four arrow keys. *)
Definition unit_direction (dx dy : Z) : Prop :=
  (dx, dy) ∈ [(-1, 0); (1, 0); (0, -1); (0, 1)].

Definition prefill (R : Random) (mode : string) (fills : AxiomTag → list string)
    (s : State) : outcome State :=
  d ← prefill_layers R mode (fills AxA) (fills AxB) (fills AxC) (fills AxD)
         (fills AxE) (fills AxF) (fills AxH) (fills AxI) (fills AxJ) (data s);
  Ret (set_data s d).

Inductive step (R : Random) : State → command → State → Prop :=
| step_move s dx dy fuel s' :
    unit_direction dx dy →
    move_cursor fuel dx dy s = Ret s' →
    step R s (MoveCursor dx dy) s'
| step_write s ch s' :
    insert_char ch s = Ret s' →
    step R s (WriteSymbol ch) s'
| step_switch s layer axiom s' :
    go_to_layer_axiom layer axiom s = Ret s' →
    step R s (SwitchContext layer axiom) s'
| step_prefill s mode fills s' :
    prefill R mode fills s = Ret s' →
    step R s (Prefill mode fills) s'.

(** [__main__] optionally prefills, [run] then enters context [(0, 'A')]
    before it reads the first key. *)
Inductive reachable (R : Random) : State → Prop :=
| reachable_run s :
    go_to_layer_axiom 0 AxA initial_state = Ret s →
    reachable R s
| reachable_prefill_run mode fills s0 s :
    prefill R mode fills initial_state = Ret s0 →
    go_to_layer_axiom 0 AxA s0 = Ret s →
    reachable R s
| reachable_step s c s' :
    reachable R s → step R s c s' → reachable R s'.

(** ** [draw_interface]

    The terminal is modelled by what is sent to it: the calls
    [stdscr.addstr(y, x, text)] made between [clear] and [refresh], in
    order.  Integers are formatted as [str] does. *)

Record Addstr : Type := mkAddstr {
  addstr_y : Z;
  addstr_x : Z;
  addstr_text : string
}.

Definition axiom_letter (a : AxiomTag) : string :=
  match a with
  | AxA => "A" | AxB => "B" | AxC => "C" | AxD => "D" | AxE => "E"
  | AxF => "F" | AxH => "H" | AxI => "I" | AxJ => "J"
  end.

Definition VIEW_RADIUS : Z := 5.

(** The four fixed lines at the top of the screen. *)
Definition draw_header (s : State) : list Addstr :=
  [ mkAddstr 0 0 ("Layer: " +:+ pretty (current_layer s) +:+ ", Axiom: "
                  +:+ axiom_letter (current_axiom s) +:+ ", Pos=("
                  +:+ pretty (cursor_x s) +:+ "," +:+ pretty (cursor_y s)
                  +:+ ")");
    mkAddstr 1 0 "F1=A(XY), F2=B(YZ), F3=C(XZ), F4=D(Diag) | +/-=layers | Arrows=move | Type=insert | Ctrl+D=exit";
    mkAddstr 2 0 "Refresh matrix_visualization.html manually.";
    mkAddstr 3 0 "A=XY plane, B=YZ plane, C=XZ plane, D=diagonal plane" ].

(** Body of the inner loop: the character shown for one cell. *)
Definition draw_cell (s : State) (grid : Grid) (read_only : Flags)
    (draw_y draw_x : Z) : outcome string :=
  let center : Z := current_layer s in
  let gy := draw_y + center in
  let gx := draw_x + center in
  ch ← mat_get grid gy gx;
  ro ← mat_get read_only gy gx;
  let display_char := if ro : bool then " "%string else ch in
  if decide (draw_x = cursor_x s ∧ draw_y = cursor_y s) then
    if decide (current_layer s = O ∧ current_axiom s = AxA
               ∧ cursor_x s = 0 ∧ cursor_y s = 0)
    then Ret display_char
    else Ret (if decide (display_char ≠ DEFAULT_CHAR)
              then "▮"%string else "○"%string)
  else Ret display_char.

(** The inner loop: [row_chars] for one line of the window. *)
Definition draw_row (s : State) (grid : Grid) (read_only : Flags)
    (min_xv max_xv draw_y : Z) : outcome (list string) :=
  for_each (py_range min_xv (max_xv + 1)) (λ draw_x row_chars,
    char ← draw_cell s grid read_only draw_y draw_x;
    Ret (row_chars ++ [char])) [].

Definition draw_interface (s : State) : outcome (list Addstr) :=
  let screen := draw_header s in
  '(grid, read_only) ← dict_get (data s) (current_layer s, current_axiom s);
  let min_xv := (cursor_x s - VIEW_RADIUS) `max` (- current_layer s) in
  let max_xv := (cursor_x s + VIEW_RADIUS) `min` current_layer s in
  let min_yv := (cursor_y s - VIEW_RADIUS) `max` (- current_layer s) in
  let max_yv := (cursor_y s + VIEW_RADIUS) `min` current_layer s in
  let offset_line := 5 in
  let offset_col := 2 in
  for_each (py_range min_yv (max_yv + 1)) (λ draw_y screen,
    row_chars ← draw_row s grid read_only min_xv max_xv draw_y;
    Ret (screen ++ [mkAddstr (offset_line + (draw_y - min_yv)) offset_col
                      (String.concat "" row_chars)]))
    screen.

(** ** [render_3d] as a whole

    The part of [render_3d] that computes: the three collections of
    traces and [max_layer].  What follows in the source hands these
    values to the plotting library and writes the file.

    A Python dictionary iterates in insertion order, which the finite
    map of the model does not record: the order of [data.keys()] is the
    argument [keys]. *)
Section render_3d.
Context {coord angle : Type}.
Context (atan2 : Z → Z → angle) (angle_le : angle → angle → bool).
Context (circle_point : AxiomTag → nat → nat → nat → coord * coord * coord).

(** An entry of [layer_1_plus_traces]. *)
Record LayerTrace : Type := mkLayerTrace {
  trace_axiom : AxiomTag;
  trace_layer : nat;
  trace_vals : Trace (coord := coord)
}.

Record Traces : Type := mkTraces {
  layer_0_trace : AxiomTag → Trace (coord := coord);
  layer_1_trace : AxiomTag → Trace (coord := coord);
  layer_1_plus_traces : list LayerTrace
}.

Definition empty_trace : Trace (coord := coord) :=
  {| x_vals := []; y_vals := []; z_vals := []; text_vals := [] |}.

(** The four [extend] calls. *)
Definition extend_trace (t t' : Trace (coord := coord)) : Trace :=
  {| x_vals := x_vals t ++ x_vals t'; y_vals := y_vals t ++ y_vals t';
     z_vals := z_vals t ++ z_vals t'; text_vals := text_vals t ++ text_vals t' |}.

(** [max] of a sequence; [ValueError] on an empty one. *)
Definition py_max (l : list nat) : outcome nat :=
  match l with
  | [] => Raise ValueError
  | n :: l' => Ret (foldl Nat.max n l')
  end.

(** Body of the loop over [data.keys()]. *)
Definition render_3d_key (data : Data) (k : nat * AxiomTag) (acc : Traces)
  : outcome Traces :=
  let '(layer, axiom) := k in
  ring_cells ← get_outer_ring_cells layer axiom data;
  t ← render_3d_trace atan2 angle_le circle_point layer axiom ring_cells;
  match t with
  | None => Ret acc
  | Some t =>
      if decide (layer = 0%nat) then
        Ret {| layer_0_trace := <[axiom := extend_trace (layer_0_trace acc axiom) t]>
                                  (layer_0_trace acc);
               layer_1_trace := layer_1_trace acc;
               layer_1_plus_traces := layer_1_plus_traces acc |}
      else if decide (layer = 1%nat) then
        Ret {| layer_0_trace := layer_0_trace acc;
               layer_1_trace := <[axiom := extend_trace (layer_1_trace acc axiom) t]>
                                  (layer_1_trace acc);
               layer_1_plus_traces := layer_1_plus_traces acc |}
      else
        Ret {| layer_0_trace := layer_0_trace acc;
               layer_1_trace := layer_1_trace acc;
               layer_1_plus_traces :=
                 layer_1_plus_traces acc ++ [mkLayerTrace axiom layer t] |}
  end.

Definition render_3d (keys : list (nat * AxiomTag)) (data : Data)
  : outcome (Traces * nat) :=
  let acc := {| layer_0_trace := λ _, empty_trace;
                layer_1_trace := λ _, empty_trace;
                layer_1_plus_traces := [] |} in
  max_layer ← py_max (fst <$> keys);
  traces ← for_each keys (render_3d_key data) acc;
  Ret (traces, max_layer).
End render_3d.

(** ** [run]: the interactive loop *)

(** The key codes of the [curses] module that [run] compares with. *)
Record Curses : Type := mkCurses {
  KEY_F1 : Z; KEY_F2 : Z; KEY_F3 : Z; KEY_F4 : Z; KEY_F5 : Z;
  KEY_F6 : Z; KEY_F7 : Z; KEY_F8 : Z; KEY_F9 : Z;
  KEY_LEFT : Z; KEY_RIGHT : Z; KEY_UP : Z; KEY_DOWN : Z
}.

(** Their values in ncurses. *)
Definition ncurses : Curses :=
  {| KEY_F1 := 265; KEY_F2 := 266; KEY_F3 := 267; KEY_F4 := 268;
     KEY_F5 := 269; KEY_F6 := 270; KEY_F7 := 271; KEY_F8 := 272;
     KEY_F9 := 273;
     KEY_LEFT := 260; KEY_RIGHT := 261; KEY_UP := 259; KEY_DOWN := 258 |}.

Definition ord (c : Ascii.ascii) : Z := Z.of_nat (Ascii.nat_of_ascii c).

(** [chr(key)], for the codes below 256. *)
Definition chr (key : Z) : string :=
  String (Ascii.ascii_of_nat (Z.to_nat key)) EmptyString.

(** The [if]/[elif] chain of [run]. *)
Definition handle_key (K : Curses) (fuel : nat) (key : Z) (s : State)
  : outcome State :=
  if decide (key = KEY_F1 K) then go_to_layer_axiom (current_layer s) AxA s
  else if decide (key = KEY_F2 K) then go_to_layer_axiom (current_layer s) AxB s
  else if decide (key = KEY_F3 K) then go_to_layer_axiom (current_layer s) AxC s
  else if decide (key = KEY_F4 K) then go_to_layer_axiom (current_layer s) AxD s
  else if decide (key = KEY_F5 K) then go_to_layer_axiom (current_layer s) AxE s
  else if decide (key = KEY_F6 K) then go_to_layer_axiom (current_layer s) AxF s
  else if decide (key = KEY_F7 K) then go_to_layer_axiom (current_layer s) AxH s
  else if decide (key = KEY_F8 K) then go_to_layer_axiom (current_layer s) AxI s
  else if decide (key = KEY_F9 K) then go_to_layer_axiom (current_layer s) AxJ s
  else if decide (key = ord "+"%char) then
    go_to_layer_axiom (current_layer s + 1)%nat (current_axiom s) s
  else if decide (key = ord "-"%char) then
    if decide (0 < current_layer s)%nat then
      go_to_layer_axiom (current_layer s - 1)%nat (current_axiom s) s
    else Ret s
  else if decide (key = KEY_LEFT K) then move_cursor fuel (-1) 0 s
  else if decide (key = KEY_RIGHT K) then move_cursor fuel 1 0 s
  else if decide (key = KEY_UP K) then move_cursor fuel 0 (-1) s
  else if decide (key = KEY_DOWN K) then move_cursor fuel 0 1 s
  else if decide (32 ≤ key < 127) then insert_char (chr key) s
  else Ret s.

Section run.
Context {coord angle : Type}.
Context (atan2 : Z → Z → angle) (angle_le : angle → angle → bool).
Context (circle_point : AxiomTag → nat → nat → nat → coord * coord * coord).
(** The order in which the dictionary iterates. *)
Context (keys_of : Data → list (nat * AxiomTag)).
Context (K : Curses) (fuel : nat).

(** What one turn of the loop puts out: the figure and the screen. *)
Definition Frame : Type := (Traces (coord := coord) * nat) * list Addstr.

(** The [while True] loop of [run], on the keys that [getch] will
    return.  Each turn renders and draws before it reads a key; the
    model returns when the keys are used up or on Ctrl+D. *)
Fixpoint run_loop (keys : list Z) (s : State) (frames : list Frame)
  : outcome (State * list Frame) :=
  fig ← render_3d atan2 angle_le circle_point (keys_of (data s)) (data s);
  screen ← draw_interface s;
  let frames := frames ++ [(fig, screen)] in
  match keys with
  | [] => Ret (s, frames)
  | key :: keys =>
      if decide (key = -1) then run_loop keys s frames
      else if decide (key = 4) then Ret (s, frames)
      else s ← handle_key K fuel key s; run_loop keys s frames
  end.

Definition run (keys : list Z) (s : State) : outcome (State * list Frame) :=
  s ← go_to_layer_axiom 0 AxA s;
  run_loop keys s [].
End run.

(** ** The command line *)

(** [sep in s], [s[n:]] and [s.split(sep)] for a separator of one
    character. *)
Fixpoint str_contains (sep : Ascii.ascii) (s : string) : bool :=
  match s with
  | EmptyString => false
  | String c s' => if decide (c = sep) then true else str_contains sep s'
  end.

Fixpoint str_drop (n : nat) (s : string) : string :=
  match n, s with
  | O, _ => s
  | S n', String _ s' => str_drop n' s'
  | S _, EmptyString => EmptyString
  end.

Fixpoint py_split (sep : Ascii.ascii) (s : string) : list string :=
  match s with
  | EmptyString => [EmptyString]
  | String c s' =>
      if decide (c = sep) then EmptyString :: py_split sep s'
      else match py_split sep s' with
           | w :: ws => String c w :: ws
           | [] => [String c EmptyString]
           end
  end.

(** The dictionary [fills] of [__main__], as it starts. *)
Definition default_fills (a : AxiomTag) : list string :=
  match a with
  | AxA => ["B"] | AxB => ["B"] | AxC => ["C"] | AxD => ["D"] | AxE => ["E"]
  | AxF => ["F"] | AxH => ["H"] | AxI => ["I"] | AxJ => ["J"]
  end%string.

(** [key in fills], with the key found. *)
Definition axiom_of_letter (key : string) : option AxiomTag :=
  if decide (key = "A"%string) then Some AxA
  else if decide (key = "B"%string) then Some AxB
  else if decide (key = "C"%string) then Some AxC
  else if decide (key = "D"%string) then Some AxD
  else if decide (key = "E"%string) then Some AxE
  else if decide (key = "F"%string) then Some AxF
  else if decide (key = "H"%string) then Some AxH
  else if decide (key = "I"%string) then Some AxI
  else if decide (key = "J"%string) then Some AxJ
  else None.

(** Body of the loop over [sys.argv]. *)
Definition parse_arg (arg : string) (st : (AxiomTag → list string) * string)
  : outcome ((AxiomTag → list string) * string) :=
  let '(fills, mode) := st in
  if String.prefix "--fill" arg && str_contains "="%char arg then
    head ← py_get (py_split "="%char arg) 0;
    let key := str_drop 6 head in
    match axiom_of_letter key with
    | Some a =>
        value ← py_get (py_split "="%char arg) 1;
        Ret (<[a := py_split ","%char value]> fills, mode)
    | None => Ret (fills, mode)
    end
  else if String.prefix "--mode=" arg then
    value ← py_get (py_split "="%char arg) 1;
    Ret (fills, value)
  else Ret (fills, mode).

Definition parse_args (argv : list string)
  : outcome ((AxiomTag → list string) * string) :=
  for_each argv parse_arg (default_fills, "full"%string).

(** The [__main__] block: options, the optional prefill, the loop. *)
Definition main {coord angle : Type}
    (atan2 : Z → Z → angle) (angle_le : angle → angle → bool)
    (circle_point : AxiomTag → nat → nat → nat → coord * coord * coord)
    (keys_of : Data → list (nat * AxiomTag)) (K : Curses) (fuel : nat)
    (R : Random) (argv : list string) (keys : list Z)
  : outcome (State * list (Frame (coord := coord))) :=
  let prefill_arg := bool_decide ("--prefill"%string ∈ argv) in
  '(fills, mode) ← parse_args argv;
  s ← (if prefill_arg then prefill R mode fills initial_state
       else Ret initial_state);
  run atan2 angle_le circle_point keys_of K fuel keys s.

(** ** Vocabulary of the statements *)

(** A [k] by [k] matrix. *)
Definition dims {A} (k : Z) (m : list (list A)) : Prop :=
  Z.of_nat (length m) = k ∧ Forall (λ row, Z.of_nat (length row) = k) m.

Definition chebyshev (x y : Z) : Z := Z.abs x `max` Z.abs y.

(** The origin marker as it appears in a larger layer. *)
Definition promoted (ch : string) : string :=
  if decide (ch = CENTER_CHAR) then " "%string else ch.

(** The flag matrix of a layer never depends on the history: the cells
    strictly inside the outer band are frozen, the band is not. *)
Definition frozen_at (layer : nat) (gy gx : Z) : bool :=
  bool_decide (chebyshev (gx - layer) (gy - layer) < layer).

Definition grid_ok (layer : nat) (c : list (list string) * list (list bool))
  : Prop :=
  dims (layer_dimension layer) c.1 ∧ dims (layer_dimension layer) c.2 ∧
  ∀ gy gx, 0 ≤ gy < layer_dimension layer → 0 ≤ gx < layer_dimension layer →
    mat_get c.2 gy gx = Ret (frozen_at layer gy gx).

(** Every cached grid has the shape of its layer, and the cache is closed
    under predecessors. *)
Definition data_ok (d : Data) : Prop :=
  ∀ layer axiom c, d !! (layer, axiom) = Some c →
    grid_ok layer c ∧ (∀ prev, layer = S prev → is_Some (d !! (prev, axiom))).

Definition state_ok (s : State) : Prop :=
  data_ok (data s) ∧
  is_within_bounds s (cursor_x s) (cursor_y s) = true ∧
  is_read_only s (cursor_x s) (cursor_y s) = Ret false.

(** The centred offsets visited by the ring loops, in loop order. *)
Definition ring_positions (layer : nat) : list (Z * Z) :=
  let N : Z := layer in
  y ← py_range (- N) (N + 1);
  x ← py_range (- N) (N + 1);
  if decide (Z.abs x `max` Z.abs y = N) then [(x, y)] else [].

(** Progress of the copy loops of [create_layer_axiom] from [prev_grid]
    into a fresh [n] by [n] pair [(grid0, ro0)] at offset [o]: rows [< i]
    of the previous grid are copied, and the first [j] cells of row [i];
    every other cell is as allocated. *)
Definition copied_upto (prev_grid grid0 : list (list string))
    (ro0 : list (list bool)) (k n o i j : Z)
    (st : list (list string) * list (list bool)) : Prop :=
  dims n st.1 ∧ dims n st.2 ∧
  ∀ gy gx, 0 ≤ gy → 0 ≤ gx →
    ((o ≤ gy < o + i ∧ o ≤ gx < o + k) ∨ (gy = o + i ∧ o ≤ gx < o + j) →
       ∃ ch, mat_get prev_grid (gy - o) (gx - o) = Ret ch ∧
             mat_get st.1 gy gx = Ret (promoted ch) ∧
             mat_get st.2 gy gx = Ret true) ∧
    (¬ ((o ≤ gy < o + i ∧ o ≤ gx < o + k) ∨ (gy = o + i ∧ o ≤ gx < o + j)) →
       mat_get st.1 gy gx = mat_get grid0 gy gx ∧
       mat_get st.2 gy gx = mat_get ro0 gy gx).

(** Every cell of the outer band of a layer holds [ch]. *)
Definition ring_all (layer : nat) (g : list (list string)) (ch : string) : Prop :=
  ∀ x y, chebyshev x y = layer → mat_get g (y + layer) (x + layer) = Ret ch.

(** [d'] is [d] with grids added for [axiom] at layers up to [layer]; the
    added grids of positive layers come with an all-default outer band. *)
Definition extends_below (layer : nat) (axiom : AxiomTag) (d d' : Data) : Prop :=
  (∀ k c, d !! k = Some c → d' !! k = Some c) ∧
  (∀ l a, d !! (l, a) = None → is_Some (d' !! (l, a)) →
          a = axiom ∧ (l ≤ layer)%nat) ∧
  (∀ l a c, (0 < l)%nat → d !! (l, a) = None → d' !! (l, a) = Some c →
            ring_all l c.1 DEFAULT_CHAR).

(** The outcome of a successful walk of [k] cells from the cursor in
    direction [(dx, dy)]: the cells passed over are inside the grid and
    frozen, the cell reached is inside and unfrozen. *)
Definition moved_to (s : State) (dx dy k : Z) (s' : State) : Prop :=
  1 ≤ k ∧
  s' = set_cursor s (cursor_x s + k * dx) (cursor_y s + k * dy) ∧
  is_within_bounds s (cursor_x s + k * dx) (cursor_y s + k * dy) = true ∧
  is_read_only s (cursor_x s + k * dx) (cursor_y s + k * dy) = Ret false ∧
  ∀ j, 1 ≤ j < k →
    is_within_bounds s (cursor_x s + j * dx) (cursor_y s + j * dy) = true ∧
    is_read_only s (cursor_x s + j * dx) (cursor_y s + j * dy) = Ret true.

(** No cell ahead of the cursor is both inside the grid and unfrozen. *)
Definition blocked (s : State) (dx dy : Z) : Prop :=
  ∀ k, 1 ≤ k →
    ¬ (is_within_bounds s (cursor_x s + k * dx) (cursor_y s + k * dy) = true ∧
       is_read_only s (cursor_x s + k * dx) (cursor_y s + k * dy) = Ret false).

(** The cursor addresses a cell of the current grid, frozen or not. *)
Definition cursor_in_grid (s : State) : Prop :=
  data_ok (data s) ∧
  is_Some (data s !! (current_layer s, current_axiom s)) ∧
  is_within_bounds s (cursor_x s) (cursor_y s) = true.

(** From one cache to a later one: every grid is still there under its
    key, with the same flags and the same symbols in its frozen cells. *)
Definition frozen_kept (d d' : Data) : Prop :=
  ∀ layer axiom g ro, d !! (layer, axiom) = Some (g, ro) →
    ∃ g', d' !! (layer, axiom) = Some (g', ro) ∧
      ∀ gy gx, 0 ≤ gy < layer_dimension layer → 0 ≤ gx < layer_dimension layer →
        frozen_at layer gy gx = true → mat_get g' gy gx = mat_get g gy gx.

(** What [get_outer_ring_cells] makes of one ring position. *)
Definition ring_cell (layer : nat) (grid : list (list string)) (p : Z * Z)
  : option (Z * Z * string) :=
  match mat_get grid (p.2 + layer) (p.1 + layer) with
  | Ret ch => if ring_filter_out ch then None else Some (p.1, p.2, ch)
  | _ => None
  end.

(** The symbol configured for a depth, the default when there is none. *)
Definition expected_symbol (fills : AxiomTag → list string)
    (layer : nat) (axiom : AxiomTag) : string :=
  default DEFAULT_CHAR (fills axiom !! (layer - 1)%nat).

(** Every outer band of a positive layer is still all default. *)
Definition fresh_rings (d : Data) : Prop :=
  ∀ l a c, (0 < l)%nat → d !! (l, a) = Some c → ring_all l c.1 DEFAULT_CHAR.

(** Progress of [prefill_layers] from cache [d0], after the iterations for
    the keys in [done]. *)
Definition prefilled (mode : string) (fills : AxiomTag → list string)
    (d0 : Data) (done : list (nat * AxiomTag)) (d : Data) : Prop :=
  data_ok d ∧ frozen_kept d0 d ∧
  (∀ k, k ∈ done → is_Some (d !! k)) ∧
  (mode = "full"%string → fresh_rings d0 →
   ∀ l a c, (0 < l)%nat → d !! (l, a) = Some c →
     ring_all l c.1 (if decide ((l, a) ∈ done) then expected_symbol fills l a
                     else DEFAULT_CHAR)).

(** The promotion property as a predicate of a state: every grid of a
    positive layer has a predecessor, its centred sub-square is frozen
    and holds the predecessor's current symbols, origin marker blanked. *)
Definition promotion_holds (s : State) : Prop :=
  ∀ p axiom g ro, data s !! (S p, axiom) = Some (g, ro) →
    ∃ prev_grid prev_ro,
      data s !! (p, axiom) = Some (prev_grid, prev_ro) ∧
      ∀ py px, 0 ≤ py < layer_dimension p → 0 ≤ px < layer_dimension p →
        mat_get ro (py + 1) (px + 1) = Ret true ∧
        ∃ ch, mat_get prev_grid py px = Ret ch ∧
              mat_get g (py + 1) (px + 1) = Ret (promoted ch).

(** What the window shows for a cell holding [sym], in a state whose
    cursor is on an unfrozen cell: frozen cells are blanked, the cursor
    is a marker that tells a default cell from a written one, except in
    context [(0, 'A')], where the symbol is shown as it is. *)
Definition shown (s : State) (sym : string) (x y : Z) : string :=
  if decide (x = cursor_x s ∧ y = cursor_y s) then
    if decide (current_layer s = O ∧ current_axiom s = AxA) then sym
    else if decide (sym = DEFAULT_CHAR) then "○"%string else "▮"%string
  else if bool_decide (chebyshev x y < current_layer s) then " "%string
  else sym.

(** The lines that [draw_interface] sends after the header, for the rows
    of characters [rows]. *)
Definition window_lines (rows : list (list string)) : list Addstr :=
  imap (λ i row, mkAddstr (5 + i) 2 (String.concat "" row)) rows.

(** The grid under key [k] has a ring cell that [get_outer_ring_cells]
    returns. *)
Definition ring_visible (d : Data) (k : nat * AxiomTag) : bool :=
  match get_outer_ring_cells k.1 k.2 d with
  | Ret (_ :: _) => true
  | _ => false
  end.

(** What is assumed of the iteration order of the dictionary: every
    cached key once. *)
Definition keys_in_order (keys_of : Data → list (nat * AxiomTag)) : Prop :=
  ∀ d, (∀ k, k ∈ keys_of d ↔ is_Some (d !! k)) ∧ NoDup (keys_of d).

Definition curses_keys (K : Curses) : list Z :=
  [KEY_F1 K; KEY_F2 K; KEY_F3 K; KEY_F4 K; KEY_F5 K; KEY_F6 K; KEY_F7 K;
   KEY_F8 K; KEY_F9 K; KEY_LEFT K; KEY_RIGHT K; KEY_UP K; KEY_DOWN K].

(** The symbols that a session without prefill can hold: the default,
    and the characters of the printable keys other than [+] and [-]
    (among them the origin marker and the blank). *)
Definition typed (ch : string) : Prop :=
  ch = DEFAULT_CHAR ∨
  ∃ key, 32 ≤ key < 127 ∧ key ≠ ord "+" ∧ key ≠ ord "-" ∧ ch = chr key.

(** Every cell of every cached grid holds a symbol in [P]. *)
Definition symbols_in (P : string → Prop) (d : Data) : Prop :=
  ∀ l a g ro gy gx ch, d !! (l, a) = Some (g, ro) →
    0 ≤ gy < layer_dimension l → 0 ≤ gx < layer_dimension l →
    mat_get g gy gx = Ret ch → P ch.

(** ** Sample sessions, for running the model *)

(** [run] has entered context [(0, 'A')]. *)
Definition state_start : State :=
  match go_to_layer_axiom 0 AxA initial_state with
  | Ret s => s
  | _ => initial_state
  end.

(** Then [+]: context [(1, 'A')], cursor in the corner. *)
Definition state_layer1 : State :=
  match go_to_layer_axiom 1 AxA state_start with
  | Ret s => s
  | _ => initial_state
  end.

(** Then [-]: back in context [(0, 'A')]. *)
Definition state_back0 : State :=
  match go_to_layer_axiom 0 AxA state_layer1 with
  | Ret s => s
  | _ => initial_state
  end.

(** Then the key [x]: the origin of layer 0 is overwritten after layer 1
    was built from it. *)
Definition state_rewritten : State :=
  match insert_char "x" state_back0 with
  | Ret s => s
  | _ => initial_state
  end.

(** From [state_layer1], the key [x]: the corner of the ring of layer 1
    is written. *)
Definition state_marked : State :=
  match insert_char "x" state_layer1 with
  | Ret s => s
  | _ => initial_state
  end.

(** Not a state of a session: the cursor of [state_layer1] put on the
    frozen centre. *)
Definition state_on_frozen : State := set_cursor state_layer1 0 0.

(** * Properties *)

#[global] Arguments py_index : simpl never.
#[global] Arguments py_get : simpl never.
#[global] Arguments py_set : simpl never.
#[global] Arguments py_range : simpl never.
#[global] Arguments mat_get : simpl never.
#[global] Arguments mat_set : simpl never.
#[global] Arguments dict_get : simpl never.
#[global] Arguments layer_dimension : simpl never.

(** One step of the outcome monad, without unfolding the procedures. *)
Ltac run := cbn [mbind outcome_bind mret outcome_ret].
Tactic Notation "run" "in" hyp(H) :=
  cbn [mbind outcome_bind mret outcome_ret] in H.

(** ** Outcomes, lists and loops *)

Lemma bind_Ret {A B} (m : outcome A) (k : A → outcome B) (b : B) :
  m ≫= k = Ret b ↔ ∃ a, m = Ret a ∧ k a = Ret b.
Proof.
  destruct m; simpl; split; try (intros (? & ? & ?)); try done; eauto.
  by simplify_eq.
Qed.

Lemma py_index_nonneg (len : nat) (i : Z) :
  0 ≤ i < len → py_index len i = Some (Z.to_nat i).
Proof. intros. unfold py_index. by rewrite decide_True. Qed.

Lemma py_index_Some (len : nat) (i : Z) (k : nat) :
  py_index len i = Some k → (k < len)%nat.
Proof. unfold py_index. repeat case_decide; intros; simplify_eq; lia. Qed.

Lemma py_get_nonneg {A} (l : list A) (i : Z) (v : A) :
  0 ≤ i → py_get l i = Ret v ↔ l !! Z.to_nat i = Some v.
Proof.
  intros Hi. unfold py_get, py_index.
  destruct (decide (0 ≤ i < length l)) as [Hin|Hout]; simpl.
  - destruct (l !! Z.to_nat i); split; intros; by simplify_eq.
  - rewrite decide_False by lia. simpl. split; [done|].
    intros Hl%lookup_lt_Some. lia.
Qed.

Lemma py_get_total {A} (l : list A) (i : Z) :
  0 ≤ i < length l → ∃ v, py_get l i = Ret v.
Proof.
  intros Hi. destruct (lookup_lt_is_Some_2 l (Z.to_nat i)) as [v Hv]; [lia|].
  exists v. apply py_get_nonneg; [lia|done].
Qed.

Lemma py_set_nonneg {A} (l : list A) (i : Z) (v : A) :
  0 ≤ i < length l → py_set l i v = Ret (<[Z.to_nat i:=v]> l).
Proof. intros. unfold py_set. by rewrite py_index_nonneg. Qed.

Lemma py_range_lookup (a b : Z) (i : nat) (x : Z) :
  py_range a b !! i = Some x ↔ x = a + i ∧ a + i < b.
Proof. unfold py_range. rewrite lookup_seqZ. intuition lia. Qed.

Lemma py_range_length (a b : Z) : length (py_range a b) = Z.to_nat (b - a).
Proof. apply length_seqZ. Qed.

Lemma py_range_elem (a b x : Z) : x ∈ py_range a b ↔ a ≤ x < b.
Proof. unfold py_range. rewrite elem_of_seqZ. lia. Qed.

(** The invariant rule for a [for] loop: [I i s] holds before the
    iteration on the [i]-th element. *)
Lemma for_each_inv {A St} (I : nat → St → Prop) (l : list A)
    (body : A → St → outcome St) (s0 : St) :
  I O s0 →
  (∀ i a s, l !! i = Some a → I i s → ∃ s', body a s = Ret s' ∧ I (S i) s') →
  ∃ s', for_each l body s0 = Ret s' ∧ I (length l) s'.
Proof.
  revert I s0. induction l as [|a l IH]; intros I s0 H0 Hstep; simpl.
  - eauto.
  - destruct (Hstep O a s0) as (s1 & -> & H1); [done..|]. simpl.
    apply (IH (λ i, I (S i))); [done|].
    intros i b s Hb. by apply (Hstep (S i)).
Qed.

(** A conditional loop body visits exactly the elements that pass. *)
Lemma for_each_filter {A St} (P : A → Prop) `{!∀ a, Decision (P a)}
    (l : list A) (body : A → St → outcome St) (s : St) :
  for_each l (λ a s, if decide (P a) then body a s else Ret s) s
  = for_each (filter P l) body s.
Proof.
  revert s. induction l as [|a l IH]; intros s; [done|].
  simpl. rewrite filter_cons. destruct (decide (P a)); simpl.
  - destruct (body a s); simpl; auto.
  - apply IH.
Qed.

Lemma for_each_app {A St} (l1 l2 : list A) (body : A → St → outcome St)
    (s : St) :
  for_each (l1 ++ l2) body s = for_each l1 body s ≫= for_each l2 body.
Proof.
  revert s. induction l1 as [|a l1 IH]; intros s; simpl; [done|].
  destruct (body a s); simpl; auto.
Qed.

(** Nested loops are one loop over the pairs. *)
Lemma for_each_nested {A B St} (l1 : list A) (l2 : A → list B)
    (body : A → B → St → outcome St) (s : St) :
  for_each l1 (λ a, for_each (l2 a) (body a)) s
  = for_each (a ← l1; (a,.) <$> l2 a) (λ p, body p.1 p.2) s.
Proof.
  revert s. induction l1 as [|a l1 IH]; intros s; simpl; [done|].
  rewrite for_each_app.
  assert (Hrow : ∀ l s, for_each ((a,.) <$> l) (λ p, body p.1 p.2) s
                        = for_each l (body a) s).
  { induction l as [|b l IHl]; intros s'; simpl; [done|].
    destruct (body a b s'); simpl; auto. }
  rewrite Hrow. destruct (for_each (l2 a) (body a) s); simpl; auto.
Qed.

(** ** Square matrices *)

Lemma py_get_unfold {A} (l : list A) (i : Z) :
  0 ≤ i →
  py_get l i = match l !! Z.to_nat i with
               | Some v => Ret v
               | None => Raise IndexError
               end.
Proof.
  intros Hi. unfold py_get, py_index.
  destruct (decide (0 ≤ i < length l)) as [Hin|Hout]; simpl; [done|].
  rewrite decide_False by lia. simpl.
  by rewrite lookup_ge_None_2 by lia.
Qed.

Lemma py_get_insert {A} (l : list A) (i j : Z) (v : A) :
  0 ≤ i < length l → 0 ≤ j →
  py_get (<[Z.to_nat i:=v]> l) j
  = if decide (i = j) then Ret v else py_get l j.
Proof.
  intros Hi Hj. rewrite !py_get_unfold by done.
  destruct (decide (i = j)) as [->|Hne].
  - by rewrite list_lookup_insert_eq by lia.
  - by rewrite list_lookup_insert_ne by lia.
Qed.

Section matrix.
Context {A : Type}.
Implicit Types (l : list A) (m : list (list A)) (v : A).

Lemma dims_replicate (k : Z) v :
  0 ≤ k → dims k (replicate (Z.to_nat k) (replicate (Z.to_nat k) v)).
Proof.
  intros Hk. split.
  - rewrite length_replicate. lia.
  - apply Forall_replicate. rewrite length_replicate. lia.
Qed.

Lemma mat_get_replicate (k y x : Z) v :
  0 ≤ y < k → 0 ≤ x < k →
  mat_get (replicate (Z.to_nat k) (replicate (Z.to_nat k) v)) y x = Ret v.
Proof.
  intros Hy Hx. unfold mat_get.
  rewrite py_get_unfold, lookup_replicate_2 by lia. simpl.
  by rewrite py_get_unfold, lookup_replicate_2 by lia.
Qed.

Lemma dims_row (k : Z) m (y : Z) :
  dims k m → 0 ≤ y < k →
  ∃ row, py_get m y = Ret row ∧ Z.of_nat (length row) = k.
Proof.
  intros [Hlen Hrows] Hy.
  destruct (lookup_lt_is_Some_2 m (Z.to_nat y)) as [row Hrow]; [lia|].
  exists row. split.
  - rewrite py_get_unfold by lia. by rewrite Hrow.
  - by apply (Forall_lookup_1 _ _ _ _ Hrows Hrow).
Qed.

Lemma mat_get_total (k : Z) m (y x : Z) :
  dims k m → 0 ≤ y < k → 0 ≤ x < k → ∃ v, mat_get m y x = Ret v.
Proof.
  intros Hm Hy Hx. destruct (dims_row k m y Hm Hy) as (row & Hrow & Hlen).
  destruct (py_get_total row x) as [v Hv]; [lia|].
  exists v. unfold mat_get. by rewrite Hrow.
Qed.

(** [m[gy][gx] = v] inside the matrix: it returns, keeps the shape,
    reads back [v] and leaves every other cell as it was. *)
Lemma mat_set_spec (k : Z) m (gy gx : Z) v :
  dims k m → 0 ≤ gy < k → 0 ≤ gx < k →
  ∃ m', mat_set m gy gx v = Ret m' ∧ dims k m' ∧
        mat_get m' gy gx = Ret v ∧
        ∀ y x, 0 ≤ y → 0 ≤ x → (y, x) ≠ (gy, gx) →
               mat_get m' y x = mat_get m y x.
Proof.
  intros Hm Hy Hx. destruct (dims_row k m gy Hm Hy) as (row & Hrow & Hlen).
  destruct Hm as [Hlenm Hrows].
  exists (<[Z.to_nat gy := <[Z.to_nat gx := v]> row]> m).
  split_and!.
  - unfold mat_set. rewrite Hrow. simpl.
    rewrite py_set_nonneg by lia. simpl. by rewrite py_set_nonneg by lia.
  - split; [by rewrite length_insert|].
    apply Forall_insert; [done|]. by rewrite length_insert.
  - unfold mat_get. rewrite py_get_insert, decide_True by (done || lia).
    simpl. rewrite py_get_insert, decide_True by (done || lia). done.
  - intros y x Hy0 Hx0 Hne. unfold mat_get.
    rewrite py_get_insert by lia. destruct (decide (gy = y)) as [->|]; [|done].
    rewrite Hrow. simpl. rewrite py_get_insert by lia.
    rewrite decide_False; [done|]. intros ->. done.
Qed.

Lemma mat_set_Ret (k : Z) m (gy gx : Z) v m' :
  dims k m → 0 ≤ gy < k → 0 ≤ gx < k →
  mat_set m gy gx v = Ret m' →
  dims k m' ∧ mat_get m' gy gx = Ret v ∧
  ∀ y x, 0 ≤ y → 0 ≤ x → (y, x) ≠ (gy, gx) →
         mat_get m' y x = mat_get m y x.
Proof.
  intros Hm Hy Hx Hset.
  destruct (mat_set_spec k m gy gx v Hm Hy Hx) as (m'' & Hset' & ?).
  rewrite Hset in Hset'. by simplify_eq.
Qed.

(** Two matrices of one shape with the same reads are the same. *)
Lemma mat_ext (k : Z) m1 m2 :
  dims k m1 → dims k m2 →
  (∀ y x, 0 ≤ y < k → 0 ≤ x < k → mat_get m1 y x = mat_get m2 y x) →
  m1 = m2.
Proof.
  intros H1 H2 Hget. apply list_eq_same_length with (Z.to_nat k).
  - destruct H2. lia.
  - destruct H1. lia.
  - intros i r1 r2 Hi Hr1 Hr2.
    assert (Hl1 : Z.of_nat (length r1) = k)
      by apply (Forall_lookup_1 _ _ _ _ (proj2 H1) Hr1).
    assert (Hl2 : Z.of_nat (length r2) = k)
      by apply (Forall_lookup_1 _ _ _ _ (proj2 H2) Hr2).
    apply list_eq_same_length with (Z.to_nat k); [lia..|].
    intros j a b Hj Ha Hb.
    specialize (Hget (Z.of_nat i) (Z.of_nat j)).
    unfold mat_get in Hget. rewrite !py_get_unfold in Hget by lia.
    rewrite !Nat2Z.id, Hr1, Hr2 in Hget. simpl in Hget.
    rewrite !py_get_unfold in Hget by lia.
    rewrite !Nat2Z.id, Ha, Hb in Hget.
    assert (Ret a = Ret b) as [=] by (apply Hget; lia). done.
Qed.
End matrix.

(** Reads at indices that are not negative are plain lookups, first of
    the row, then of the column. *)
Lemma mat_get_lookup {A} (m : list (list A)) (y x : Z) :
  0 ≤ y → 0 ≤ x →
  mat_get m y x = match m !! Z.to_nat y ≫= (.!! Z.to_nat x) with
                  | Some v => Ret v
                  | None => Raise IndexError
                  end.
Proof.
  intros Hy Hx. unfold mat_get. rewrite py_get_unfold by done.
  destruct (m !! Z.to_nat y) as [row|]; simpl; [|done].
  by rewrite py_get_unfold by done.
Qed.

Lemma mat_get_Ret_lookup {A} (m : list (list A)) (y x : Z) (v : A) :
  0 ≤ y → 0 ≤ x →
  mat_get m y x = Ret v ↔ m !! Z.to_nat y ≫= (.!! Z.to_nat x) = Some v.
Proof.
  intros Hy Hx. rewrite mat_get_lookup by done.
  destruct (m !! Z.to_nat y ≫= (.!! Z.to_nat x)); split; intros; by simplify_eq.
Qed.

Lemma mat_get_eq_lookup {A} (m1 m2 : list (list A)) (i j : nat) :
  mat_get m1 i j = mat_get m2 i j →
  m1 !! i ≫= (.!! j) = m2 !! i ≫= (.!! j).
Proof.
  rewrite !mat_get_lookup, !Nat2Z.id by lia.
  destruct (m1 !! i ≫= (.!! j)), (m2 !! i ≫= (.!! j)); intros; by simplify_eq.
Qed.

(** ** The copy loops of [create_layer_axiom] *)

Section copy_loops.
Context (prev_grid grid0 : list (list string)) (ro0 : list (list bool)).
Context (k n o : Z).
Context (Hprev : dims k prev_grid) (Hgrid0 : dims n grid0) (Hro0 : dims n ro0).
Context (Ho : 0 ≤ o) (Hfit : o + k ≤ n).

Local Abbreviation copied_upto := (copied_upto prev_grid grid0 ro0 k n o).

Lemma copied_upto_next_row i st :
  0 ≤ i → copied_upto i k st ↔ copied_upto (i + 1) 0 st.
Proof.
  intros Hi. unfold copied_upto. do 2 (apply and_iff_compat_l).
  split; intros H gy gx Hy Hx; destruct (H gy gx Hy Hx) as [H1 H2];
    (split; intros Hc; [apply H1|apply H2]; clear H H1 H2; lia).
Qed.

Lemma copy_cell_step py px st :
  0 ≤ py < k → 0 ≤ px < k → copied_upto py px st →
  ∃ st', copy_cell prev_grid o py px st = Ret st' ∧ copied_upto py (px + 1) st'.
Proof.
  intros Hpy Hpx (Hg & Hr & Hcells). destruct st as [g ro]; simpl in *.
  destruct (mat_get_total k prev_grid py px) as [ch Hch]; [done..|].
  destruct (mat_set_spec n g (py + o) (px + o) (promoted ch))
    as (g' & Hset & Hg' & Hgeq & Hgne); [done|lia|lia|].
  destruct (mat_set_spec n ro (py + o) (px + o) true)
    as (ro' & Hsetr & Hr' & Hreq & Hrne); [done|lia|lia|].
  exists (g', ro'). split.
  { unfold copy_cell. rewrite Hch. simpl. fold (promoted ch).
    rewrite Hset. simpl. by rewrite Hsetr. }
  split_and!; [done..|]. simpl. intros gy gx Hy Hx.
  destruct (decide ((gy, gx) = (py + o, px + o))) as [[= -> ->]|Hne].
  - split; [|lia]. intros _. exists ch.
    by replace (py + o - o) with py by lia; replace (px + o - o) with px by lia.
  - rewrite Hgne, Hrne by done. destruct (Hcells gy gx Hy Hx) as [H1 H2].
    assert (gy ≠ py + o ∨ gx ≠ px + o)
      by (destruct (decide (gy = py + o)); [right; congruence|by left]).
    split; intros Hc; [apply H1|apply H2]; clear Hcells H1 H2; lia.
Qed.

Lemma copy_loops_spec :
  0 ≤ k →
  ∃ g ro,
    for_each (py_range 0 k) (λ py,
      for_each (py_range 0 k) (λ px, copy_cell prev_grid o py px))
      (grid0, ro0) = Ret (g, ro) ∧
    dims n g ∧ dims n ro ∧
    (∀ py px, 0 ≤ py < k → 0 ≤ px < k →
       ∃ ch, mat_get prev_grid py px = Ret ch ∧
             mat_get g (py + o) (px + o) = Ret (promoted ch) ∧
             mat_get ro (py + o) (px + o) = Ret true) ∧
    (∀ gy gx, 0 ≤ gy → 0 ≤ gx → ¬ (o ≤ gy < o + k ∧ o ≤ gx < o + k) →
       mat_get g gy gx = mat_get grid0 gy gx ∧
       mat_get ro gy gx = mat_get ro0 gy gx).
Proof.
  intros Hk.
  destruct (for_each_inv (λ i, copied_upto i 0) (py_range 0 k)
              (λ py, for_each (py_range 0 k)
                       (λ px, copy_cell prev_grid o py px)) (grid0, ro0))
    as ([g ro] & Hrun & Hg & Hr & Hcells).
  - split_and!; [done..|]. intros gy gx _ _. split; [lia|done].
  - intros i py st [-> Hi]%py_range_lookup Hrow.
    destruct (for_each_inv (λ j, copied_upto (0 + i) j) (py_range 0 k)
                (λ px, copy_cell prev_grid o (0 + i) px) st)
      as (st' & Hrun & Hdone).
    + done.
    + intros j px st1 [-> Hj]%py_range_lookup Hst1.
      replace (Z.of_nat (S j)) with (0 + j + 1) by lia.
      apply copy_cell_step; [lia..|done].
    + exists st'. split; [done|].
      rewrite py_range_length in Hdone.
      replace (Z.of_nat (Z.to_nat (k - 0))) with k in Hdone by lia.
      apply copied_upto_next_row in Hdone; [|lia].
      by replace (Z.of_nat (S i)) with (0 + i + 1) by lia.
  - rewrite py_range_length in Hcells.
    replace (Z.of_nat (Z.to_nat (k - 0))) with k in Hcells by lia.
    simpl in *. exists g, ro. split_and!; [done..| |].
    + intros py px Hpy Hpx.
      destruct (Hcells (py + o) (px + o)) as [(ch & Hch & ?) _]; [lia..|].
      exists ch. split; [|done].
      by replace (py + o - o) with py in Hch by lia;
         replace (px + o - o) with px in Hch by lia.
    + intros gy gx Hy Hx Hout. apply Hcells; [done..|lia].
Qed.
End copy_loops.

(** ** Building grids *)

Lemma layer_dimension_pos (layer : nat) : 0 < layer_dimension layer.
Proof. unfold layer_dimension. lia. Qed.

Lemma frozen_at_inner (p : nat) (gy gx : Z) :
  frozen_at (S p) gy gx = true ↔
  1 ≤ gy < 1 + layer_dimension p ∧ 1 ≤ gx < 1 + layer_dimension p.
Proof.
  unfold frozen_at, chebyshev, layer_dimension.
  rewrite bool_decide_eq_true. lia.
Qed.

Lemma frozen_at_ring (layer : nat) (gy gx : Z) :
  0 ≤ gy < layer_dimension layer → 0 ≤ gx < layer_dimension layer →
  frozen_at layer gy gx = false ↔ chebyshev (gx - layer) (gy - layer) = layer.
Proof.
  unfold frozen_at, chebyshev, layer_dimension.
  rewrite bool_decide_eq_false. lia.
Qed.

Lemma copy_offset (p : nat) :
  (layer_dimension (S p) - layer_dimension p) `div` 2 = 1.
Proof.
  unfold layer_dimension.
  by replace (2 * S p + 1 - (2 * p + 1)) with 2 by lia.
Qed.

Lemma create_layer_axiom_O (axiom : AxiomTag) (d : Data) :
  create_layer_axiom 0 axiom d
  = Ret (<[(O, axiom) := ([[CENTER_CHAR]], [[false]])]> d).
Proof. reflexivity. Qed.

(** The mutual recursion of the source, recovered as an equation. *)
Lemma create_layer_axiom_S (prev : nat) (axiom : AxiomTag) (d : Data) :
  create_layer_axiom (S prev) axiom d
  = (d1 ← ensure_layer_axiom prev axiom d;
     '(prev_grid, prev_read_only) ← dict_get d1 (prev, axiom);
     let dim := layer_dimension (S prev) in
     let prev_dim := layer_dimension prev in
     let offset := (dim - prev_dim) `div` 2 in
     '(grid, read_only) ←
       for_each (py_range 0 prev_dim) (λ py,
         for_each (py_range 0 prev_dim) (λ px,
           copy_cell prev_grid offset py px))
         (replicate (Z.to_nat dim) (replicate (Z.to_nat dim) DEFAULT_CHAR),
          replicate (Z.to_nat dim) (replicate (Z.to_nat dim) false));
     Ret (<[(S prev, axiom) := (grid, read_only)]> d1)).
Proof. reflexivity. Qed.

Lemma grid_ok_O : grid_ok 0 ([[CENTER_CHAR]], [[false]]).
Proof.
  split_and!.
  - split; [done|]. by repeat constructor.
  - split; [done|]. by repeat constructor.
  - intros gy gx Hy Hx. unfold layer_dimension in *.
    assert (gy = 0) as -> by lia. assert (gx = 0) as -> by lia. done.
Qed.

Lemma data_ok_empty : data_ok ∅.
Proof. intros layer axiom c Hc. by rewrite lookup_empty in Hc. Qed.

Lemma data_ok_insert (layer : nat) (axiom : AxiomTag)
    (c : list (list string) * list (list bool)) (d : Data) :
  data_ok d → grid_ok layer c →
  (∀ prev, layer = S prev → is_Some (d !! (prev, axiom))) →
  data_ok (<[(layer, axiom) := c]> d).
Proof.
  intros Hd Hc Hprev l a c' Hl.
  destruct (decide ((layer, axiom) = (l, a))) as [[= <- <-]|Hne].
  - rewrite lookup_insert_eq in Hl. simplify_eq. split; [done|].
    intros prev ->. apply lookup_insert_is_Some'. right. by apply Hprev.
  - rewrite lookup_insert_ne in Hl by done.
    destruct (Hd l a c' Hl) as [Hg Hp]. split; [done|].
    intros prev ->. apply lookup_insert_is_Some'. right. by apply Hp.
Qed.

Lemma extends_below_refl (layer : nat) (axiom : AxiomTag) (d : Data) :
  extends_below layer axiom d d.
Proof.
  split_and!; [done| |].
  - intros l a Hnone [c Hc]. by rewrite Hnone in Hc.
  - intros l a c _ Hnone Hc. by rewrite Hnone in Hc.
Qed.

(** What the two loops leave in a fresh pair of matrices. *)
Lemma create_grid_spec (p : nat) (prev_grid : list (list string)) :
  dims (layer_dimension p) prev_grid →
  ∃ g ro,
    for_each (py_range 0 (layer_dimension p)) (λ py,
      for_each (py_range 0 (layer_dimension p)) (λ px,
        copy_cell prev_grid 1 py px))
      (replicate (Z.to_nat (layer_dimension (S p)))
         (replicate (Z.to_nat (layer_dimension (S p))) DEFAULT_CHAR),
       replicate (Z.to_nat (layer_dimension (S p)))
         (replicate (Z.to_nat (layer_dimension (S p))) false))
    = Ret (g, ro) ∧
    grid_ok (S p) (g, ro) ∧
    (∀ py px, 0 ≤ py < layer_dimension p → 0 ≤ px < layer_dimension p →
       ∃ ch, mat_get prev_grid py px = Ret ch ∧
             mat_get g (py + 1) (px + 1) = Ret (promoted ch) ∧
             mat_get ro (py + 1) (px + 1) = Ret true) ∧
    (∀ gy gx, 0 ≤ gy < layer_dimension (S p) → 0 ≤ gx < layer_dimension (S p) →
       chebyshev (gx - S p) (gy - S p) = S p →
       mat_get g gy gx = Ret DEFAULT_CHAR ∧ mat_get ro gy gx = Ret false).
Proof.
  intros Hprev.
  pose proof (layer_dimension_pos p) as Hpos.
  assert (Hn : layer_dimension (S p) = layer_dimension p + 2)
    by (unfold layer_dimension; lia).
  destruct (copy_loops_spec prev_grid
              (replicate (Z.to_nat (layer_dimension (S p)))
                 (replicate (Z.to_nat (layer_dimension (S p))) DEFAULT_CHAR))
              (replicate (Z.to_nat (layer_dimension (S p)))
                 (replicate (Z.to_nat (layer_dimension (S p))) false))
              (layer_dimension p) (layer_dimension (S p)) 1)
    as (g & ro & Hrun & Hg & Hr & Hin & Hout);
    [done|apply dims_replicate; lia|apply dims_replicate; lia|lia..|].
  exists g, ro. split_and!; [done| |done|].
  - split_and!; [done..|]. simpl. intros gy gx Hy Hx.
    destruct (frozen_at (S p) gy gx) eqn:Hf.
    + apply frozen_at_inner in Hf.
      destruct (Hin (gy - 1) (gx - 1)) as (ch & _ & _ & Hro); [lia..|].
      by replace (gy - 1 + 1) with gy in Hro by lia;
         replace (gx - 1 + 1) with gx in Hro by lia.
    + assert (¬ (1 ≤ gy < 1 + layer_dimension p ∧ 1 ≤ gx < 1 + layer_dimension p))
        as Hnot by (rewrite <-frozen_at_inner, Hf; done).
      destruct (Hout gy gx) as [_ ->]; [lia..|done|].
      by apply mat_get_replicate.
  - intros gy gx Hy Hx Hring.
    apply frozen_at_ring in Hring; [|done..].
    assert (¬ (1 ≤ gy < 1 + layer_dimension p ∧ 1 ≤ gx < 1 + layer_dimension p))
      as Hnot by (rewrite <-frozen_at_inner, Hring; done).
    destruct (Hout gy gx) as [-> ->]; [lia..|done|].
    by rewrite !mat_get_replicate.
Qed.

Lemma ring_cell_unfrozen (layer : nat) (x y : Z) :
  chebyshev x y = layer →
  0 ≤ y + layer < layer_dimension layer ∧ 0 ≤ x + layer < layer_dimension layer ∧
  frozen_at layer (y + layer) (x + layer) = false.
Proof.
  intros Hring. unfold frozen_at, layer_dimension. rewrite bool_decide_eq_false.
  unfold chebyshev in *. lia.
Qed.

(** [create_layer_axiom] on a positive layer, given what the recursive
    [ensure_layer_axiom] returned. *)
Lemma create_layer_axiom_S_spec (p : nat) (axiom : AxiomTag) (d d1 : Data) :
  ensure_layer_axiom p axiom d = Ret d1 →
  data_ok d1 → is_Some (d1 !! (p, axiom)) →
  ∃ prev_grid prev_ro g ro,
    d1 !! (p, axiom) = Some (prev_grid, prev_ro) ∧
    create_layer_axiom (S p) axiom d = Ret (<[(S p, axiom) := (g, ro)]> d1) ∧
    grid_ok (S p) (g, ro) ∧
    (∀ py px, 0 ≤ py < layer_dimension p → 0 ≤ px < layer_dimension p →
       ∃ ch, mat_get prev_grid py px = Ret ch ∧
             mat_get g (py + 1) (px + 1) = Ret (promoted ch) ∧
             mat_get ro (py + 1) (px + 1) = Ret true) ∧
    (∀ gy gx, 0 ≤ gy < layer_dimension (S p) → 0 ≤ gx < layer_dimension (S p) →
       chebyshev (gx - S p) (gy - S p) = S p →
       mat_get g gy gx = Ret DEFAULT_CHAR ∧ mat_get ro gy gx = Ret false).
Proof.
  intros Hens Hd1 [[prev_grid prev_ro] Hprev].
  destruct (Hd1 _ _ _ Hprev) as [(Hdims & _ & _) _]. simpl in Hdims.
  destruct (create_grid_spec p prev_grid Hdims) as (g & ro & Hrun & Hok & Hin & Hout).
  exists prev_grid, prev_ro, g, ro. split_and!; [done| |done..].
  rewrite create_layer_axiom_S, Hens. run.
  unfold dict_get. rewrite Hprev. run.
  rewrite copy_offset, Hrun. done.
Qed.

Lemma ensure_layer_axiom_spec (layer : nat) (axiom : AxiomTag) (d : Data) :
  data_ok d →
  ∃ d', ensure_layer_axiom layer axiom d = Ret d' ∧ data_ok d' ∧
        is_Some (d' !! (layer, axiom)) ∧ extends_below layer axiom d d'.
Proof.
  revert d. induction layer as [|p IH]; intros d Hd; unfold ensure_layer_axiom.
  - destruct (decide (is_Some (d !! (O, axiom)))) as [Hin|Hout].
    { exists d. split_and!; [done..|apply extends_below_refl]. }
    rewrite create_layer_axiom_O. eexists. split_and!; [done| | |].
    + apply data_ok_insert; [done|apply grid_ok_O|done].
    + rewrite lookup_insert_eq. eauto.
    + split_and!.
      * intros k c Hk. rewrite lookup_insert_ne; [done|].
        intros <-. apply Hout. eauto.
      * intros l a Hnone Hsome.
        apply lookup_insert_is_Some' in Hsome as [[= <- <-]|[c Hc]]; [done|].
        by rewrite Hnone in Hc.
      * intros l a c Hl Hnone Hc.
        rewrite lookup_insert_ne in Hc by (intros [= <- <-]; lia).
        by rewrite Hnone in Hc.
  - destruct (decide (is_Some (d !! (S p, axiom)))) as [Hin|Hout].
    { exists d. split_and!; [done..|apply extends_below_refl]. }
    destruct (IH d Hd) as (d1 & Hens & Hd1 & Hsome & Hsub & Hnew & Hfresh).
    destruct (create_layer_axiom_S_spec p axiom d d1 Hens Hd1 Hsome)
      as (pg & pro & g & ro & Hprev & Hrun & Hok & _ & Hring).
    rewrite Hrun. eexists. split_and!; [done| | |].
    + apply data_ok_insert; [done..|]. by intros prev [= <-].
    + rewrite lookup_insert_eq. eauto.
    + split_and!.
      * intros k c Hk. rewrite lookup_insert_ne; [by apply Hsub|].
        intros <-. apply Hout. eauto.
      * intros l a Hnone Hs.
        apply lookup_insert_is_Some' in Hs as [[= <- <-]|Hs]; [done|].
        destruct (Hnew l a Hnone Hs). split; [done|lia].
      * intros l a c Hl Hnone Hc.
        destruct (decide ((S p, axiom) = (l, a))) as [[= <- <-]|Hne].
        -- rewrite lookup_insert_eq in Hc. simplify_eq. intros x y Hxy.
           destruct (ring_cell_unfrozen (S p) x y Hxy) as (Hy & Hx & _).
           destruct (Hring (y + S p) (x + S p) Hy Hx) as [Hdef _]; [|done].
           by replace (x + S p - S p) with x by lia;
              replace (y + S p - S p) with y by lia.
        -- rewrite lookup_insert_ne in Hc by done. by apply (Hfresh l a).
Qed.

Lemma ensure_layer_axiom_present (layer : nat) (axiom : AxiomTag) (d : Data) :
  is_Some (d !! (layer, axiom)) → ensure_layer_axiom layer axiom d = Ret d.
Proof. intros. unfold ensure_layer_axiom. by rewrite decide_True. Qed.

(** C1.  Building [grid(N, A)].  For [N = 0] the one build step stores the
    1 by 1 grid holding the origin marker, unfrozen.  For [N > 0] the build
    first ensures [grid(N-1, A)], then stores under [(N, A)] a [2N+1] by
    [2N+1] pair of matrices in which every cell of the previous grid sits
    at offset 1 with the origin marker turned into a blank and its flag
    set, whatever the previous flag matrix said, and in which every cell
    at Chebyshev distance [N] from the centre holds the default symbol and
    is unfrozen. *)
Theorem create_layer_axiom_builds (layer : nat) (axiom : AxiomTag) (d : Data) :
  data_ok d →
  match layer with
  | O =>
      ∃ g ro, create_layer_axiom 0 axiom d = Ret (<[(O, axiom) := (g, ro)]> d) ∧
              dims 1 g ∧ dims 1 ro ∧
              mat_get g 0 0 = Ret CENTER_CHAR ∧ mat_get ro 0 0 = Ret false
  | S p =>
      ∃ d1 prev_grid prev_ro g ro,
        ensure_layer_axiom p axiom d = Ret d1 ∧
        d1 !! (p, axiom) = Some (prev_grid, prev_ro) ∧
        create_layer_axiom (S p) axiom d = Ret (<[(S p, axiom) := (g, ro)]> d1) ∧
        dims (2 * S p + 1) g ∧ dims (2 * S p + 1) ro ∧
        (∀ py px, 0 ≤ py < 2 * p + 1 → 0 ≤ px < 2 * p + 1 →
           ∃ ch, mat_get prev_grid py px = Ret ch ∧
                 mat_get g (py + 1) (px + 1) = Ret (promoted ch) ∧
                 mat_get ro (py + 1) (px + 1) = Ret true) ∧
        (∀ gy gx, 0 ≤ gy < 2 * S p + 1 → 0 ≤ gx < 2 * S p + 1 →
           chebyshev (gx - S p) (gy - S p) = S p →
           mat_get g gy gx = Ret DEFAULT_CHAR ∧ mat_get ro gy gx = Ret false)
  end.
Proof.
  intros Hd. destruct layer as [|p].
  - exists [[CENTER_CHAR]], [[false]]. rewrite create_layer_axiom_O.
    destruct grid_ok_O as (Hg & Hr & _). done.
  - destruct (ensure_layer_axiom_spec p axiom d Hd) as (d1 & Hens & Hd1 & Hsome & _).
    destruct (create_layer_axiom_S_spec p axiom d d1 Hens Hd1 Hsome)
      as (pg & pro & g & ro & Hprev & Hrun & (Hg & Hr & _) & Hin & Hout).
    exists d1, pg, pro, g, ro. by split_and!.
Qed.

Lemma create_layer_axiom_builds_witness :
  data_ok ∅ ∧
  ∃ d1 prev_grid prev_ro g ro,
    ensure_layer_axiom 0 AxA ∅ = Ret d1 ∧
    d1 !! (O, AxA) = Some (prev_grid, prev_ro) ∧
    create_layer_axiom 1 AxA ∅ = Ret (<[(1%nat, AxA) := (g, ro)]> d1) ∧
    dims (2 * 1%nat + 1) g ∧ dims (2 * 1%nat + 1) ro ∧
    (∀ py px, 0 ≤ py < 2 * O + 1 → 0 ≤ px < 2 * O + 1 →
       ∃ ch, mat_get prev_grid py px = Ret ch ∧
             mat_get g (py + 1) (px + 1) = Ret (promoted ch) ∧
             mat_get ro (py + 1) (px + 1) = Ret true) ∧
    (∀ gy gx, 0 ≤ gy < 2 * 1%nat + 1 → 0 ≤ gx < 2 * 1%nat + 1 →
       chebyshev (gx - 1%nat) (gy - 1%nat) = 1%nat →
       mat_get g gy gx = Ret DEFAULT_CHAR ∧ mat_get ro gy gx = Ret false).
Proof.
  split; [apply data_ok_empty|].
  apply (create_layer_axiom_builds 1 AxA ∅). apply data_ok_empty.
Defined.

(** C8.  [ensure_layer_axiom] is idempotent: the first call returns, and
    a second call on the state it left returns that very state, with the
    grid cached under [(N, A)] untouched. *)
Theorem ensure_layer_axiom_idempotent (layer : nat) (axiom : AxiomTag) (d : Data) :
  data_ok d →
  ∃ d' c, ensure_layer_axiom layer axiom d = Ret d' ∧
          d' !! (layer, axiom) = Some c ∧
          ensure_layer_axiom layer axiom d' = Ret d'.
Proof.
  intros Hd.
  destruct (ensure_layer_axiom_spec layer axiom d Hd) as (d' & Hens & _ & [c Hc] & _).
  exists d', c. split_and!; [done..|]. apply ensure_layer_axiom_present. eauto.
Qed.

Lemma ensure_layer_axiom_idempotent_witness :
  data_ok ∅ ∧
  ∃ d' c, ensure_layer_axiom 2 AxB ∅ = Ret d' ∧
          d' !! (2%nat, AxB) = Some c ∧
          ensure_layer_axiom 2 AxB d' = Ret d'.
Proof.
  split; [apply data_ok_empty|].
  apply (ensure_layer_axiom_idempotent 2 AxB ∅). apply data_ok_empty.
Defined.

(** ** Walking over frozen cells *)

Lemma is_within_bounds_true (s : State) (x y : Z) :
  is_within_bounds s x y = true ↔
  - current_layer s ≤ x ≤ current_layer s ∧ - current_layer s ≤ y ≤ current_layer s.
Proof. unfold is_within_bounds. by rewrite bool_decide_eq_true. Qed.

Lemma is_within_bounds_false (s : State) (x y : Z) :
  is_within_bounds s x y = false ↔
  ¬ (- current_layer s ≤ x ≤ current_layer s ∧ - current_layer s ≤ y ≤ current_layer s).
Proof. unfold is_within_bounds. by rewrite bool_decide_eq_false. Qed.

(** Inside the grid, [is_read_only] returns, and what it returns depends
    on the position alone. *)
Lemma is_read_only_spec (s : State) (x y : Z) :
  data_ok (data s) →
  is_Some (data s !! (current_layer s, current_axiom s)) →
  is_within_bounds s x y = true →
  is_read_only s x y
  = Ret (frozen_at (current_layer s) (y + current_layer s) (x + current_layer s)).
Proof.
  intros Hd [[g ro] Hc] Hin%is_within_bounds_true.
  destruct (Hd _ _ _ Hc) as [(_ & _ & Hro) _]. simpl in Hro.
  unfold is_read_only, dict_get. rewrite Hc. run.
  apply Hro; unfold layer_dimension; lia.
Qed.

(** [is_read_only] at a position that is not left of or above the grid
    is the lookup of the flag in the flag matrix of the current grid. *)
Lemma is_read_only_flag (s : State) (g : list (list string))
    (ro : list (list bool)) (x y : Z) (b : bool) :
  data s !! (current_layer s, current_axiom s) = Some (g, ro) →
  - current_layer s ≤ x → - current_layer s ≤ y →
  is_read_only s x y = Ret b
  ↔ ro !! Z.to_nat (y + current_layer s)
      ≫= (.!! Z.to_nat (x + current_layer s)) = Some b.
Proof.
  intros Hc Hx Hy. unfold is_read_only, dict_get. rewrite Hc. run.
  apply mat_get_Ret_lookup; lia.
Qed.

Lemma unit_direction_cases (dx dy : Z) :
  unit_direction dx dy →
  (dx = -1 ∧ dy = 0) ∨ (dx = 1 ∧ dy = 0) ∨ (dx = 0 ∧ dy = -1) ∨ (dx = 0 ∧ dy = 1).
Proof.
  unfold unit_direction. rewrite !elem_of_cons, elem_of_nil.
  intros [[= -> ->]|[[= -> ->]|[[= -> ->]|[[= -> ->]|[]]]]]; tauto.
Qed.

(** The loop of [jump_across] from an inside position [(x, y)]: with more
    fuel than cells left ahead it returns, either at the first unfrozen
    cell or when it steps outside. *)
Lemma jump_across_loop_spec (s : State) (dx dy : Z) :
  data_ok (data s) →
  is_Some (data s !! (current_layer s, current_axiom s)) →
  unit_direction dx dy →
  ∀ (fuel : nat) (x y : Z),
    is_within_bounds s x y = true →
    current_layer s - (x * dx + y * dy) < fuel →
    (∃ k, 1 ≤ k ∧
       jump_across_loop fuel dx dy x y s
       = Ret (true, set_cursor s (x + k * dx) (y + k * dy)) ∧
       is_within_bounds s (x + k * dx) (y + k * dy) = true ∧
       is_read_only s (x + k * dx) (y + k * dy) = Ret false ∧
       ∀ j, 1 ≤ j < k →
         is_within_bounds s (x + j * dx) (y + j * dy) = true ∧
         is_read_only s (x + j * dx) (y + j * dy) = Ret true)
    ∨ (jump_across_loop fuel dx dy x y s = Ret (false, s) ∧
       ∃ k, 1 ≤ k ∧
         is_within_bounds s (x + k * dx) (y + k * dy) = false ∧
         ∀ j, 1 ≤ j < k →
           is_within_bounds s (x + j * dx) (y + j * dy) = true ∧
           is_read_only s (x + j * dx) (y + j * dy) = Ret true).
Proof.
  intros Hd Hgrid Hdir. induction fuel as [|fuel IH]; intros x y Hin Hfuel.
  { apply is_within_bounds_true in Hin.
    apply unit_direction_cases in Hdir. lia. }
  cbn [jump_across_loop].
  destruct (is_within_bounds s (x + dx) (y + dy)) eqn:Hnext; cbn [negb].
  - rewrite (is_read_only_spec s (x + dx) (y + dy)) by done. run.
    destruct (frozen_at _ _ _) eqn:Hfrozen; cbn [negb].
    + assert (Hfuel' : current_layer s - ((x + dx) * dx + (y + dy) * dy) < fuel).
      { apply unit_direction_cases in Hdir. lia. }
      assert (Hshift : ∀ j, x + dx + j * dx = x + (j + 1) * dx
                            ∧ y + dy + j * dy = y + (j + 1) * dy) by (intros; lia).
      destruct (IH (x + dx) (y + dy) Hnext Hfuel')
        as [(k & Hk & Hrun & Hb & Hro & Hbetween)|(Hrun & k & Hk & Hb & Hbetween)];
        [left|right; split; [done|]]; exists (k + 1);
        destruct (Hshift k) as [<- <-]; (split_and!; [lia|done..|]);
        intros j Hj;
        (destruct (decide (j = 1)) as [->|Hj1];
         [rewrite !Z.mul_1_l; split; [done|];
          by rewrite (is_read_only_spec s (x + dx) (y + dy)), Hfrozen
         |destruct (Hshift (j - 1)) as [E1 E2];
          replace (j - 1 + 1) with j in E1, E2 by lia;
          rewrite <-E1, <-E2; apply Hbetween; lia]).
    + left. exists 1. rewrite !Z.mul_1_l. split_and!; [done..| |intros; lia].
      by rewrite (is_read_only_spec s (x + dx) (y + dy)), Hfrozen.
  - right. split; [done|]. exists 1. rewrite !Z.mul_1_l.
    split_and!; [done..|intros; lia].
Qed.

Lemma state_ok_cursor_in_grid (s : State) : state_ok s → cursor_in_grid s.
Proof.
  intros (Hd & Hin & Hro). split_and!; [done| |done].
  unfold is_read_only, dict_get in Hro.
  destruct (data s !! (current_layer s, current_axiom s)); [eauto|done].
Qed.

Lemma walk_leaves_for_good (s : State) (dx dy k0 k : Z) :
  unit_direction dx dy →
  is_within_bounds s (cursor_x s) (cursor_y s) = true →
  1 ≤ k0 ≤ k →
  is_within_bounds s (cursor_x s + k0 * dx) (cursor_y s + k0 * dy) = false →
  is_within_bounds s (cursor_x s + k * dx) (cursor_y s + k * dy) = false.
Proof.
  intros Hdir Hin Hk. rewrite !is_within_bounds_false.
  apply is_within_bounds_true in Hin.
  apply unit_direction_cases in Hdir. lia.
Qed.

(** [jump_across] from the cursor: [2 * current_layer + 1] iterations are
    always enough, and the result is a committed move or a rejected one. *)
Lemma jump_across_spec (s : State) (dx dy : Z) (fuel : nat) :
  cursor_in_grid s → unit_direction dx dy →
  (2 * current_layer s + 1 ≤ fuel)%nat →
  (∃ k s', jump_across fuel dx dy s = Ret (true, s') ∧ moved_to s dx dy k s')
  ∨ (jump_across fuel dx dy s = Ret (false, s) ∧ blocked s dx dy).
Proof.
  intros (Hd & Hgrid & Hin) Hdir Hfuel.
  assert (Hbudget : current_layer s - (cursor_x s * dx + cursor_y s * dy) < fuel).
  { apply is_within_bounds_true in Hin.
    apply unit_direction_cases in Hdir. lia. }
  destruct (jump_across_loop_spec s dx dy Hd Hgrid Hdir fuel _ _ Hin Hbudget)
    as [(k & Hk & Hrun & Hb & Hro & Hbetween)|(Hrun & k0 & Hk0 & Hout & Hbetween)].
  - left. exists k, (set_cursor s (cursor_x s + k * dx) (cursor_y s + k * dy)).
    split; [done|]. by split_and!.
  - right. split; [done|]. intros k Hk [Hb Hro].
    destruct (decide (k < k0)) as [Hlt|Hge].
    + destruct (Hbetween k) as [_ Hfrozen]; [lia|]. congruence.
    + rewrite (walk_leaves_for_good s dx dy k0 k) in Hb; [done..|lia|done].
Qed.

Lemma move_cursor_spec (s : State) (dx dy : Z) (fuel : nat) :
  cursor_in_grid s → unit_direction dx dy →
  (2 * current_layer s + 1 ≤ fuel)%nat →
  (∃ k s', move_cursor fuel dx dy s = Ret s' ∧ moved_to s dx dy k s')
  ∨ (move_cursor fuel dx dy s = Ret s ∧ blocked s dx dy).
Proof.
  intros Hs Hdir Hfuel. unfold move_cursor.
  destruct (jump_across_spec s dx dy fuel Hs Hdir Hfuel)
    as [(k & s' & -> & Hmoved)|[-> Hblocked]]; run; eauto.
Qed.

(** More fuel never changes the result of a walk that returned. *)
Lemma jump_across_loop_fuel (s : State) (dx dy : Z) (fuel fuel' : nat) (x y : Z) r :
  (fuel ≤ fuel')%nat →
  jump_across_loop fuel dx dy x y s = Ret r →
  jump_across_loop fuel' dx dy x y s = Ret r.
Proof.
  revert fuel' x y. induction fuel as [|fuel IH]; intros fuel' x y Hle; [done|].
  destruct fuel' as [|fuel']; [lia|]. cbn [jump_across_loop].
  destruct (negb _); [done|].
  destruct (is_read_only s (x + dx) (y + dy)) as [ro| |]; run; [|done..].
  destruct (negb ro); [done|]. apply IH. lia.
Qed.

Lemma moved_to_state_ok (s : State) (dx dy k : Z) (s' : State) :
  cursor_in_grid s → moved_to s dx dy k s' → state_ok s'.
Proof.
  intros (Hd & Hgrid & _) (_ & -> & Hb & Hro & _). by split_and!.
Qed.

(** ** Writing and switching *)

Lemma frozen_kept_refl (d : Data) : frozen_kept d d.
Proof. intros layer axiom g ro Hc. eauto. Qed.

Lemma frozen_kept_trans (d1 d2 d3 : Data) :
  frozen_kept d1 d2 → frozen_kept d2 d3 → frozen_kept d1 d3.
Proof.
  intros H12 H23 layer axiom g ro Hc.
  destruct (H12 _ _ _ _ Hc) as (g2 & Hc2 & Hsame2).
  destruct (H23 _ _ _ _ Hc2) as (g3 & Hc3 & Hsame3).
  exists g3. split; [done|]. intros gy gx Hy Hx Hf.
  rewrite Hsame3, Hsame2; done.
Qed.

Lemma extends_below_frozen_kept (layer : nat) (axiom : AxiomTag) (d d' : Data) :
  extends_below layer axiom d d' → frozen_kept d d'.
Proof. intros (Hsub & _) l a g ro Hc. exists g. split; [by apply Hsub|done]. Qed.

(** Replacing the symbols of one grid by symbols that agree on its frozen
    cells. *)
Lemma frozen_kept_insert (layer : nat) (axiom : AxiomTag)
    (g g' : list (list string)) (ro : list (list bool)) (d : Data) :
  d !! (layer, axiom) = Some (g, ro) →
  (∀ gy gx, 0 ≤ gy < layer_dimension layer → 0 ≤ gx < layer_dimension layer →
     frozen_at layer gy gx = true → mat_get g' gy gx = mat_get g gy gx) →
  frozen_kept d (<[(layer, axiom) := (g', ro)]> d).
Proof.
  intros Hc Hsame l a g1 ro1 Hc1.
  destruct (decide ((layer, axiom) = (l, a))) as [[= <- <-]|Hne].
  - rewrite Hc in Hc1. simplify_eq. exists g'. by rewrite lookup_insert_eq.
  - exists g1. by rewrite lookup_insert_ne.
Qed.

Lemma data_ok_insert_symbols (layer : nat) (axiom : AxiomTag)
    (g g' : list (list string)) (ro : list (list bool)) (d : Data) :
  data_ok d → d !! (layer, axiom) = Some (g, ro) →
  dims (layer_dimension layer) g' →
  data_ok (<[(layer, axiom) := (g', ro)]> d).
Proof.
  intros Hd Hc Hg'. destruct (Hd _ _ _ Hc) as [(_ & Hro & Hflags) Hprev].
  apply data_ok_insert; [done| |done]. by split_and!.
Qed.

Lemma insert_char_spec (ch : string) (s : State) :
  cursor_in_grid s →
  ∃ g ro,
    data s !! (current_layer s, current_axiom s) = Some (g, ro) ∧
    ((is_read_only s (cursor_x s) (cursor_y s) = Ret true ∧
      insert_char ch s = Ret s)
     ∨ (is_read_only s (cursor_x s) (cursor_y s) = Ret false ∧
        ∃ g',
          insert_char ch s
          = Ret (set_data s (<[(current_layer s, current_axiom s) := (g', ro)]>
                               (data s))) ∧
          dims (layer_dimension (current_layer s)) g' ∧
          mat_get g' (cursor_y s + current_layer s) (cursor_x s + current_layer s)
          = Ret ch ∧
          ∀ y x, 0 ≤ y → 0 ≤ x →
            (y, x) ≠ (cursor_y s + current_layer s, cursor_x s + current_layer s) →
            mat_get g' y x = mat_get g y x)).
Proof.
  intros (Hd & [[g ro] Hc] & Hin). exists g, ro. split; [done|].
  pose proof (is_read_only_spec s _ _ Hd (ex_intro _ _ Hc) Hin) as Hro.
  destruct (Hd _ _ _ Hc) as [(Hg & _ & _) _]. simpl in Hg.
  apply is_within_bounds_true in Hin.
  assert (Hget : mat_get ro (cursor_y s + current_layer s)
                    (cursor_x s + current_layer s)
                  = Ret (frozen_at (current_layer s) (cursor_y s + current_layer s)
                           (cursor_x s + current_layer s))).
  { unfold is_read_only, dict_get in Hro. by rewrite Hc in Hro. }
  rewrite Hro. unfold insert_char, dict_get. rewrite Hc. run. rewrite Hget. run.
  destruct (frozen_at _ _ _); cbn [negb].
  - by left.
  - right. split; [done|].
    destruct (mat_set_spec (layer_dimension (current_layer s)) g
                (cursor_y s + current_layer s) (cursor_x s + current_layer s) ch)
      as (g' & -> & Hg' & Hread & Hother);
      [done|unfold layer_dimension; lia..|].
    exists g'. by split_and!.
Qed.

Lemma frozen_at_corner (layer : nat) : frozen_at layer 0 0 = false.
Proof. unfold frozen_at, chebyshev. rewrite bool_decide_eq_false. lia. Qed.

Lemma go_to_layer_axiom_spec (layer : nat) (axiom : AxiomTag) (s : State) :
  data_ok (data s) →
  ∃ d', ensure_layer_axiom layer axiom (data s) = Ret d' ∧
        go_to_layer_axiom layer axiom s
        = Ret {| data := d'; current_layer := layer; current_axiom := axiom;
                 cursor_x := - layer; cursor_y := - layer |} ∧
        extends_below layer axiom (data s) d' ∧
        state_ok {| data := d'; current_layer := layer; current_axiom := axiom;
                    cursor_x := - layer; cursor_y := - layer |}.
Proof.
  intros Hd.
  destruct (ensure_layer_axiom_spec layer axiom (data s) Hd)
    as (d' & Hens & Hd' & Hsome & Hext).
  exists d'. unfold go_to_layer_axiom. rewrite Hens. run.
  split_and!; [done..|].
  assert (Hin : is_within_bounds
                  {| data := d'; current_layer := layer; current_axiom := axiom;
                     cursor_x := - layer; cursor_y := - layer |}
                  (- layer) (- layer) = true)
    by (apply is_within_bounds_true; simpl; lia).
  split_and!; [done..|]. cbn [cursor_x cursor_y].
  rewrite is_read_only_spec by done. cbn [current_layer].
  replace (- layer + layer) with 0 by lia. by rewrite frozen_at_corner.
Qed.

(** ** The ring *)

(** Two nested loops with a test inside visit the pairs that pass it. *)
Lemma for_each_cond_nested {St} (ys xs : list Z) (P : Z → Z → Prop)
    `{!∀ x y, Decision (P x y)} (body : Z → Z → St → outcome St) (st : St) :
  for_each ys (λ y, for_each xs (λ x st,
    if decide (P x y) then body x y st else Ret st)) st
  = for_each (y ← ys; x ← xs; if decide (P x y) then [(x, y)] else [])
      (λ p, body p.1 p.2) st.
Proof.
  revert st. induction ys as [|y ys IH]; intros st; [done|].
  cbn [for_each]. rewrite bind_cons, for_each_app.
  assert (Hrow : ∀ st, for_each xs (λ x st,
                     if decide (P x y) then body x y st else Ret st) st
                 = for_each (x ← xs; if decide (P x y) then [(x, y)] else [])
                     (λ p, body p.1 p.2) st).
  { clear IH st. induction xs as [|x xs IHx]; intros st; [done|].
    cbn [for_each]. rewrite bind_cons.
    destruct (decide (P x y)); run; [|apply IHx].
    cbn [app for_each fst snd]. destruct (body x y st); run; auto. }
  rewrite Hrow.
  destruct (for_each _ (λ p, body p.1 p.2) st); run; auto.
Qed.

Lemma ring_positions_elem (layer : nat) (x y : Z) :
  (x, y) ∈ ring_positions layer ↔ chebyshev x y = layer.
Proof.
  unfold ring_positions, chebyshev. rewrite list_elem_of_bind. split.
  - intros (y' & Hrow & _). apply list_elem_of_bind in Hrow as (x' & Hx & _).
    destruct (decide _); [|by apply elem_of_nil in Hx].
    apply list_elem_of_singleton in Hx as [= -> ->]. done.
  - intros Hring. exists y. split; [|apply py_range_elem; lia].
    apply list_elem_of_bind. exists x. split; [|apply py_range_elem; lia].
    rewrite decide_True by done. by apply list_elem_of_singleton.
Qed.

Lemma length_bind_const {A B} (f : A → list B) (l : list A) (c : nat) :
  (∀ a, a ∈ l → length (f a) = c) → length (l ≫= f) = (c * length l)%nat.
Proof.
  induction l as [|a l IH]; intros Hc; [simpl; lia|].
  rewrite bind_cons, length_app, Hc, IH by set_solver. simpl. lia.
Qed.

Lemma py_range_ends (N : Z) :
  0 < N →
  py_range (- N) (N + 1) = [- N] ++ py_range (- N + 1) N ++ [N].
Proof.
  intros HN. unfold py_range.
  replace (N + 1 - - N) with (1 + ((N - (- N + 1)) + 1)) by lia.
  rewrite (seqZ_app _ 1), (seqZ_app _ (N - (- N + 1)) 1) by lia.
  replace (- N + 1 + (N - (- N + 1))) with N by lia. done.
Qed.

(** A row of the ring loops: the top and bottom rows are whole, every
    other row contributes its two ends. *)
Lemma ring_row_length (N y : Z) :
  0 < N → - N ≤ y ≤ N →
  length (x ← py_range (- N) (N + 1);
          if decide (Z.abs x `max` Z.abs y = N) then [(x, y)] else [])
  = if decide (Z.abs y = N) then Z.to_nat (2 * N + 1) else 2%nat.
Proof.
  intros HN Hy. destruct (decide (Z.abs y = N)) as [Hedge|Hmid].
  - rewrite (length_bind_const _ _ 1).
    + rewrite py_range_length. lia.
    + intros x Hx%py_range_elem. rewrite decide_True by lia. done.
  - rewrite py_range_ends, !bind_app, !length_app by done.
    rewrite (length_bind_const _ (py_range _ _) 0).
    + cbn [mbind list_bind app length]. rewrite !decide_True by lia.
      simpl. lia.
    + intros x Hx%py_range_elem. rewrite decide_False by lia. done.
Qed.

Lemma ring_positions_length (layer : nat) :
  (0 < layer)%nat → length (ring_positions layer) = (8 * layer)%nat.
Proof.
  intros Hpos. unfold ring_positions.
  rewrite py_range_ends at 1 by lia. rewrite !bind_app, !length_app.
  rewrite (length_bind_const _ (py_range _ _) 2).
  - cbn [mbind list_bind app length]. rewrite !app_nil_r.
    rewrite !ring_row_length by lia. rewrite !decide_True by lia.
    rewrite py_range_length. lia.
  - intros y Hy%py_range_elem. rewrite ring_row_length by lia.
    rewrite decide_False by lia. done.
Qed.

(** The ring loop of [get_outer_ring_cells], once every read returns. *)
Lemma collect_ring_cells (layer : nat) (grid : list (list string))
    (l : list (Z * Z)) (acc : list (Z * Z * string)) :
  (∀ p, p ∈ l → ∃ ch, mat_get grid (p.2 + layer) (p.1 + layer) = Ret ch) →
  for_each l (λ p ring,
    ch ← mat_get grid (p.2 + layer) (p.1 + layer);
    if ring_filter_out ch then Ret ring else Ret (ring ++ [(p.1, p.2, ch)])) acc
  = Ret (acc ++ omap (ring_cell layer grid) l).
Proof.
  revert acc. induction l as [|p l IH]; intros acc Hread.
  { simpl. by rewrite app_nil_r. }
  destruct (Hread p) as [ch Hch]; [set_solver|].
  cbn [for_each omap list_omap]. unfold ring_cell at 1. rewrite Hch. run.
  destruct (ring_filter_out ch).
  - run. apply IH. intros q Hq. apply Hread. set_solver.
  - run. rewrite IH by (intros q Hq; apply Hread; set_solver).
    by rewrite <-app_assoc.
Qed.

Lemma ring_filter_out_false (ch : string) :
  ring_filter_out ch = false ↔
  ch ≠ " "%string ∧ ch ≠ ""%string ∧ ch ≠ DEFAULT_CHAR.
Proof.
  unfold ring_filter_out. rewrite bool_decide_eq_false.
  rewrite !elem_of_cons, elem_of_nil. tauto.
Qed.

(** C5.  [get_outer_ring_cells] on a cached grid.  At layer 0 it returns
    the single cell [(0, 0)] with whatever symbol the origin holds, without
    filtering.  At a layer [N > 0] it visits exactly the [8 * N] offsets at
    Chebyshev distance [N], in loop order, and keeps those whose symbol is
    not blank, not empty and not the default; the flag matrix plays no
    part in the result. *)
Theorem get_outer_ring_cells_spec (layer : nat) (axiom : AxiomTag) (d : Data)
    (grid : list (list string)) (ro : list (list bool)) :
  data_ok d →
  d !! (layer, axiom) = Some (grid, ro) →
  (layer = O →
     ∃ ch, mat_get grid 0 0 = Ret ch ∧
           get_outer_ring_cells layer axiom d = Ret [(0, 0, ch)]) ∧
  ((0 < layer)%nat →
     get_outer_ring_cells layer axiom d
     = Ret (omap (ring_cell layer grid) (ring_positions layer)) ∧
     length (ring_positions layer) = (8 * layer)%nat ∧
     (∀ x y, (x, y) ∈ ring_positions layer ↔ chebyshev x y = layer) ∧
     (∀ x y ch,
        (x, y, ch) ∈ omap (ring_cell layer grid) (ring_positions layer) ↔
        chebyshev x y = layer ∧
        mat_get grid (y + layer) (x + layer) = Ret ch ∧
        ch ≠ " "%string ∧ ch ≠ ""%string ∧ ch ≠ DEFAULT_CHAR)) ∧
  (∀ ro' : list (list bool),
     get_outer_ring_cells layer axiom (<[(layer, axiom) := (grid, ro')]> d)
     = get_outer_ring_cells layer axiom d).
Proof.
  intros Hd Hc. destruct (Hd _ _ _ Hc) as [(Hg & _ & _) _]. simpl in Hg.
  split_and!.
  - intros ->. destruct (mat_get_total _ grid 0 0 Hg) as [ch Hch];
      [unfold layer_dimension; lia..|].
    exists ch. split; [done|].
    unfold get_outer_ring_cells, dict_get. rewrite Hc. run.
    rewrite decide_True by done. rewrite Hch. done.
  - intros Hpos. split_and!.
    + unfold get_outer_ring_cells, dict_get. rewrite Hc. run.
      rewrite decide_False by lia.
      rewrite (for_each_cond_nested _ _ (λ x y, Z.abs x `max` Z.abs y = layer)
                 (λ x y ring,
                    ch ← mat_get grid (y + layer) (x + layer);
                    if ring_filter_out ch then Ret ring
                    else Ret (ring ++ [(x, y, ch)]))).
      fold (ring_positions layer).
      rewrite (collect_ring_cells layer grid (ring_positions layer) []); [done|].
      intros [x y] Hp%ring_positions_elem. unfold chebyshev in Hp.
      apply (mat_get_total _ grid _ _ Hg); unfold layer_dimension; simpl; lia.
    + by apply ring_positions_length.
    + apply ring_positions_elem.
    + intros x y ch. rewrite list_elem_of_omap. split.
      * intros ([x' y'] & Hp%ring_positions_elem & Hcell).
        unfold ring_cell in Hcell. simpl in Hcell.
        destruct (mat_get grid _ _) as [ch'| |] eqn:Hch; [|done..].
        destruct (ring_filter_out ch') eqn:Hf; [done|].
        simplify_eq. by apply ring_filter_out_false in Hf.
      * intros (Hp & Hch & Hf). exists (x, y).
        split; [by apply ring_positions_elem|].
        unfold ring_cell. simpl. rewrite Hch.
        apply ring_filter_out_false in Hf. by rewrite Hf.
  - intros ro'. unfold get_outer_ring_cells, dict_get.
    by rewrite lookup_insert_eq, Hc.
Qed.

(** ** Prefilling *)

(** On a well-formed flag matrix the whole ring is unfrozen, so
    [ring_coords] is the ring, as grid indices. *)
Lemma unfrozen_ring_coords_spec (layer : nat) (c : list (list string) * list (list bool)) :
  grid_ok layer c →
  unfrozen_ring_coords layer c.2
  = Ret ((λ p, (p.1 + layer, p.2 + layer)) <$> ring_positions layer).
Proof.
  intros (_ & _ & Hflags). unfold unfrozen_ring_coords.
  rewrite (for_each_cond_nested _ _ (λ x y, Z.abs x `max` Z.abs y = layer)
             (λ x y ring_coords,
                frozen ← mat_get c.2 (y + layer) (x + layer);
                if negb frozen then Ret (ring_coords ++ [(x + layer, y + layer)])
                else Ret ring_coords)).
  fold (ring_positions layer).
  assert (Hgen : ∀ l acc,
    (∀ p, p ∈ l → chebyshev p.1 p.2 = layer) →
    for_each l (λ p ring_coords,
      frozen ← mat_get c.2 (p.2 + layer) (p.1 + layer);
      if negb frozen then Ret (ring_coords ++ [(p.1 + layer, p.2 + layer)])
      else Ret ring_coords) acc
    = Ret (acc ++ ((λ p, (p.1 + layer, p.2 + layer)) <$> l))).
  { induction l as [|p l IH]; intros acc Hl.
    { simpl. by rewrite app_nil_r. }
    destruct (ring_cell_unfrozen layer p.1 p.2) as (Hy & Hx & Hf);
      [apply Hl; set_solver|].
    cbn [for_each]. rewrite Hflags, Hf by done. run. cbn [negb]. run.
    rewrite IH by (intros q Hq; apply Hl; set_solver).
    by rewrite fmap_cons, <-app_assoc. }
  apply (Hgen _ []). intros [x y] Hp. by apply ring_positions_elem.
Qed.

(** A loop of cell writes: it returns, keeps the shape, and leaves alone
    every cell it was not asked to write. *)
Lemma write_loop_frame {St} (proj : St → list (list string)) (k : Z)
    (sel : list (Z * Z)) (body : Z * Z → St → outcome St) (st : St) :
  dims k (proj st) →
  (∀ p st, p ∈ sel → dims k (proj st) →
     ∃ st', body p st = Ret st' ∧ dims k (proj st') ∧
       ∀ y x, 0 ≤ y → 0 ≤ x → (x, y) ≠ p →
         mat_get (proj st') y x = mat_get (proj st) y x) →
  ∃ st', for_each sel body st = Ret st' ∧ dims k (proj st') ∧
    ∀ y x, 0 ≤ y → 0 ≤ x → (x, y) ∉ sel →
      mat_get (proj st') y x = mat_get (proj st) y x.
Proof.
  revert st. induction sel as [|p sel IH]; intros st Hst Hbody.
  { exists st. by split_and!. }
  destruct (Hbody p st) as (st1 & Hrun1 & Hst1 & Hframe1); [set_solver|done|].
  destruct (IH st1 Hst1) as (st' & Hrun & Hst' & Hframe).
  { intros q st2 Hq. apply Hbody. set_solver. }
  exists st'. cbn [for_each]. rewrite Hrun1. run. split_and!; [done..|].
  intros y x Hy Hx Hnot.
  rewrite Hframe by set_solver. apply Hframe1; [done..|set_solver].
Qed.

(** The fill loop of the full mode with a symbol other than the default. *)
Lemma fill_loop_spec (k : Z) (c : string) (sel : list (Z * Z))
    (grid : list (list string)) :
  dims k grid →
  (∀ p, p ∈ sel → 0 ≤ p.1 < k ∧ 0 ≤ p.2 < k) →
  ∃ grid',
    for_each sel (λ '(gx, gy) grid, mat_set grid gy gx c) grid = Ret grid' ∧
    dims k grid' ∧
    (∀ y x, 0 ≤ y → 0 ≤ x → (x, y) ∉ sel → mat_get grid' y x = mat_get grid y x) ∧
    (∀ x y, (x, y) ∈ sel → mat_get grid' y x = Ret c).
Proof.
  revert grid. induction sel as [|[gx gy] sel IH]; intros grid Hg Hsel.
  { exists grid. split_and!; [done..|]. intros x y Hin. by apply elem_of_nil in Hin. }
  destruct (Hsel (gx, gy)) as [Hx Hy]; [set_solver|]. simpl in Hx, Hy.
  destruct (mat_set_spec k grid gy gx c Hg Hy Hx) as (g1 & Hset & Hg1 & Hread & Hother).
  destruct (IH g1 Hg1) as (grid' & Hrun & Hg' & Hframe & Hfilled).
  { intros q Hq. apply Hsel. set_solver. }
  exists grid'. cbn [for_each]. rewrite Hset. run. split_and!; [done..| |].
  - intros y x Hy0 Hx0 Hnot. rewrite Hframe by set_solver.
    apply Hother; [done..|]. intros [= -> ->]. set_solver.
  - intros x y Hin. destruct (decide ((x, y) ∈ sel)) as [Hlater|Hfirst].
    + by apply Hfilled.
    + assert ((x, y) = (gx, gy)) as [= -> ->] by set_solver.
      rewrite Hframe; [done|lia..|done].
Qed.

Lemma for_each_ext {A St} (l : list A) (body1 body2 : A → St → outcome St) (s : St) :
  (∀ a s, a ∈ l → body1 a s = body2 a s) →
  for_each l body1 s = for_each l body2 s.
Proof.
  revert s. induction l as [|a l IH]; intros s Hext; [done|].
  cbn [for_each]. rewrite Hext by set_solver.
  destruct (body2 a s); run; [|done..]. apply IH. intros. apply Hext. set_solver.
Qed.

Lemma for_each_skip {A St} (l : list A) (body : A → St → outcome St) (s : St) :
  (∀ a s, a ∈ l → body a s = Ret s) → for_each l body s = Ret s.
Proof.
  induction l as [|a l IH]; intros Hskip; [done|].
  cbn [for_each]. rewrite Hskip by set_solver. run. apply IH.
  intros. apply Hskip. set_solver.
Qed.

Lemma base_char_spec (layer : nat) (chars_list : list string) :
  (0 < layer)%nat →
  (if decide (layer ≤ length chars_list)%nat
   then c ← py_get chars_list (layer - 1); Ret (Some c)
   else Ret None)
  = Ret (chars_list !! (layer - 1)%nat).
Proof.
  intros Hpos. destruct (decide _) as [Hle|Hgt].
  - rewrite py_get_unfold by lia.
    replace (Z.to_nat (layer - 1)) with (layer - 1)%nat by lia.
    destruct (lookup_lt_is_Some_2 chars_list (layer - 1)) as [c ->]; [lia|done].
  - by rewrite lookup_ge_None_2 by lia.
Qed.

Lemma ring_coords_elem (layer : nat) (p : Z * Z) :
  p ∈ (λ p, (p.1 + layer, p.2 + layer)) <$> ring_positions layer ↔
  chebyshev (p.1 - layer) (p.2 - layer) = layer.
Proof.
  rewrite list_elem_of_fmap. split.
  - intros ([x y] & -> & Hq%ring_positions_elem). simpl.
    by replace (x + layer - layer) with x by lia;
       replace (y + layer - layer) with y by lia.
  - intros Hp. exists (p.1 - layer, p.2 - layer). split.
    + destruct p as [x y]. simpl. f_equal; lia.
    + by apply ring_positions_elem.
Qed.

Lemma ring_coords_in_range (layer : nat) (p : Z * Z) :
  chebyshev (p.1 - layer) (p.2 - layer) = layer →
  0 ≤ p.1 < layer_dimension layer ∧ 0 ≤ p.2 < layer_dimension layer.
Proof. unfold chebyshev, layer_dimension. lia. Qed.

Section prefill_grid.
Context (R : Random).

Lemma random_sample_spec (g : rng_state R) (population : list (Z * Z)) :
  RandomSpec R →
  ∃ selected g',
    random_sample R g population (length population `div` 2) = Ret (selected, g') ∧
    ∀ p, p ∈ selected → p ∈ population.
Proof.
  intros HR.
  pose proof (Z.mul_div_le (length population) 2).
  pose proof (Z.div_pos (length population) 2).
  unfold random_sample. rewrite decide_True by lia.
  destruct (rng_sample R g population _) as [selected g'] eqn:Hs.
  exists selected, g'. split; [done|]. intros p Hp.
  apply (rng_sample_elem R HR g population (Z.to_nat (length population `div` 2))).
  by rewrite Hs.
Qed.

(** One iteration of [prefill_layers]: the grid is ensured, then only
    ring cells of that one grid are written.  The full mode draws
    nothing; the other modes rely on the promises of the generator. *)
Lemma prefill_grid_spec (mode : string) (fills : AxiomTag → list string)
    (layer : nat) (axiom : AxiomTag) (d : Data) (g : rng_state R) :
  mode = "full"%string ∨ RandomSpec R →
  data_ok d → (0 < layer)%nat →
  ∃ d1 grid ro grid' g',
    ensure_layer_axiom layer axiom d = Ret d1 ∧
    extends_below layer axiom d d1 ∧ data_ok d1 ∧
    d1 !! (layer, axiom) = Some (grid, ro) ∧
    prefill_grid R mode fills layer axiom (d, g)
    = Ret (<[(layer, axiom) := (grid', ro)]> d1, g') ∧
    dims (layer_dimension layer) grid' ∧
    (∀ y x, 0 ≤ y → 0 ≤ x → chebyshev (x - layer) (y - layer) ≠ layer →
       mat_get grid' y x = mat_get grid y x) ∧
    (mode = "full"%string →
       match fills axiom !! (layer - 1)%nat with
       | Some c =>
           if decide (c = DEFAULT_CHAR) then grid' = grid
           else ∀ x y, chebyshev x y = layer →
                  mat_get grid' (y + layer) (x + layer) = Ret c
       | None => grid' = grid
       end).
Proof.
  intros Hrng Hd Hpos.
  destruct (ensure_layer_axiom_spec layer axiom d Hd)
    as (d1 & Hens & Hd1 & [[grid ro] Hc] & Hext).
  destruct (Hd1 _ _ _ Hc) as [Hok _]. pose proof Hok as (Hg & _ & _).
  simpl in Hg.
  set (coords := (λ p, (p.1 + layer, p.2 + layer)) <$> ring_positions layer).
  assert (Hcoords : ∀ p, p ∈ coords →
            chebyshev (p.1 - layer) (p.2 - layer) = layer ∧
            0 ≤ p.1 < layer_dimension layer ∧ 0 ≤ p.2 < layer_dimension layer).
  { intros p Hp%ring_coords_elem. split; [done|]. by apply ring_coords_in_range. }
  assert (Hlen : length coords ≠ O).
  { unfold coords. rewrite length_fmap, ring_positions_length by done. lia. }
  assert (Hsame : (<[(layer, axiom) := (grid, ro)]> d1) = d1) by by apply insert_id.
  assert (Hunchanged : ∀ g' : rng_state R,
    ∃ grid', (Ret (d1, g') : outcome _)
             = Ret (<[(layer, axiom) := (grid', ro)]> d1, g') ∧
      dims (layer_dimension layer) grid' ∧
      (∀ y x, 0 ≤ y → 0 ≤ x → chebyshev (x - layer) (y - layer) ≠ layer →
         mat_get grid' y x = mat_get grid y x) ∧ grid' = grid).
  { intros g'. exists grid. by rewrite Hsame. }
  exists d1, grid, ro.
  unfold prefill_grid. rewrite Hens. run. unfold dict_get. rewrite Hc. run.
  pose proof (unfrozen_ring_coords_spec layer (grid, ro) Hok) as Hring.
  cbn [snd] in Hring. rewrite Hring. run.
  fold coords. rewrite decide_False by done.
  rewrite base_char_spec by done. run.
  destruct (decide (mode = "full"%string)) as [Hfull|Hnotfull].
  { destruct (fills axiom !! (layer - 1)%nat) as [c|] eqn:Hbase.
    - destruct (decide (c = DEFAULT_CHAR)) as [Hdef|Hsym].
      + rewrite for_each_skip.
        * run. exists grid, g. by split_and!.
        * intros [gx gy] s _. rewrite decide_True; [done|]. set_solver.
      + destruct (fill_loop_spec (layer_dimension layer) c coords grid Hg)
          as (grid' & Hrun & Hg' & Hframe & Hfilled).
        { intros p Hp. by apply Hcoords. }
        rewrite (for_each_ext _ _ (λ '(gx, gy) grid, mat_set grid gy gx c)).
        * rewrite Hrun. run. exists grid', g. split_and!; [done..| |].
          -- intros y x Hy Hx Hoff. apply Hframe; [done..|].
             intros Hin. by destruct (Hcoords _ Hin) as [? _].
          -- intros _ x y Hxy.
             apply Hfilled, ring_coords_elem. simpl.
             by replace (x + layer - layer) with x by lia;
                replace (y + layer - layer) with y by lia.
        * intros [gx gy] s _. rewrite decide_False; [done|]. set_solver.
    - destruct (Hunchanged g) as (grid' & Heq & ? & ? & ?).
      exists grid', g. by split_and!. }
  destruct Hrng as [?|HR]; [done|].
  destruct (decide (mode = "partial"%string)) as [Hpartial|Hnotpartial].
  { destruct (fills axiom !! (layer - 1)%nat) as [c|].
    - destruct (random_sample_spec g coords HR) as (selected & g' & -> & Hsel). run.
      destruct (fill_loop_spec (layer_dimension layer) c selected grid Hg)
        as (grid' & Hrun & Hg' & Hframe & _).
      { intros p Hp. by apply Hcoords, Hsel. }
      rewrite Hrun. run. exists grid', g'. split_and!; [done..| |done].
      intros y x Hy Hx Hoff. apply Hframe; [done..|].
      intros Hin%Hsel. by destruct (Hcoords _ Hin) as [? _].
    - destruct (Hunchanged g) as (grid' & Heq & ? & ? & ?).
      exists grid', g. by split_and!. }
  destruct (decide (mode = "random"%string)) as [Hrandom|Hnotrandom].
  { destruct (decide (0 < length (fills axiom))%nat) as [Hchars|Hnone].
    - destruct (random_sample_spec g coords HR) as (selected & g' & -> & Hsel). run.
      destruct (write_loop_frame fst (layer_dimension layer) selected
                  (λ '(gx, gy) '(grid, g),
                     '(ch, g) ← random_choice R g (fills axiom);
                     grid ← mat_set grid gy gx ch;
                     Ret (grid, g)) (grid, g'))
        as ([grid' g''] & Hrun & Hg' & Hframe); [done| |].
      { intros [gx gy] [grid1 g1] Hp Hg1. simpl in Hg1.
        destruct (Hcoords (gx, gy)) as (_ & Hx & Hy); [by apply Hsel|].
        simpl in Hx, Hy. unfold random_choice.
        rewrite decide_False by (intros Hnil; rewrite Hnil in Hchars; simpl in Hchars; lia).
        destruct (rng_choice R g1 (fills axiom)) as [ch g2]. run.
        destruct (mat_set_spec _ grid1 gy gx ch Hg1 Hy Hx)
          as (grid2 & -> & Hg2 & _ & Hother). run.
        exists (grid2, g2). split_and!; [done..|].
        intros y x Hy0 Hx0 Hne. simpl. apply Hother; [done..|].
        intros [= -> ->]. done. }
      rewrite Hrun. run. exists grid', g''. split_and!; [done..| |done].
      intros y x Hy Hx Hoff. apply Hframe; [done..|].
      intros Hin%Hsel. by destruct (Hcoords _ Hin) as [? _].
    - destruct (Hunchanged g) as (grid' & Heq & ? & ? & ?).
      exists grid', g. by split_and!. }
  destruct (Hunchanged g) as (grid' & Heq & ? & ? & ?).
  exists grid', g. by split_and!.
Qed.
End prefill_grid.

(** The invariant rule again, with the elements already visited. *)
Lemma for_each_prefix_inv {A St} (I : list A → St → Prop) (l : list A)
    (body : A → St → outcome St) (s0 : St) :
  I [] s0 →
  (∀ done a rest s, l = done ++ a :: rest → I done s →
     ∃ s', body a s = Ret s' ∧ I (done ++ [a]) s') →
  ∃ s', for_each l body s0 = Ret s' ∧ I l s'.
Proof.
  intros H0 Hstep.
  cut (∀ rest pre s, l = pre ++ rest → I pre s →
         ∃ s', for_each rest body s = Ret s' ∧ I l s').
  { intros Hgen. by apply (Hgen l []). }
  induction rest as [|a rest IH]; intros pre s Hl Hpre.
  - exists s. rewrite app_nil_r in Hl. by subst.
  - destruct (Hstep pre a rest s Hl Hpre) as (s1 & Hrun & H1).
    cbn [for_each]. rewrite Hrun. run.
    apply (IH (pre ++ [a])); [|done]. by rewrite <-app_assoc.
Qed.

Lemma prefill_keys_elem (max_layers : nat) (l : nat) (a : AxiomTag) :
  (l, a) ∈ (layer ← seq 1 max_layers; (layer,.) <$> axioms) ↔
  (1 ≤ l ≤ max_layers)%nat.
Proof.
  rewrite list_elem_of_bind. split.
  - intros (l' & Hin & Hl'%elem_of_seq).
    apply list_elem_of_fmap in Hin as (a' & [= -> ->] & _). lia.
  - intros Hl. exists l. split; [|apply elem_of_seq; lia].
    apply list_elem_of_fmap. exists a. split; [done|].
    unfold axioms. destruct a; set_solver.
Qed.

Lemma prefill_keys_NoDup (max_layers : nat) :
  NoDup (layer ← seq 1 max_layers; (layer,.) <$> axioms).
Proof.
  apply NoDup_bind.
  - intros l1 l2 [l a] _ _ H1 H2.
    apply list_elem_of_fmap in H1 as (? & [= -> ->] & _).
    apply list_elem_of_fmap in H2 as (? & [= -> ->] & _). done.
  - intros l _. apply NoDup_fmap_2; [by intros ?? [=]|].
    unfold axioms. by apply (bool_decide_unpack _).
  - apply NoDup_seq.
Qed.

Section prefill_layers.
Context (R : Random).

Lemma prefill_step (mode : string) (fills : AxiomTag → list string)
    (d0 : Data) (done rest : list (nat * AxiomTag)) (k : nat * AxiomTag)
    (st : Data * rng_state R) :
  mode = "full"%string ∨ RandomSpec R →
  NoDup (done ++ k :: rest) → (0 < k.1)%nat →
  prefilled mode fills d0 done st.1 →
  ∃ st', prefill_grid R mode fills k.1 k.2 st = Ret st' ∧
         prefilled mode fills d0 (done ++ [k]) st'.1.
Proof.
  destruct k as [l a], st as [d g]. cbn [fst snd].
  intros Hrng Hnodup Hl (Hd & Hkept & Hdone & Hfilled).
  assert (Hnew_key : (l, a) ∉ done).
  { apply list.NoDup_app in Hnodup as (_ & Hdisj & _). intros Hin.
    apply (Hdisj _ Hin). set_solver. }
  destruct (prefill_grid_spec R mode fills l a d g Hrng Hd Hl)
    as (d1 & grid & ro & grid' & g' & Hens & Hext & Hd1 & Hc & Hrun
        & Hg' & Hframe & Hfull).
  pose proof Hext as (Hsub & Hnew & Hfresh).
  exists (<[(l, a) := (grid', ro)]> d1, g'). split; [done|]. cbn [fst].
  split_and!.
  - by apply (data_ok_insert_symbols l a grid).
  - apply (frozen_kept_trans _ d); [done|].
    apply (frozen_kept_trans _ d1); [by eapply extends_below_frozen_kept|].
    apply (frozen_kept_insert l a grid); [done|].
    intros gy gx Hy Hx Hfrozen. apply Hframe; [lia..|].
    unfold frozen_at in Hfrozen. apply bool_decide_eq_true in Hfrozen. lia.
  - intros k' [Hk'|Hk']%elem_of_app.
    + apply lookup_insert_is_Some'. right.
      destruct (Hdone k' Hk') as [c' Hc']. rewrite (Hsub _ _ Hc'). eauto.
    + apply list_elem_of_singleton in Hk' as ->. rewrite lookup_insert_eq. eauto.
  - intros Hmode Hfresh0 l' a' c Hl' Hc'.
    destruct (decide ((l, a) = (l', a'))) as [[= <- <-]|Hne].
    + rewrite lookup_insert_eq in Hc'. simplify_eq. cbn [fst].
      rewrite decide_True by set_solver.
      assert (Hring : ring_all l grid DEFAULT_CHAR).
      { destruct (d !! (l, a)) as [c0|] eqn:Hc0.
        - pose proof (Hfilled eq_refl Hfresh0 l a c0 Hl Hc0) as Hinv.
          rewrite decide_False in Hinv by done.
          rewrite (Hsub _ _ Hc0) in Hc. by simplify_eq.
        - apply (Hfresh l a (grid, ro) Hl Hc0 Hc). }
      specialize (Hfull eq_refl). unfold expected_symbol.
      destruct (fills a !! (l - 1)%nat) as [ch|]; cbn [default].
      * destruct (decide (ch = DEFAULT_CHAR)) as [->|Hsym]; [by subst|done].
      * by subst.
    + rewrite lookup_insert_ne in Hc' by done.
      destruct (d !! (l', a')) as [c1|] eqn:Hc1.
      * rewrite (Hsub _ _ Hc1) in Hc'. simplify_eq.
        pose proof (Hfilled eq_refl Hfresh0 l' a' c Hl' Hc1) as Hinv.
        destruct (decide ((l', a') ∈ done)) as [Hin|Hnot].
        -- rewrite decide_True by set_solver. done.
        -- rewrite decide_False by set_solver. done.
      * rewrite decide_False.
        -- by apply (Hfresh l' a' c Hl' Hc1).
        -- intros [Hin|Hin]%elem_of_app; [|set_solver].
           destruct (Hdone _ Hin) as [c1 Hsome]. congruence.
Qed.

(** [prefill_layers] returns in every mode and from every well-formed
    cache; it keeps the cache well-formed and the frozen cells of every
    grid as they were, and in full mode it fills the rings. *)
Lemma prefill_layers_spec (mode : string)
    (fillA fillB fillC fillD fillE fillF fillH fillI fillJ : list string)
    (d : Data) :
  mode = "full"%string ∨ RandomSpec R →
  data_ok d →
  ∃ d',
    prefill_layers R mode fillA fillB fillC fillD fillE fillF fillH fillI fillJ d
    = Ret d' ∧
    prefilled mode
      (fills_dict fillA fillB fillC fillD fillE fillF fillH fillI fillJ) d
      (layer ← seq 1 (max_layers_of fillA fillB fillC fillD fillE fillF
                        fillH fillI fillJ); (layer,.) <$> axioms)
      d'.
Proof.
  intros Hrng Hd. unfold prefill_layers.
  set (fills := fills_dict _ _ _ _ _ _ _ _ _).
  set (max_layers := max_layers_of _ _ _ _ _ _ _ _ _).
  rewrite (for_each_nested (seq 1 max_layers) (λ _, axioms)
             (prefill_grid R mode fills)).
  destruct (for_each_prefix_inv
              (λ done st, prefilled mode fills d done st.1)
              (layer ← seq 1 max_layers; (layer,.) <$> axioms)
              (λ p, prefill_grid R mode fills p.1 p.2) (d, rng_seed R 0))
    as ([d' g'] & Hrun & Hfinal).
  - split_and!; [done|apply frozen_kept_refl| |].
    + intros k Hk. by apply elem_of_nil in Hk.
    + intros _ Hfresh l a c Hl Hc. rewrite decide_False by apply not_elem_of_nil.
      by apply (Hfresh l a).
  - intros done k rest st Hkeys Hinv.
    apply (prefill_step mode fills d done rest k st); [done| | |done].
    + rewrite <-Hkeys. apply prefill_keys_NoDup.
    + assert (Hk : k ∈ (layer ← seq 1 max_layers; (layer,.) <$> axioms))
        by (rewrite Hkeys; set_solver).
      destruct k as [l a]. apply prefill_keys_elem in Hk. simpl. lia.
  - exists d'. rewrite Hrun. done.
Qed.
End prefill_layers.

(** ** Sessions *)

Lemma first_random_spec : RandomSpec first_random.
Proof.
  split; simpl.
  - intros _ pop k c Hc. by apply (subseteq_take k pop).
  - intros _ pop k Hk. rewrite length_take. lia.
  - intros _ [|ch l] Hl; [done|]. simpl. set_solver.
Qed.

Lemma state_ok_set_data (s : State) (d' : Data) :
  state_ok s → data_ok d' → frozen_kept (data s) d' → state_ok (set_data s d').
Proof.
  intros Hs Hd' Hkept. pose proof Hs as (Hd & Hin & Hro).
  destruct (state_ok_cursor_in_grid s Hs) as (_ & [[g ro] Hc] & _).
  destruct (Hkept _ _ _ _ Hc) as (g' & Hc' & _).
  split_and!; [done..|].
  rewrite is_read_only_spec in Hro by eauto.
  rewrite (is_read_only_spec (set_data s d')); [done..|by eexists|done].
Qed.

Lemma move_cursor_fuel (s : State) (dx dy : Z) (fuel fuel' : nat) (s' : State) :
  (fuel ≤ fuel')%nat →
  move_cursor fuel dx dy s = Ret s' → move_cursor fuel' dx dy s = Ret s'.
Proof.
  intros Hle. unfold move_cursor, jump_across.
  destruct (jump_across_loop fuel _ _ _ _ _) as [r| |] eqn:Hrun; [|done..].
  by rewrite (jump_across_loop_fuel s dx dy fuel fuel' _ _ r Hle Hrun).
Qed.

(** Every command keeps the invariant of the state, and keeps the frozen
    cells of every grid as they were. *)
Lemma step_state_ok (R : Random) (s : State) (c : command) (s' : State) :
  RandomSpec R → state_ok s → step R s c s' →
  state_ok s' ∧ frozen_kept (data s) (data s').
Proof.
  intros HR Hs Hstep. pose proof (state_ok_cursor_in_grid s Hs) as Hcur.
  destruct Hstep as [s dx dy fuel s' Hdir Hrun|s ch s' Hrun
                    |s layer axiom s' Hrun|s mode fills s' Hrun].
  - apply (move_cursor_fuel s dx dy fuel (fuel `max` (2 * current_layer s + 1))) in Hrun;
      [|lia].
    destruct (move_cursor_spec s dx dy (fuel `max` (2 * current_layer s + 1)) Hcur Hdir)
      as [(k & s1 & Hrun1 & Hmoved)|[Hrun1 _]]; [lia|..];
      rewrite Hrun in Hrun1; simplify_eq.
    + split; [by eapply moved_to_state_ok|].
      destruct Hmoved as (_ & -> & _). apply frozen_kept_refl.
    + split; [done|apply frozen_kept_refl].
  - destruct (insert_char_spec ch s Hcur) as (g & ro & Hc & [[_ Hrun1]|(Hro & g' & Hrun1 & Hg' & _ & Hother)]);
      rewrite Hrun in Hrun1; simplify_eq.
    + split; [done|apply frozen_kept_refl].
    + destruct Hs as (Hd & Hin & _).
      assert (Hkept : frozen_kept (data s)
                (<[(current_layer s, current_axiom s) := (g', ro)]> (data s))).
      { apply (frozen_kept_insert _ _ g); [done|].
        intros gy gx Hy Hx Hfrozen. apply Hother; [lia..|].
        intros [= -> ->]. rewrite is_read_only_spec in Hro by (done || eauto).
        congruence. }
      split; [|done]. apply state_ok_set_data; [done| |done].
      by apply (data_ok_insert_symbols _ _ g).
  - destruct Hs as (Hd & _).
    destruct (go_to_layer_axiom_spec layer axiom s Hd) as (d' & _ & Hrun1 & Hext & Hok).
    rewrite Hrun in Hrun1. simplify_eq. split; [done|].
    by eapply extends_below_frozen_kept.
  - destruct Hs as (Hd & Hin & Hro). unfold prefill in Hrun.
    destruct (prefill_layers_spec R mode (fills AxA) (fills AxB) (fills AxC)
                (fills AxD) (fills AxE) (fills AxF) (fills AxH) (fills AxI)
                (fills AxJ) (data s) (or_intror HR) Hd)
      as (d' & Hrun1 & Hd' & Hkept & _).
    rewrite Hrun1 in Hrun. run in Hrun. simplify_eq. split; [|done].
    apply state_ok_set_data; [by split_and!|done..].
Qed.

Lemma reachable_state_ok (R : Random) (s : State) :
  RandomSpec R → reachable R s → state_ok s.
Proof.
  intros HR Hreach. induction Hreach as [s Hrun|mode fills s0 s Hpre Hrun|s c s' _ IH Hstep].
  - destruct (go_to_layer_axiom_spec 0 AxA initial_state data_ok_empty)
      as (d' & _ & Hrun1 & _ & Hok).
    rewrite Hrun in Hrun1. by simplify_eq.
  - unfold prefill in Hpre.
    destruct (prefill_layers_spec R mode (fills AxA) (fills AxB) (fills AxC)
                (fills AxD) (fills AxE) (fills AxF) (fills AxH) (fills AxI)
                (fills AxJ) (data initial_state) (or_intror HR) data_ok_empty)
      as (d0 & Hrun0 & Hd0 & _).
    rewrite Hrun0 in Hpre. run in Hpre. simplify_eq.
    destruct (go_to_layer_axiom_spec 0 AxA (set_data initial_state d0) Hd0)
      as (d' & _ & Hrun1 & _ & Hok).
    rewrite Hrun in Hrun1. by simplify_eq.
  - by destruct (step_state_ok R s c s' HR IH Hstep).
Qed.

Lemma state_start_reachable : reachable first_random state_start.
Proof. by apply reachable_run. Qed.

Lemma state_layer1_reachable : reachable first_random state_layer1.
Proof.
  apply (reachable_step _ state_start (SwitchContext 1 AxA));
    [apply state_start_reachable|]. by apply step_switch.
Qed.

Lemma state_rewritten_reachable : reachable first_random state_rewritten.
Proof.
  apply (reachable_step _ state_back0 (WriteSymbol "x")).
  - apply (reachable_step _ state_layer1 (SwitchContext 0 AxA));
      [apply state_layer1_reachable|]. by apply step_switch.
  - by apply step_write.
Qed.

Lemma state_on_frozen_in_grid : cursor_in_grid state_on_frozen.
Proof.
  destruct (state_ok_cursor_in_grid state_layer1) as (Hd & Hgrid & _).
  { apply (reachable_state_ok first_random);
      [apply first_random_spec|apply state_layer1_reachable]. }
  by split_and!.
Qed.

(** The ring of layer 1 after the key [x] in the corner. *)
Lemma get_outer_ring_cells_spec_witness :
  (data_ok (<[(O, AxA) := ([[CENTER_CHAR]], [[false]])]> ∅) ∧
   (<[(O, AxA) := ([[CENTER_CHAR]], [[false]])]> ∅ : Data) !! (O, AxA)
   = Some ([[CENTER_CHAR]], [[false]]) ∧
   ∃ ch, mat_get [[CENTER_CHAR]] 0 0 = Ret ch ∧
         get_outer_ring_cells 0 AxA
           (<[(O, AxA) := ([[CENTER_CHAR]], [[false]])]> ∅)
         = Ret [(0, 0, ch)]) ∧
  (∃ grid ro,
     data_ok (data state_marked) ∧
     data state_marked !! (1%nat, AxA) = Some (grid, ro) ∧
     get_outer_ring_cells 1 AxA (data state_marked)
     = Ret [(-1, -1, "x"%string)] ∧
     length (ring_positions 1) = 8%nat).
Proof.
  split.
  - assert (Hd : data_ok (<[(O, AxA) := ([[CENTER_CHAR]], [[false]])]> ∅)).
    { apply data_ok_insert; [apply data_ok_empty|apply grid_ok_O|done]. }
    split_and!; [done|reflexivity|].
    apply (get_outer_ring_cells_spec 0 AxA _ [[CENTER_CHAR]] [[false]] Hd);
      reflexivity.
  - assert (Hd : data_ok (data state_marked)).
    { apply (reachable_state_ok first_random); [apply first_random_spec|].
      apply (reachable_step _ state_layer1 (WriteSymbol "x"));
        [apply state_layer1_reachable|by apply step_write]. }
    assert (Hl : ∃ c, data state_marked !! (1%nat, AxA) = Some c)
      by (eexists; vm_compute; reflexivity).
    destruct Hl as [[grid ro] Hl].
    destruct (get_outer_ring_cells_spec 1 AxA _ grid ro Hd Hl)
      as (_ & Hring & _).
    destruct (Hring ltac:(lia)) as (_ & Hlen & _).
    exists grid, ro. split; [exact Hd|]. split; [exact Hl|].
    split; [vm_compute; reflexivity|exact Hlen].
Defined.

(** ** The claims about the cursor *)

(** C3.  [move_cursor] in a unit direction, in any state of a session and
    with any budget of at least [2 * current_layer + 1] iterations.  It
    returns a state with the cache, the layer and the axiom of the old
    one.  Either the cursor of the new state is [k >= 1] steps ahead of
    the old cursor, on a cell inside [[-layer, layer]^2] whose entry in
    the flag matrix of the current grid is false, and every cell strictly
    between is inside with a true entry (so the target is the first
    unfrozen cell); or no cell ahead is both inside and unfrozen, and the
    state returned is the old state, cursor included. *)
Theorem move_cursor_walks (R : Random) (s : State) (dx dy : Z) (fuel : nat) :
  RandomSpec R → reachable R s → unit_direction dx dy →
  (2 * current_layer s + 1 ≤ fuel)%nat →
  ∃ g ro s',
    data s !! (current_layer s, current_axiom s) = Some (g, ro) ∧
    move_cursor fuel dx dy s = Ret s' ∧
    data s' = data s ∧ current_layer s' = current_layer s ∧
    current_axiom s' = current_axiom s ∧
    ((∃ k, 1 ≤ k ∧
        cursor_x s' = cursor_x s + k * dx ∧
        cursor_y s' = cursor_y s + k * dy ∧
        (- current_layer s ≤ cursor_x s' ≤ current_layer s ∧
         - current_layer s ≤ cursor_y s' ≤ current_layer s) ∧
        ro !! Z.to_nat (cursor_y s' + current_layer s)
          ≫= (.!! Z.to_nat (cursor_x s' + current_layer s)) = Some false ∧
        ∀ j, 1 ≤ j < k →
          (- current_layer s ≤ cursor_x s + j * dx ≤ current_layer s ∧
           - current_layer s ≤ cursor_y s + j * dy ≤ current_layer s) ∧
          ro !! Z.to_nat (cursor_y s + j * dy + current_layer s)
            ≫= (.!! Z.to_nat (cursor_x s + j * dx + current_layer s))
          = Some true)
     ∨ (s' = s ∧
        ∀ k, 1 ≤ k →
          ¬ ((- current_layer s ≤ cursor_x s + k * dx ≤ current_layer s ∧
              - current_layer s ≤ cursor_y s + k * dy ≤ current_layer s) ∧
             ro !! Z.to_nat (cursor_y s + k * dy + current_layer s)
               ≫= (.!! Z.to_nat (cursor_x s + k * dx + current_layer s))
             = Some false))).
Proof.
  intros HR Hreach Hdir Hfuel.
  pose proof (state_ok_cursor_in_grid s (reachable_state_ok R s HR Hreach))
    as Hcur.
  pose proof Hcur as (Hd & [[g ro] Hc] & Hin).
  assert (Hflag : ∀ x y b, is_within_bounds s x y = true →
            (is_read_only s x y = Ret b
             ↔ ro !! Z.to_nat (y + current_layer s)
                 ≫= (.!! Z.to_nat (x + current_layer s)) = Some b)).
  { intros x y b Hb%is_within_bounds_true.
    apply (is_read_only_flag s g ro); [done|lia..]. }
  exists g, ro.
  destruct (move_cursor_spec s dx dy fuel Hcur Hdir Hfuel)
    as [(k & s' & Hrun & Hk & -> & Hkin & Hkro & Hbetween)|(Hrun & Hblocked)].
  - eexists. split; [done|]. split; [exact Hrun|].
    cbn [data current_layer current_axiom cursor_x cursor_y set_cursor].
    do 3 (split; [done|]). left. exists k. do 3 (split; [done|]).
    split; [by apply is_within_bounds_true|].
    split; [by apply Hflag|].
    intros j Hj. destruct (Hbetween j Hj) as [Hjin Hjro].
    split; [by apply is_within_bounds_true|by apply Hflag].
  - exists s. split; [done|]. split; [exact Hrun|]. do 3 (split; [done|]).
    right. split; [done|]. intros k Hk [Hb Hf]. apply (Hblocked k Hk).
    apply is_within_bounds_true in Hb. split; [done|]. by apply Hflag.
Qed.

Lemma move_cursor_walks_witness :
  RandomSpec first_random ∧ reachable first_random state_layer1 ∧
  unit_direction 1 0 ∧ (2 * current_layer state_layer1 + 1 ≤ 3)%nat ∧
  ∃ s', move_cursor 3 1 0 state_layer1 = Ret s' ∧
        cursor_x state_layer1 = -1 ∧ cursor_y state_layer1 = -1 ∧
        cursor_x s' = 0 ∧ cursor_y s' = -1 ∧ data s' = data state_layer1.
Proof.
  assert (Hdir : unit_direction 1 0) by (unfold unit_direction; set_solver).
  assert (Hfuel : (2 * current_layer state_layer1 + 1 ≤ 3)%nat) by (vm_compute; lia).
  split_and!; [apply first_random_spec|apply state_layer1_reachable|done..|].
  destruct (move_cursor_walks first_random state_layer1 1 0 3 first_random_spec
              state_layer1_reachable Hdir Hfuel)
    as (g & ro & s' & _ & Hrun & Hdata & _).
  assert (Hland : ∃ s'', move_cursor 3 1 0 state_layer1 = Ret s'' ∧
                         cursor_x s'' = 0 ∧ cursor_y s'' = -1).
  { eexists. split; [vm_compute; reflexivity|]. split; reflexivity. }
  destruct Hland as (s'' & Hrun' & Hx & Hy).
  rewrite Hrun in Hrun'. injection Hrun' as <-.
  exists s'. split_and!; done.
Defined.

(** C10.  The loop of [jump_across] terminates: in any state of a session
    and for any unit direction, [2 * current_layer + 1] iterations are
    enough for it to return, a larger budget returns the same, and what it
    returns is either a committed move to an inside, unfrozen cell or a
    failure that leaves the state as it was. *)
Theorem jump_across_terminates (R : Random) (s : State) (dx dy : Z) :
  RandomSpec R → reachable R s → unit_direction dx dy →
  ∃ moved s',
    jump_across (2 * current_layer s + 1) dx dy s = Ret (moved, s') ∧
    (∀ fuel, (2 * current_layer s + 1 ≤ fuel)%nat →
       jump_across fuel dx dy s = Ret (moved, s')) ∧
    if moved : bool
    then is_within_bounds s (cursor_x s') (cursor_y s') = true ∧
         is_read_only s (cursor_x s') (cursor_y s') = Ret false
    else s' = s.
Proof.
  intros HR Hreach Hdir.
  assert (Hcur : cursor_in_grid s)
    by by apply state_ok_cursor_in_grid, (reachable_state_ok R).
  destruct (jump_across_spec s dx dy (2 * current_layer s + 1) Hcur Hdir)
    as [(k & s' & Hrun & Hmoved)|[Hrun _]]; [lia|..].
  - exists true, s'. split; [done|split].
    + intros fuel Hfuel. unfold jump_across in *.
      by apply (jump_across_loop_fuel s dx dy (2 * current_layer s + 1)).
    + by destruct Hmoved as (_ & -> & Hin & Hro & _).
  - exists false, s. split; [done|split; [|done]].
    intros fuel Hfuel. unfold jump_across in *.
    by apply (jump_across_loop_fuel s dx dy (2 * current_layer s + 1)).
Qed.

Lemma jump_across_terminates_witness :
  RandomSpec first_random ∧ reachable first_random state_layer1 ∧
  unit_direction 0 1 ∧
  ∃ moved s',
    jump_across (2 * current_layer state_layer1 + 1) 0 1 state_layer1
    = Ret (moved, s') ∧
    (∀ fuel, (2 * current_layer state_layer1 + 1 ≤ fuel)%nat →
       jump_across fuel 0 1 state_layer1 = Ret (moved, s')) ∧
    if moved : bool
    then is_within_bounds state_layer1 (cursor_x s') (cursor_y s') = true ∧
         is_read_only state_layer1 (cursor_x s') (cursor_y s') = Ret false
    else s' = state_layer1.
Proof.
  assert (Hdir : unit_direction 0 1) by (unfold unit_direction; set_solver).
  split_and!; [apply first_random_spec|apply state_layer1_reachable|done|].
  exact (jump_across_terminates first_random state_layer1 0 1 first_random_spec
           state_layer1_reachable Hdir).
Defined.

(** C7.  The cursor invariant: in every state of a session the cursor is
    inside the current grid on a cell whose frozen flag is false.  In
    particular [go_to_layer_axiom] returns from any such state with the
    cursor on the corner [(-layer, -layer)], which is unfrozen although
    no check is made, and every command, [move_cursor] and [insert_char]
    included, leads to a state with the cursor on an unfrozen cell. *)
Theorem cursor_on_unfrozen_cell (R : Random) (s : State) :
  RandomSpec R → reachable R s →
  is_within_bounds s (cursor_x s) (cursor_y s) = true ∧
  is_read_only s (cursor_x s) (cursor_y s) = Ret false ∧
  (∀ layer axiom,
     ∃ s', go_to_layer_axiom layer axiom s = Ret s' ∧
           cursor_x s' = - layer ∧ cursor_y s' = - layer ∧
           is_read_only s' (cursor_x s') (cursor_y s') = Ret false) ∧
  (∀ c s', step R s c s' →
     is_within_bounds s' (cursor_x s') (cursor_y s') = true ∧
     is_read_only s' (cursor_x s') (cursor_y s') = Ret false).
Proof.
  intros HR Hreach. pose proof (reachable_state_ok R s HR Hreach) as Hs.
  pose proof Hs as (Hd & Hin & Hro). split_and!; [done..| |].
  - intros layer axiom.
    destruct (go_to_layer_axiom_spec layer axiom s Hd) as (d' & _ & Hrun & _ & Hok).
    eexists. split; [done|]. by destruct Hok as (_ & _ & ?).
  - intros c s' Hstep.
    by destruct (step_state_ok R s c s' HR Hs Hstep) as [(_ & ? & ?) _].
Qed.

Lemma cursor_on_unfrozen_cell_witness :
  RandomSpec first_random ∧ reachable first_random state_rewritten ∧
  is_within_bounds state_rewritten (cursor_x state_rewritten)
    (cursor_y state_rewritten) = true ∧
  is_read_only state_rewritten (cursor_x state_rewritten)
    (cursor_y state_rewritten) = Ret false.
Proof.
  split_and!; [apply first_random_spec|apply state_rewritten_reachable|..];
    apply (cursor_on_unfrozen_cell first_random state_rewritten first_random_spec
             state_rewritten_reachable).
Defined.

(** C4.  [insert_char] with the cursor on any cell of the current grid,
    frozen or not: it always returns, and the state it returns has the
    layer, the axiom and the cursor of the old one, the flag matrix of
    the current grid and every other grid of the cache as they were.
    Read back from the cache of the new state, the cursor cell of the
    current grid holds [ch] when its flag is false and its old symbol
    when its flag is true, and every other cell holds its old symbol.  On
    a frozen cell the whole state is returned as it was; on an unfrozen
    cell the read [grid[gy][gx]] of the cursor cell in the new state
    returns [ch]. *)
Theorem insert_char_writes (ch : string) (s : State) :
  cursor_in_grid s →
  let gy := Z.to_nat (cursor_y s + current_layer s) in
  let gx := Z.to_nat (cursor_x s + current_layer s) in
  ∃ g ro (frozen : bool) s' g',
    data s !! (current_layer s, current_axiom s) = Some (g, ro) ∧
    ro !! gy ≫= (.!! gx) = Some frozen ∧
    insert_char ch s = Ret s' ∧
    current_layer s' = current_layer s ∧ current_axiom s' = current_axiom s ∧
    cursor_x s' = cursor_x s ∧ cursor_y s' = cursor_y s ∧
    data s' !! (current_layer s, current_axiom s) = Some (g', ro) ∧
    (∀ k, k ≠ (current_layer s, current_axiom s) → data s' !! k = data s !! k) ∧
    g' !! gy ≫= (.!! gx) = (if frozen then g !! gy ≫= (.!! gx) else Some ch) ∧
    (∀ i j, (i, j) ≠ (gy, gx) → g' !! i ≫= (.!! j) = g !! i ≫= (.!! j)) ∧
    (frozen = true → s' = s) ∧
    (frozen = false →
     mat_get g' (cursor_y s' + current_layer s') (cursor_x s' + current_layer s')
     = Ret ch).
Proof.
  intros Hcur gy gx. pose proof Hcur as (Hd & _ & Hin).
  apply is_within_bounds_true in Hin.
  destruct (insert_char_spec ch s Hcur)
    as (g & ro & Hc & [[Hro Hrun]|(Hro & g' & Hrun & Hdim & Hget & Hother)]);
    apply (is_read_only_flag s g ro) in Hro; try (done || lia).
  - exists g, ro, true, s, g. do 12 (split; [done|]). intros [=].
  - exists g, ro, false; eexists _, g'. split; [done|]. split; [done|].
    split; [exact Hrun|].
    cbn [data current_layer current_axiom cursor_x cursor_y set_data].
    do 4 (split; [done|]).
    split; [by rewrite lookup_insert_eq|].
    split; [by intros k Hk; rewrite lookup_insert_ne|].
    split; [by apply mat_get_Ret_lookup in Hget; [|lia..]|].
    split; [|done].
    intros i j Hne. apply mat_get_eq_lookup, Hother; [lia..|].
    intros [= Hi Hj]. apply Hne. unfold gy, gx. rewrite <-Hi, <-Hj.
    by rewrite !Nat2Z.id.
Qed.

Lemma insert_char_writes_witness :
  (cursor_in_grid state_layer1 ∧
   ∃ s' g' ro,
     insert_char "x" state_layer1 = Ret s' ∧
     data s' !! (current_layer state_layer1, current_axiom state_layer1)
     = Some (g', ro) ∧
     g' !! Z.to_nat (cursor_y state_layer1 + current_layer state_layer1)
       ≫= (.!! Z.to_nat (cursor_x state_layer1 + current_layer state_layer1))
     = Some "x"%string) ∧
  (cursor_in_grid state_on_frozen ∧
   insert_char "#" state_on_frozen = Ret state_on_frozen).
Proof.
  assert (Hcur : cursor_in_grid state_layer1).
  { apply state_ok_cursor_in_grid, (reachable_state_ok first_random);
      [apply first_random_spec|apply state_layer1_reachable]. }
  split; (split; [done || apply state_on_frozen_in_grid|]).
  - destruct (insert_char_writes "x" state_layer1 Hcur)
      as (g & ro & frozen & s' & g' & Hc & Hflag & Hrun & _ & _ & _ & _
          & Hc' & _ & Hcell & _).
    exists s', g', ro. split; [done|]. split; [done|].
    rewrite Hcell. vm_compute in Hc. injection Hc as <- <-.
    vm_compute in Hflag. by injection Hflag as <-.
  - destruct (insert_char_writes "#" state_on_frozen state_on_frozen_in_grid)
      as (g & ro & frozen & s' & g' & Hc & Hflag & Hrun & _ & _ & _ & _
          & _ & _ & _ & _ & Hsame & _).
    rewrite Hrun. f_equal. apply Hsame.
    vm_compute in Hc. injection Hc as <- <-.
    vm_compute in Hflag. by injection Hflag as <-.
Defined.

(** ** The promotion property *)

Lemma frozen_at_inner_cell (p : nat) (py px : Z) :
  0 ≤ py < layer_dimension p → 0 ≤ px < layer_dimension p →
  frozen_at (S p) (py + 1) (px + 1) = true ∧
  0 ≤ py + 1 < layer_dimension (S p) ∧ 0 ≤ px + 1 < layer_dimension (S p).
Proof.
  intros Hy Hx. split; [apply frozen_at_inner; lia|].
  unfold layer_dimension in *. lia.
Qed.

(** C2, as the code has it.  In every state of a session and for every
    cached grid of a positive layer: the grid of the layer below is cached
    too and the centred sub-square is entirely frozen; when a missing grid
    is built by [go_to_layer_axiom], its sub-square holds the symbols the
    grid below holds at that moment, origin marker blanked; and no command
    ever changes the flags or the symbols of the sub-square afterwards.
    The sub-square is a snapshot: nothing is said of later writes to the
    grid below. *)
Theorem promotion_snapshot (R : Random) (s : State) :
  RandomSpec R → reachable R s →
  (∀ p axiom g ro, data s !! (S p, axiom) = Some (g, ro) →
     is_Some (data s !! (p, axiom)) ∧
     ∀ py px, 0 ≤ py < layer_dimension p → 0 ≤ px < layer_dimension p →
       mat_get ro (py + 1) (px + 1) = Ret true) ∧
  (∀ p axiom, data s !! (S p, axiom) = None →
     ∃ s' g ro prev_grid prev_ro,
       go_to_layer_axiom (S p) axiom s = Ret s' ∧
       data s' !! (S p, axiom) = Some (g, ro) ∧
       data s' !! (p, axiom) = Some (prev_grid, prev_ro) ∧
       ∀ py px, 0 ≤ py < layer_dimension p → 0 ≤ px < layer_dimension p →
         ∃ ch, mat_get prev_grid py px = Ret ch ∧
               mat_get g (py + 1) (px + 1) = Ret (promoted ch)) ∧
  (∀ c s', step R s c s' →
     ∀ p axiom g ro, data s !! (S p, axiom) = Some (g, ro) →
       ∃ g', data s' !! (S p, axiom) = Some (g', ro) ∧
         ∀ py px, 0 ≤ py < layer_dimension p → 0 ≤ px < layer_dimension p →
           mat_get g' (py + 1) (px + 1) = mat_get g (py + 1) (px + 1)).
Proof.
  intros HR Hreach. pose proof (reachable_state_ok R s HR Hreach) as Hs.
  pose proof Hs as (Hd & _). split_and!.
  - intros p axiom g ro Hc. destruct (Hd _ _ _ Hc) as [(_ & _ & Hflags) Hprev].
    split; [by apply Hprev|]. intros py px Hy Hx. simpl in Hflags.
    destruct (frozen_at_inner_cell p py px Hy Hx) as (Hf & Hy' & Hx').
    by rewrite Hflags, Hf.
  - intros p axiom Hnone.
    destruct (ensure_layer_axiom_spec p axiom (data s) Hd)
      as (d1 & Hens & Hd1 & Hsome & Hsub & _).
    destruct (create_layer_axiom_S_spec p axiom (data s) d1 Hens Hd1 Hsome)
      as (pg & pro & g & ro & Hprev & Hrun & _ & Hin & _).
    eexists _, g, ro, pg, pro. split_and!.
    + unfold go_to_layer_axiom, ensure_layer_axiom.
      rewrite decide_False by (rewrite Hnone; by intros [? ?]).
      rewrite Hrun. done.
    + cbn [data]. by rewrite lookup_insert_eq.
    + cbn [data]. by rewrite lookup_insert_ne by (intros [=]; lia).
    + intros py px Hy Hx. destruct (Hin py px Hy Hx) as (ch & ? & ? & _). eauto.
  - intros c s' Hstep p axiom g ro Hc.
    destruct (step_state_ok R s c s' HR Hs Hstep) as [_ Hkept].
    destruct (Hkept _ _ _ _ Hc) as (g' & Hc' & Hsame).
    exists g'. split; [done|]. intros py px Hy Hx.
    destruct (frozen_at_inner_cell p py px Hy Hx) as (Hf & Hy' & Hx').
    by apply Hsame.
Qed.

Lemma promotion_snapshot_witness :
  RandomSpec first_random ∧ reachable first_random state_rewritten ∧
  ∀ p axiom g ro, data state_rewritten !! (S p, axiom) = Some (g, ro) →
    is_Some (data state_rewritten !! (p, axiom)) ∧
    ∀ py px, 0 ≤ py < layer_dimension p → 0 ≤ px < layer_dimension p →
      mat_get ro (py + 1) (px + 1) = Ret true.
Proof.
  split_and!; [apply first_random_spec|apply state_rewritten_reachable|].
  apply (promotion_snapshot first_random state_rewritten first_random_spec
           state_rewritten_reachable).
Defined.

(** C2 as stated fails in a session of three keys: after [+], [-] and
    [x] the origin of layer 0 holds ["x"] while the centre of layer 1
    still holds the blank copied when layer 1 was built. *)
Lemma promotion_not_preserved :
  reachable first_random state_rewritten ∧ ¬ promotion_holds state_rewritten.
Proof.
  split; [apply state_rewritten_reachable|]. intros Hprom.
  destruct (data state_rewritten !! (1%nat, AxA)) as [[g ro]|] eqn:Hc;
    [|by vm_compute in Hc].
  destruct (Hprom O AxA g ro Hc) as (pg & pro & Hprev & Hcells).
  destruct (Hcells 0 0) as (_ & ch & Hch & Hcopy);
    [unfold layer_dimension; lia..|].
  vm_compute in Hc, Hprev. simplify_eq. vm_compute in Hch, Hcopy.
  by simplify_eq.
Qed.

(** ** Prefill in full mode *)




(** ** The traces of [render_3d] *)

Section render_traces.
Context {coord angle : Type}.
Context (atan2 : Z → Z → angle) (angle_le : angle → angle → bool).
Context (circle_point square_point :
           AxiomTag → nat → nat → nat → coord * coord * coord).

Lemma insert_by_angle_length (c : Z * Z * string) (l : list (Z * Z * string)) :
  length (insert_by_angle atan2 angle_le c l) = S (length l).
Proof.
  induction l as [|d l IH]; [done|]. simpl.
  destruct (angle_le _ _); simpl; by rewrite ?IH.
Qed.

Lemma sort_by_angle_length (l : list (Z * Z * string)) :
  length (sort_by_angle atan2 angle_le l) = length l.
Proof.
  induction l as [|c l IH]; [done|]. unfold sort_by_angle in *. simpl.
  by rewrite insert_by_angle_length, IH.
Qed.

(** The loop appends one entry to each of the four lists per cell. *)
Lemma plot_loop_lengths (pt : nat → coord * coord * coord) (h : nat → nat)
    (l : list (Z * Z * string)) (t : Trace) :
  let t' :=
    foldl (λ t '(i, (ox, oy, ch)),
             let '(x, y, z) := pt i in
             {| x_vals := x_vals t ++ [x]; y_vals := y_vals t ++ [y];
                z_vals := z_vals t ++ [z]; text_vals := text_vals t ++ [ch] |})
          t (imap (λ i c, (h i, c)) l) in
  length (x_vals t') = (length (x_vals t) + length l)%nat ∧
  length (y_vals t') = (length (y_vals t) + length l)%nat ∧
  length (z_vals t') = (length (z_vals t) + length l)%nat ∧
  length (text_vals t') = (length (text_vals t) + length l)%nat.
Proof.
  revert h t. induction l as [|[[ox oy] ch] l IH]; intros h t; simpl.
  { by rewrite !Nat.add_0_r. }
  destruct (pt (h O)) as [[x y] z].
  destruct (IH (h ∘ S) {| x_vals := x_vals t ++ [x]; y_vals := y_vals t ++ [y];
                          z_vals := z_vals t ++ [z];
                          text_vals := text_vals t ++ [ch] |})
    as (Hx & Hy & Hz & Ht).
  split_and!; (etrans; [first [apply Hx|apply Hy|apply Hz|apply Ht]|]);
    cbn [x_vals y_vals z_vals text_vals]; rewrite length_app; simpl; lia.
Qed.

Lemma plot_cells_lengths (pt : nat → nat → coord * coord * coord)
    (l : list (Z * Z * string)) :
  length (x_vals (plot_cells pt l)) = length l ∧
  length (y_vals (plot_cells pt l)) = length l ∧
  length (z_vals (plot_cells pt l)) = length l ∧
  length (text_vals (plot_cells pt l)) = length l.
Proof.
  apply (plot_loop_lengths (λ i, pt i (length l)) id l
           {| x_vals := []; y_vals := []; z_vals := []; text_vals := [] |}).
Qed.

(** C6, on the code.  For a ring of two cells or more, the circular
    renderer of [layer_axiom_game.py] closes the three coordinate lists
    with their first entry but not the list of symbols, which ends one
    entry short of the points; the square renderer of
    [axiom_square_beta.py] closes all four. *)
Theorem render_3d_trace_closing (layer : nat) (axiom : AxiomTag)
    (c1 c2 : Z * Z * string) (rest : list (Z * Z * string)) :
  let K := S (S (length rest)) in
  (∃ t, render_3d_trace atan2 angle_le circle_point layer axiom (c1 :: c2 :: rest)
        = Ret (Some t) ∧
        length (x_vals t) = S K ∧ length (y_vals t) = S K ∧
        length (z_vals t) = S K ∧ length (text_vals t) = K) ∧
  (∃ t, render_3d_trace_square atan2 angle_le square_point layer axiom
          (c1 :: c2 :: rest) = Ret (Some t) ∧
        length (x_vals t) = S K ∧ length (y_vals t) = S K ∧
        length (z_vals t) = S K ∧ length (text_vals t) = S K).
Proof.
  intros K.
  assert (Hsorted : length (sort_by_angle atan2 angle_le (c1 :: c2 :: rest)) = K)
    by by rewrite sort_by_angle_length.
  split.
  - unfold render_3d_trace. rewrite decide_False by done.
    set (ring := sort_by_angle _ _ _) in *.
    destruct (plot_cells_lengths (circle_point axiom layer) ring)
      as (Hx & Hy & Hz & Ht).
    rewrite Hsorted in Hx, Hy, Hz, Ht.
    rewrite decide_True by (rewrite Hx; unfold K; lia).
    destruct (py_get_total (x_vals (plot_cells (circle_point axiom layer) ring)) 0)
      as [x0 ->]; [rewrite Hx; unfold K; lia|].
    destruct (py_get_total (y_vals (plot_cells (circle_point axiom layer) ring)) 0)
      as [y0 ->]; [rewrite Hy; unfold K; lia|].
    destruct (py_get_total (z_vals (plot_cells (circle_point axiom layer) ring)) 0)
      as [z0 ->]; [rewrite Hz; unfold K; lia|].
    run. eexists. split; [done|]. cbn [x_vals y_vals z_vals text_vals].
    rewrite !length_app, Hx, Hy, Hz, Ht. simpl. split_and!; lia.
  - unfold render_3d_trace_square. rewrite decide_False by done.
    set (ring := sort_by_angle _ _ _) in *.
    destruct (plot_cells_lengths (square_point axiom layer) ring)
      as (Hx & Hy & Hz & Ht).
    rewrite Hsorted in Hx, Hy, Hz, Ht.
    rewrite decide_True by (rewrite Hx; unfold K; lia).
    destruct (py_get_total (x_vals (plot_cells (square_point axiom layer) ring)) 0)
      as [x0 ->]; [rewrite Hx; unfold K; lia|].
    destruct (py_get_total (y_vals (plot_cells (square_point axiom layer) ring)) 0)
      as [y0 ->]; [rewrite Hy; unfold K; lia|].
    destruct (py_get_total (z_vals (plot_cells (square_point axiom layer) ring)) 0)
      as [z0 ->]; [rewrite Hz; unfold K; lia|].
    destruct (py_get_total (text_vals (plot_cells (square_point axiom layer) ring)) 0)
      as [t0 ->]; [rewrite Ht; unfold K; lia|].
    run. eexists. split; [done|]. cbn [x_vals y_vals z_vals text_vals].
    rewrite !length_app, Hx, Hy, Hz, Ht. simpl. split_and!; lia.
Qed.

(** The two edge cases, where both renderers agree with the claim: no
    trace for an empty ring, one point and one symbol for a single
    cell. *)
Lemma render_3d_trace_small (layer : nat) (axiom : AxiomTag) (c : Z * Z * string) :
  render_3d_trace atan2 angle_le circle_point layer axiom [] = Ret None ∧
  render_3d_trace_square atan2 angle_le square_point layer axiom [] = Ret None ∧
  (∃ t, render_3d_trace atan2 angle_le circle_point layer axiom [c] = Ret (Some t) ∧
        length (x_vals t) = 1%nat ∧ length (y_vals t) = 1%nat ∧
        length (z_vals t) = 1%nat ∧ text_vals t = [c.2]) ∧
  (∃ t, render_3d_trace_square atan2 angle_le square_point layer axiom [c]
        = Ret (Some t) ∧
        length (x_vals t) = 1%nat ∧ length (y_vals t) = 1%nat ∧
        length (z_vals t) = 1%nat ∧ text_vals t = [c.2]).
Proof.
  destruct c as [[ox oy] ch]. split_and!; [done..| |].
  - unfold render_3d_trace, plot_cells. simpl.
    destruct (circle_point axiom layer 0 1) as [[x y] z]. simpl.
    eexists. by split_and!.
  - unfold render_3d_trace_square, plot_cells. simpl.
    destruct (square_point axiom layer 0 1) as [[x y] z]. simpl.
    eexists. by split_and!.
Qed.
End render_traces.

(** * Further properties of the procedures *)

(** ** The cache *)

(** A well-formed cache holds every layer below a cached one. *)
Lemma data_ok_below (d : Data) (layer l : nat) (axiom : AxiomTag) :
  data_ok d → is_Some (d !! (layer, axiom)) → (l ≤ layer)%nat →
  is_Some (d !! (l, axiom)).
Proof.
  intros Hd. induction layer as [|p IH]; intros Hs Hl.
  - by replace l with O by lia.
  - destruct (decide (l = S p)) as [->|Hne]; [done|].
    apply IH; [|lia]. destruct Hs as [c Hc].
    by apply (proj2 (Hd _ _ _ Hc) p).
Qed.

(** X1.  [ensure_layer_axiom] adds the whole chain of missing layers
    [0 .. layer] of the one axiom, leaves every cached entry as it is and
    touches no other key. *)
Theorem ensure_layer_axiom_keys (layer : nat) (axiom : AxiomTag) (d : Data) :
  data_ok d →
  ∃ d', ensure_layer_axiom layer axiom d = Ret d' ∧
    (∀ k c, d !! k = Some c → d' !! k = Some c) ∧
    (∀ l a, is_Some (d' !! (l, a)) ↔
            is_Some (d !! (l, a)) ∨ (a = axiom ∧ (l ≤ layer)%nat)).
Proof.
  intros Hd.
  destruct (ensure_layer_axiom_spec layer axiom d Hd)
    as (d' & He & Hd' & Hs & Hkeep & Hnew & _).
  exists d'. split_and!; [done|done|].
  intros l a. split.
  - intros Hl. destruct (d !! (l, a)) as [c|] eqn:Hc; [left; eauto|].
    right. by apply Hnew.
  - intros [[c Hc]|[-> Hl]].
    + exists c. by apply Hkeep.
    + by apply (data_ok_below d' layer).
Qed.

Lemma ensure_layer_axiom_keys_witness :
  data_ok ∅ ∧
  ∃ d', ensure_layer_axiom 2 AxB ∅ = Ret d' ∧
    (∀ k c, (∅ : Data) !! k = Some c → d' !! k = Some c) ∧
    (∀ l a, is_Some (d' !! (l, a)) ↔
            is_Some ((∅ : Data) !! (l, a)) ∨ (a = AxB ∧ (l ≤ 2)%nat)).
Proof.
  split; [apply data_ok_empty|].
  apply (ensure_layer_axiom_keys 2 AxB ∅), data_ok_empty.
Defined.

(** ** The ring of a grid *)

Lemma get_outer_ring_cells_pos (layer : nat) (axiom : AxiomTag) (d : Data)
    (grid : list (list string)) (ro : list (list bool)) :
  data_ok d → d !! (layer, axiom) = Some (grid, ro) → (0 < layer)%nat →
  get_outer_ring_cells layer axiom d
  = Ret (omap (ring_cell layer grid) (ring_positions layer)).
Proof.
  intros Hd Hc Hpos. destruct (Hd _ _ _ Hc) as [(Hg & _ & _) _]. simpl in Hg.
  unfold get_outer_ring_cells, dict_get. rewrite Hc. run.
  rewrite decide_False by lia.
  rewrite (for_each_cond_nested _ _ (λ x y, Z.abs x `max` Z.abs y = layer)
             (λ x y ring,
                ch ← mat_get grid (y + layer) (x + layer);
                if ring_filter_out ch then Ret ring
                else Ret (ring ++ [(x, y, ch)]))).
  fold (ring_positions layer).
  rewrite (collect_ring_cells layer grid (ring_positions layer) []); [done|].
  intros [x y] Hp%ring_positions_elem. unfold chebyshev in Hp.
  apply (mat_get_total _ grid _ _ Hg); unfold layer_dimension; simpl; lia.
Qed.

Lemma ring_cells_elem (layer : nat) (grid : list (list string))
    (x y : Z) (ch : string) :
  (x, y, ch) ∈ omap (ring_cell layer grid) (ring_positions layer) ↔
  chebyshev x y = layer ∧ mat_get grid (y + layer) (x + layer) = Ret ch ∧
  ring_filter_out ch = false.
Proof.
  rewrite list_elem_of_omap. split.
  - intros ([x' y'] & Hp%ring_positions_elem & Hcell).
    unfold ring_cell in Hcell. simpl in Hcell.
    destruct (mat_get grid _ _) as [ch'| |] eqn:Hch; [|done..].
    destruct (ring_filter_out ch') eqn:Hf; [done|]. by simplify_eq.
  - intros (Hp & Hch & Hf). exists (x, y).
    split; [by apply ring_positions_elem|].
    unfold ring_cell. simpl. by rewrite Hch, Hf.
Qed.

(** The flag of a cell inside the bounds, by its distance to the centre. *)
Lemma is_read_only_cheb (s : State) (x y : Z) :
  data_ok (data s) →
  is_Some (data s !! (current_layer s, current_axiom s)) →
  is_within_bounds s x y = true →
  is_read_only s x y = Ret (bool_decide (chebyshev x y < current_layer s)).
Proof.
  intros Hd Hs Hin. rewrite is_read_only_spec by done. unfold frozen_at.
  by replace (x + current_layer s - current_layer s) with x by lia;
    replace (y + current_layer s - current_layer s) with y by lia.
Qed.

(** X2.  A layer that [go_to_layer_axiom] has to create comes with an empty
    ring: [get_outer_ring_cells] returns no cell for it, so [render_3d]
    skips the grid until something is written on its ring. *)
Theorem fresh_layer_ring_empty (layer : nat) (axiom : AxiomTag) (s : State) :
  data_ok (data s) → (0 < layer)%nat → data s !! (layer, axiom) = None →
  ∃ s', go_to_layer_axiom layer axiom s = Ret s' ∧
        get_outer_ring_cells layer axiom (data s') = Ret [].
Proof.
  intros Hd Hpos Hnone.
  destruct (ensure_layer_axiom_spec layer axiom (data s) Hd)
    as (d' & He & Hd' & [[g ro] Hc] & _ & _ & Hfresh).
  unfold go_to_layer_axiom. rewrite He. run. eexists. split; [done|].
  cbn [data]. rewrite (get_outer_ring_cells_pos layer axiom d' g ro) by done.
  f_equal. destruct (omap _ _) as [|[[x y] ch] l] eqn:Hl; [done|].
  assert (Hin : (x, y, ch) ∈ omap (ring_cell layer g) (ring_positions layer))
    by (rewrite Hl; set_solver).
  apply ring_cells_elem in Hin as (Hp & Hch & Hf).
  pose proof (Hfresh layer axiom (g, ro) Hpos Hnone Hc x y Hp) as Hdef.
  cbn [fst] in Hdef. rewrite Hdef in Hch. by simplify_eq.
Qed.

Lemma fresh_layer_ring_empty_witness :
  data_ok (data state_start) ∧ (0 < 2)%nat ∧
  data state_start !! (2%nat, AxC) = None ∧
  ∃ s', go_to_layer_axiom 2 AxC state_start = Ret s' ∧
        get_outer_ring_cells 2 AxC (data s') = Ret [].
Proof.
  assert (Hd : data_ok (data state_start)).
  { apply (reachable_state_ok first_random);
      [apply first_random_spec|apply state_start_reachable]. }
  split_and!; [done|lia|reflexivity|].
  apply (fresh_layer_ring_empty 2 AxC state_start Hd); [lia|reflexivity].
Defined.

(** X3.  Writing at the cursor and reading the ring back: in a positive layer
    the cursor cell is a ring cell; after [insert_char ch] the ring lists
    the cursor position with [ch] when [ch] is not blank, empty or the
    default, does not list it at all otherwise, and lists every other
    position as before. *)
Theorem insert_char_ring (ch : string) (s : State) :
  state_ok s → (0 < current_layer s)%nat →
  ∃ s' ring ring',
    insert_char ch s = Ret s' ∧
    get_outer_ring_cells (current_layer s) (current_axiom s) (data s) = Ret ring ∧
    get_outer_ring_cells (current_layer s) (current_axiom s) (data s') = Ret ring' ∧
    ∀ x y c, (x, y, c) ∈ ring' ↔
      if decide ((x, y) = (cursor_x s, cursor_y s))
      then c = ch ∧ ch ≠ " "%string ∧ ch ≠ ""%string ∧ ch ≠ DEFAULT_CHAR
      else (x, y, c) ∈ ring.
Proof.
  intros Hok Hpos. pose proof (state_ok_cursor_in_grid s Hok) as Hcur.
  destruct Hok as (Hd & Hin & Hro). destruct Hcur as (_ & Hsome & _).
  destruct (insert_char_spec ch s) as (g & ro & Hc & [[Hro' _]|(_ & g' & Hins & Hdim & Hget & Hother)]);
    [by split_and!|congruence|].
  assert (Hring : chebyshev (cursor_x s) (cursor_y s) = current_layer s).
  { rewrite is_read_only_cheb in Hro by done.
    apply is_within_bounds_true in Hin. unfold chebyshev in *.
    assert (Hb : bool_decide
                   (Z.abs (cursor_x s) `max` Z.abs (cursor_y s) < current_layer s)
                 = false) by congruence.
    apply bool_decide_eq_false in Hb. lia. }
  eexists _, _, _. split; [exact Hins|]. split.
  { by apply (get_outer_ring_cells_pos _ _ _ g ro). }
  split.
  { cbn [data set_data].
    apply (get_outer_ring_cells_pos _ _ _ g' ro); [|by rewrite lookup_insert_eq|done].
    by apply (data_ok_insert_symbols _ _ g). }
  intros x y c. rewrite (ring_cells_elem _ g').
  destruct (decide ((x, y) = (cursor_x s, cursor_y s))) as [[= -> ->]|Hne];
    [|rewrite (ring_cells_elem _ g)].
  - rewrite Hget, ring_filter_out_false. split.
    + intros (_ & [= <-] & Hf). done.
    + intros (-> & Hf). done.
  - assert (Hrange : chebyshev x y = current_layer s →
                     0 ≤ y + current_layer s ∧ 0 ≤ x + current_layer s)
      by (unfold chebyshev; lia).
    split; intros (Hp & Hch & Hf); (split_and!; [done| |done]).
    + rewrite <-Hother; [done|lia|lia|]. intros [= ? ?]. apply Hne. f_equal; lia.
    + rewrite Hother; [done|lia|lia|]. intros [= ? ?]. apply Hne. f_equal; lia.
Qed.

Lemma insert_char_ring_witness :
  state_ok state_layer1 ∧ (0 < current_layer state_layer1)%nat ∧
  ∃ s' ring ring',
    insert_char "x" state_layer1 = Ret s' ∧
    get_outer_ring_cells (current_layer state_layer1)
      (current_axiom state_layer1) (data state_layer1) = Ret ring ∧
    get_outer_ring_cells (current_layer state_layer1)
      (current_axiom state_layer1) (data s') = Ret ring' ∧
    ∀ x y c, (x, y, c) ∈ ring' ↔
      if decide ((x, y) = (cursor_x state_layer1, cursor_y state_layer1))
      then c = "x"%string ∧ "x"%string ≠ " "%string ∧ "x"%string ≠ ""%string
           ∧ "x"%string ≠ DEFAULT_CHAR
      else (x, y, c) ∈ ring.
Proof.
  assert (Hok : state_ok state_layer1).
  { apply (reachable_state_ok first_random);
      [apply first_random_spec|apply state_layer1_reachable]. }
  assert (Hpos : (0 < current_layer state_layer1)%nat) by (vm_compute; lia).
  split_and!; [done|done|].
  exact (insert_char_ring "x" state_layer1 Hok Hpos).
Defined.

(** ** Indices outside the bounds *)

Lemma py_get_wrap {A} (l : list A) (i : Z) :
  - length l ≤ i < 0 → py_get l i = py_get l (i + length l).
Proof.
  intros Hi. unfold py_get, py_index.
  rewrite (decide_False (P := 0 ≤ i < length l)) by lia.
  rewrite (decide_True (P := - length l ≤ i < 0)) by lia.
  rewrite (decide_True (P := 0 ≤ i + length l < length l)) by lia.
  by rewrite (Z.add_comm i).
Qed.

Lemma py_get_IndexError {A} (l : list A) (i : Z) :
  py_get l i = Raise IndexError ↔ ¬ (- length l ≤ i < length l).
Proof.
  unfold py_get. destruct (py_index (length l) i) as [k|] eqn:Hk; simpl.
  - pose proof (py_index_Some _ _ _ Hk) as Hlt.
    destruct (lookup_lt_is_Some_2 l k Hlt) as [v ->].
    split; [done|]. intros Hout. exfalso. apply Hout.
    unfold py_index in Hk. repeat case_decide; simplify_eq; lia.
  - split; [|done]. intros _.
    unfold py_index in Hk. repeat case_decide; simplify_eq; lia.
Qed.

Lemma mat_get_IndexError {A} (k : Z) (m : list (list A)) (gy gx : Z) :
  dims k m →
  mat_get m gy gx = Raise IndexError ↔ ¬ (- k ≤ gy < k ∧ - k ≤ gx < k).
Proof.
  intros [Hlen Hrows]. unfold mat_get.
  destruct (py_get m gy) as [row|e|] eqn:Hrow; run.
  - assert (Hin : - k ≤ gy < k).
    { destruct (decide (- length m ≤ gy < length m)) as [?|Hout]; [lia|].
      apply py_get_IndexError in Hout. congruence. }
    assert (Hk : Z.of_nat (length row) = k).
    { unfold py_get in Hrow.
      destruct (py_index (length m) gy) as [i|]; [|done]. simpl in Hrow.
      destruct (m !! i) as [r|] eqn:Hr; [|done]. simplify_eq.
      by apply (Forall_lookup_1 _ _ _ _ Hrows Hr). }
    rewrite py_get_IndexError, Hk. intuition lia.
  - assert (Hout : ¬ (- length m ≤ gy < length m)).
    { intros Hin. unfold py_get, py_index in Hrow.
      repeat case_decide; try lia; simpl in Hrow.
      - destruct (lookup_lt_is_Some_2 m (Z.to_nat gy)) as [r Hr]; [lia|].
        by rewrite Hr in Hrow.
      - destruct (lookup_lt_is_Some_2 m (Z.to_nat (length m + gy))) as [r Hr];
          [lia|]. by rewrite Hr in Hrow. }
    assert (e = IndexError) as ->.
    { unfold py_get in Hrow. by destruct (_ ≫= _); simplify_eq. }
    split; [lia|done].
  - unfold py_get in Hrow. by destruct (_ ≫= _).
Qed.

Lemma mat_get_wrap_row {A} (k : Z) (m : list (list A)) (gy gx : Z) :
  dims k m → - k ≤ gy < 0 → mat_get m gy gx = mat_get m (gy + k) gx.
Proof.
  intros [Hlen _] Hgy. unfold mat_get.
  by rewrite (py_get_wrap m gy), Hlen by lia.
Qed.

Lemma mat_get_wrap_col {A} (k : Z) (m : list (list A)) (gy gx : Z) :
  dims k m → - k ≤ gx < 0 → mat_get m gy gx = mat_get m gy (gx + k).
Proof.
  intros [Hlen Hrows] Hgx. unfold mat_get.
  destruct (py_get m gy) as [row|e|] eqn:Hrow; run; [|done..].
  assert (Hk : Z.of_nat (length row) = k).
  { unfold py_get in Hrow.
    destruct (py_index (length m) gy) as [i|]; [|done]. simpl in Hrow.
    destruct (m !! i) as [r|] eqn:Hr; [|done]. simplify_eq.
    by apply (Forall_lookup_1 _ _ _ _ Hrows Hr). }
  by rewrite (py_get_wrap row gx), Hk by lia.
Qed.

(** X4.  [is_read_only] does no bounds check of its own.  With [dim = 2 *
    current_layer + 1], it raises [IndexError] exactly when a grid index
    [x + current_layer] or [y + current_layer] leaves [[-dim, dim)]; one
    index in [[-dim, 0)] does not fail but wraps around and reads the flag
    [dim] cells further, so the cell just left of the grid reads as the
    right edge. *)
Theorem is_read_only_wraps (s : State) (x y : Z) :
  data_ok (data s) →
  is_Some (data s !! (current_layer s, current_axiom s)) →
  let N : Z := current_layer s in
  let dim := layer_dimension (current_layer s) in
  (is_read_only s x y = Raise IndexError ↔
   ¬ (- dim ≤ y + N < dim ∧ - dim ≤ x + N < dim)) ∧
  (- dim ≤ x + N < 0 → is_read_only s x y = is_read_only s (x + dim) y) ∧
  (- dim ≤ y + N < 0 → is_read_only s x y = is_read_only s x (y + dim)).
Proof.
  intros Hd [[g ro] Hc] N dim.
  destruct (Hd _ _ _ Hc) as [(_ & Hro & _) _]. simpl in Hro.
  unfold is_read_only, dict_get. rewrite Hc. run. fold N. split_and!.
  - by apply mat_get_IndexError.
  - intros Hx. rewrite (mat_get_wrap_col dim) by done.
    f_equal. lia.
  - intros Hy. rewrite (mat_get_wrap_row dim) by done.
    f_equal. lia.
Qed.

Lemma is_read_only_wraps_witness :
  data_ok (data state_layer1) ∧
  is_Some (data state_layer1 !! (current_layer state_layer1,
                                  current_axiom state_layer1)) ∧
  is_read_only state_layer1 (-2) 0 = is_read_only state_layer1 1 0 ∧
  is_read_only state_layer1 2 0 = Raise IndexError.
Proof.
  destruct (state_ok_cursor_in_grid state_layer1) as (Hd & Hs & _).
  { apply (reachable_state_ok first_random);
      [apply first_random_spec|apply state_layer1_reachable]. }
  destruct (is_read_only_wraps state_layer1 (-2) 0 Hd Hs) as (_ & Hwrap & _).
  destruct (is_read_only_wraps state_layer1 2 0 Hd Hs) as (Hraise & _ & _).
  split_and!; [done|done| |].
  - apply Hwrap. vm_compute. split; [by intros [=]|done].
  - apply Hraise. vm_compute. intros [_ [_ Hlt]]. discriminate Hlt.
Defined.

(** ** Where the cursor lands *)

Lemma Ret_flag_false (P : Prop) `{!Decision P} :
  Ret (bool_decide P) = Ret false ↔ ¬ P.
Proof.
  split.
  - intros [= H]. by apply bool_decide_eq_false in H.
  - intros H. f_equal. by apply bool_decide_eq_false.
Qed.

Lemma Ret_flag_true (P : Prop) `{!Decision P} :
  Ret (bool_decide P) = Ret true ↔ P.
Proof.
  split.
  - intros [= H]. by apply bool_decide_eq_true in H.
  - intros H. f_equal. by apply bool_decide_eq_true.
Qed.

(** The closed form of [move_cursor] from an unfrozen cell, as a state. *)
Lemma move_cursor_closed_form (s : State) (dx dy : Z) (fuel : nat) :
  state_ok s → unit_direction dx dy → (2 * current_layer s + 1 ≤ fuel)%nat →
  let N : Z := current_layer s in
  let nx := cursor_x s + dx in
  let ny := cursor_y s + dy in
  move_cursor fuel dx dy s
  = Ret (if is_within_bounds s nx ny then
           if decide (chebyshev nx ny = N) then set_cursor s nx ny
           else set_cursor s (cursor_x s + 2 * N * dx) (cursor_y s + 2 * N * dy)
         else s).
Proof.
  intros Hok Hdir Hfuel N nx ny.
  pose proof (state_ok_cursor_in_grid s Hok) as Hcur.
  destruct Hok as (Hd & Hin & Hro). pose proof Hcur as (_ & Hsome & _).
  rewrite is_read_only_cheb in Hro by done.
  apply Ret_flag_false in Hro. fold N in Hro.
  apply is_within_bounds_true in Hin. fold N in Hin.
  assert (Hflag : ∀ k,
            is_within_bounds s (cursor_x s + k * dx) (cursor_y s + k * dy) = true →
            is_read_only s (cursor_x s + k * dx) (cursor_y s + k * dy)
            = Ret (bool_decide
                     (chebyshev (cursor_x s + k * dx) (cursor_y s + k * dy) < N)))
    by (intros k Hk; by apply is_read_only_cheb).
  assert (Hnx : nx = cursor_x s + 1 * dx) by (unfold nx; lia).
  assert (Hny : ny = cursor_y s + 1 * dy) by (unfold ny; lia).
  destruct (move_cursor_spec s dx dy fuel) as
    [(k & s' & -> & Hk & -> & Hkin & Hkro & Hbetween)|(-> & Hblocked)];
    [done..| |]; f_equal.
  - rewrite Hflag in Hkro by done. apply Ret_flag_false in Hkro.
    pose proof Hkin as Hkin'.
    apply is_within_bounds_true in Hkin'. fold N in Hkin'.
    destruct (decide (k = 1)) as [->|Hk1].
    + rewrite <-Hnx, <-Hny in *. rewrite Hkin.
      rewrite decide_True; [done|]. unfold chebyshev in *. lia.
    + destruct (Hbetween 1) as [Hi Hr]; [lia|].
      rewrite Hflag in Hr by done. apply Ret_flag_true in Hr.
      rewrite <-Hnx, <-Hny in Hi, Hr. rewrite Hi.
      rewrite decide_False by lia.
      apply is_within_bounds_true in Hi. fold N in Hi.
      assert (k = 2 * N) as ->; [|done].
      clear Hflag Hbetween Hkin Hd Hsome.
      unfold chebyshev, nx, ny in *.
      destruct (unit_direction_cases dx dy Hdir)
        as [[-> ->]|[[-> ->]|[[-> ->]|[-> ->]]]]; lia.
  - destruct (is_within_bounds s nx ny) eqn:Hi; [|done]. exfalso.
    pose proof Hi as Hi'. apply is_within_bounds_true in Hi'. fold N in Hi'.
    destruct (decide (chebyshev nx ny = N)) as [Hon|Hoff].
    + apply (Hblocked 1); [lia|]. rewrite <-Hnx, <-Hny. split; [done|].
      rewrite Hnx, Hny, Hflag by (by rewrite <-Hnx, <-Hny).
      rewrite <-Hnx, <-Hny. apply Ret_flag_false. lia.
    + assert (Hfar : - N ≤ cursor_x s + 2 * N * dx ≤ N ∧
                     - N ≤ cursor_y s + 2 * N * dy ≤ N ∧
                     chebyshev (cursor_x s + 2 * N * dx)
                       (cursor_y s + 2 * N * dy) = N ∧
                     1 ≤ 2 * N).
      { clear Hflag Hblocked Hd Hsome Hi.
        unfold chebyshev, nx, ny in *.
        destruct (unit_direction_cases dx dy Hdir)
          as [[-> ->]|[[-> ->]|[[-> ->]|[-> ->]]]]; lia. }
      destruct Hfar as (Hfx & Hfy & Hfc & Hpos).
      assert (Hfin : is_within_bounds s (cursor_x s + 2 * N * dx)
                       (cursor_y s + 2 * N * dy) = true)
        by (apply is_within_bounds_true; by fold N).
      apply (Hblocked (2 * N)); [lia|]. split; [done|].
      rewrite Hflag by done. apply Ret_flag_false. lia.
Qed.


(** X5.  [move_cursor] in a state where the cursor is on an unfrozen cell, as
    a function of the cell one step ahead: outside the bounds, nothing
    happens (at layer 0 always); on the outer band, the cursor goes
    there; frozen, the cursor crosses the whole frozen square and lands
    on the opposite edge, [2 * current_layer] cells ahead.  The cache, the
    layer and the axiom of the state returned are those of the old one. *)
Theorem move_cursor_lands (s : State) (dx dy : Z) (fuel : nat) :
  state_ok s → unit_direction dx dy → (2 * current_layer s + 1 ≤ fuel)%nat →
  let N : Z := current_layer s in
  let nx := cursor_x s + dx in
  let ny := cursor_y s + dy in
  ∃ s',
    move_cursor fuel dx dy s = Ret s' ∧
    data s' = data s ∧ current_layer s' = current_layer s ∧
    current_axiom s' = current_axiom s ∧
    (cursor_x s', cursor_y s')
    = (if bool_decide (- N ≤ nx ≤ N ∧ - N ≤ ny ≤ N) then
         if decide (chebyshev nx ny = N) then (nx, ny)
         else (cursor_x s + 2 * N * dx, cursor_y s + 2 * N * dy)
       else (cursor_x s, cursor_y s)).
Proof.
  intros Hok Hdir Hfuel N nx ny.
  pose proof (move_cursor_closed_form s dx dy fuel Hok Hdir Hfuel) as Hrun.
  cbn zeta in Hrun. fold N nx ny in Hrun.
  unfold is_within_bounds in Hrun. fold N in Hrun.
  eexists. split; [exact Hrun|].
  destruct (bool_decide (- N ≤ nx ≤ N ∧ - N ≤ ny ≤ N)); [|done].
  by destruct (decide (chebyshev nx ny = N)).
Qed.

Lemma move_cursor_lands_witness :
  state_ok state_layer1 ∧ unit_direction 1 0 ∧
  (2 * current_layer state_layer1 + 1 ≤ 3)%nat ∧
  ∃ s', move_cursor 3 1 0 state_layer1 = Ret s' ∧
        data s' = data state_layer1 ∧
        (cursor_x s', cursor_y s') = (0, -1).
Proof.
  assert (Hok : state_ok state_layer1).
  { apply (reachable_state_ok first_random);
      [apply first_random_spec|apply state_layer1_reachable]. }
  assert (Hdir : unit_direction 1 0) by (unfold unit_direction; set_solver).
  assert (Hfuel : (2 * current_layer state_layer1 + 1 ≤ 3)%nat)
    by (vm_compute; lia).
  split_and!; [done..|].
  destruct (move_cursor_lands state_layer1 1 0 3 Hok Hdir Hfuel)
    as (s' & Hrun & Hdata & _ & _ & Hcur).
  exists s'. split; [done|]. split; [done|]. exact Hcur.
Defined.

(** ** Writing twice *)

(** X6.  [insert_char] does not advance the cursor: a second symbol typed
    right after a first one lands on the same cell, and the outcome is
    that of typing the second symbol alone. *)
Theorem insert_char_overwrites (a b : string) (s : State) :
  cursor_in_grid s →
  insert_char a s ≫= insert_char b = insert_char b s.
Proof.
  intros Hcur. pose proof Hcur as (Hd & Hsome & Hin).
  destruct (insert_char_spec a s Hcur)
    as (g & ro & Hc & [[_ ->]|(Hro & ga & -> & Hdima & Hgeta & Hothera)]);
    [done|]. run.
  destruct (insert_char_spec b s Hcur)
    as (g0 & ro0 & Hc0 & [[Hro' _]|(_ & gb & -> & Hdimb & Hgetb & Hotherb)]);
    [congruence|]. simplify_eq.
  set (key := (current_layer s, current_axiom s)) in *.
  assert (Hcura : cursor_in_grid (set_data s (<[key:=(ga, ro)]> (data s)))).
  { split_and!; cbn [data set_data current_layer current_axiom cursor_x cursor_y];
      [|by fold key; rewrite lookup_insert_eq|done].
    by apply (data_ok_insert_symbols _ _ g). }
  assert (Hroa : is_read_only (set_data s (<[key:=(ga, ro)]> (data s)))
                   (cursor_x s) (cursor_y s) = Ret false).
  { rewrite <-Hro. unfold is_read_only, dict_get.
    cbn [data set_data current_layer current_axiom cursor_x cursor_y].
    fold key. by rewrite lookup_insert_eq, Hc. }
  destruct (insert_char_spec b _ Hcura)
    as (g1 & ro1 & Hc1 & [[Hro' _]|(_ & gab & -> & Hdimab & Hgetab & Hotherab)]);
    cbn [data set_data current_layer current_axiom cursor_x cursor_y] in *;
    [congruence|].
  fold key in Hc1. rewrite lookup_insert_eq in Hc1. simplify_eq.
  fold key. rewrite insert_insert_eq.
  assert (gab = gb) as ->; [|done].
  apply (mat_ext (layer_dimension (current_layer s))); [done..|].
  intros y x Hy Hx.
  destruct (decide ((y, x) = (cursor_y s + current_layer s,
                              cursor_x s + current_layer s))) as [[= -> ->]|Hne].
  - by rewrite Hgetab, Hgetb.
  - rewrite Hotherab, Hothera, Hotherb by (done || lia). done.
Qed.

Lemma insert_char_overwrites_witness :
  cursor_in_grid state_layer1 ∧
  insert_char "a" state_layer1 ≫= insert_char "b" = insert_char "b" state_layer1.
Proof.
  assert (Hcur : cursor_in_grid state_layer1).
  { apply state_ok_cursor_in_grid, (reachable_state_ok first_random);
      [apply first_random_spec|apply state_layer1_reachable]. }
  split; [done|]. exact (insert_char_overwrites "a" "b" state_layer1 Hcur).
Defined.

(** ** Prefilling, mode by mode *)



Lemma half_ring (layer : nat) :
  Z.to_nat
    (length ((λ p : Z * Z, (p.1 + layer, p.2 + layer)) <$> ring_positions layer)
     `div` 2)
  = (4 * layer)%nat ∧
  0 ≤ length ((λ p : Z * Z, (p.1 + layer, p.2 + layer)) <$> ring_positions layer)
      `div` 2
    ≤ length ((λ p : Z * Z, (p.1 + layer, p.2 + layer)) <$> ring_positions layer).
Proof.
  rewrite length_fmap.
  destruct (decide (0 < layer)%nat) as [Hpos|Hzero].
  - rewrite ring_positions_length by done.
    replace (Z.of_nat (8 * layer)) with (4 * layer * 2) by lia.
    rewrite Z.div_mul by done. lia.
  - replace layer with O by lia. by vm_compute.
Qed.

Section prefill_modes.
Context (R : Random).

(** The loop of the random mode: every selected cell ends up with one of
    the choices, every other cell is left alone. *)
Lemma choice_loop_spec (k : Z) (chars : list string) (sel : list (Z * Z))
    (grid : list (list string)) (g : rng_state R) :
  RandomSpec R → chars ≠ [] → dims k grid →
  (∀ p, p ∈ sel → 0 ≤ p.1 < k ∧ 0 ≤ p.2 < k) →
  ∃ grid' g',
    for_each sel (λ '(gx, gy) '(grid, g),
      '(ch, g) ← random_choice R g chars;
      grid ← mat_set grid gy gx ch;
      Ret (grid, g)) (grid, g) = Ret (grid', g') ∧
    dims k grid' ∧
    (∀ y x, 0 ≤ y → 0 ≤ x → (x, y) ∉ sel →
       mat_get grid' y x = mat_get grid y x) ∧
    (∀ x y, (x, y) ∈ sel → ∃ c, c ∈ chars ∧ mat_get grid' y x = Ret c).
Proof.
  intros HR Hchars. revert grid g.
  induction sel as [|[gx gy] sel IH]; intros grid g Hg Hsel.
  - exists grid, g. split_and!; [done..|].
    intros x y Hin. by apply elem_of_nil in Hin.
  - destruct (Hsel (gx, gy)) as [Hx Hy]; [set_solver|]. simpl in Hx, Hy.
    cbn [for_each].
    assert (Hrc : random_choice R g chars = Ret (rng_choice R g chars))
      by (unfold random_choice; by rewrite decide_False).
    rewrite Hrc.
    pose proof (rng_choice_elem R HR g chars Hchars) as Hch.
    destruct (rng_choice R g chars) as [ch g2]. simpl in Hch. run.
    destruct (mat_set_spec _ grid gy gx ch Hg Hy Hx)
      as (grid2 & -> & Hg2 & Hget & Hother). run.
    destruct (IH grid2 g2 Hg2) as (grid' & g' & Hrun & Hg' & Hframe & Hfilled).
    { intros p Hp. apply Hsel. set_solver. }
    exists grid', g'. split_and!; [done..| |].
    + intros y x Hy0 Hx0 Hnot. rewrite Hframe by (done || set_solver).
      apply Hother; [done..|]. intros [= -> ->]. set_solver.
    + intros x y Hin.
      destruct (decide ((x, y) ∈ sel)) as [Hin'|Hnot]; [by apply Hfilled|].
      assert ((x, y) = (gx, gy)) as [= -> ->] by set_solver.
      exists ch. split; [done|]. rewrite Hframe by (done || lia). done.
Qed.

(** One iteration of [prefill_layers], in any mode, with the list of the
    cells it writes. *)
Lemma prefill_grid_cells (mode : string) (fills : AxiomTag → list string)
    (layer : nat) (axiom : AxiomTag) (d : Data) (g : rng_state R) :
  ((mode = "partial"%string ∨ mode = "random"%string) → RandomSpec R) →
  data_ok d → (0 < layer)%nat →
  let coords :=
    (λ p : Z * Z, (p.1 + layer, p.2 + layer)) <$> ring_positions layer in
  ∃ d1 grid ro grid' g' selected,
    ensure_layer_axiom layer axiom d = Ret d1 ∧
    extends_below layer axiom d d1 ∧ data_ok d1 ∧
    d1 !! (layer, axiom) = Some (grid, ro) ∧
    prefill_grid R mode fills layer axiom (d, g)
    = Ret (<[(layer, axiom) := (grid', ro)]> d1, g') ∧
    dims (layer_dimension layer) grid' ∧
    (selected = [] → grid' = grid) ∧
    (∀ y x, 0 ≤ y → 0 ≤ x → (x, y) ∉ selected →
       mat_get grid' y x = mat_get grid y x) ∧
    (∀ x y, (x, y) ∈ selected →
       ∃ c, c ∈ fills axiom ∧ mat_get grid' y x = Ret c ∧
            (mode ≠ "random"%string → fills axiom !! (layer - 1)%nat = Some c)) ∧
    selected =
      (if decide (mode = "full"%string) then
         match fills axiom !! (layer - 1)%nat with
         | Some c => if decide (c = DEFAULT_CHAR) then [] else coords
         | None => []
         end
       else if decide (mode = "partial"%string) then
         match fills axiom !! (layer - 1)%nat with
         | Some c => (rng_sample R g coords (4 * layer)).1
         | None => []
         end
       else if decide (mode = "random"%string) then
         if decide (fills axiom = []) then []
         else (rng_sample R g coords (4 * layer)).1
       else []).
Proof.
  intros Hrng Hd Hpos coords.
  destruct (ensure_layer_axiom_spec layer axiom d Hd)
    as (d1 & Hens & Hd1 & [[grid ro] Hc] & Hext).
  destruct (Hd1 _ _ _ Hc) as [Hok _]. pose proof Hok as (Hg & _ & _).
  simpl in Hg.
  assert (Hcoords : ∀ p, p ∈ coords →
            chebyshev (p.1 - layer) (p.2 - layer) = layer ∧
            0 ≤ p.1 < layer_dimension layer ∧ 0 ≤ p.2 < layer_dimension layer).
  { intros p Hp%ring_coords_elem. split; [done|]. by apply ring_coords_in_range. }
  assert (Hlen : length coords ≠ O).
  { unfold coords. rewrite length_fmap, ring_positions_length by done. lia. }
  destruct (half_ring layer) as [Hhalf Hhalf_le]. fold coords in Hhalf, Hhalf_le.
  assert (Hsame : (<[(layer, axiom) := (grid, ro)]> d1) = d1) by by apply insert_id.
  assert (Hunchanged : ∀ g' : rng_state R,
    (Ret (d1, g') : outcome _) = Ret (<[(layer, axiom) := (grid, ro)]> d1, g') ∧
    dims (layer_dimension layer) grid ∧
    ((@nil (Z * Z)) = [] → grid = grid) ∧
    (∀ y x, 0 ≤ y → 0 ≤ x → (x, y) ∉ (@nil (Z * Z)) →
       mat_get grid y x = mat_get grid y x) ∧
    (∀ x y, (x, y) ∈ (@nil (Z * Z)) →
       ∃ c, c ∈ fills axiom ∧ mat_get grid y x = Ret c ∧
            (mode ≠ "random"%string → fills axiom !! (layer - 1)%nat = Some c))).
  { intros g'. rewrite Hsame. split_and!; [done..|].
    intros x y Hin. by apply elem_of_nil in Hin. }
  exists d1, grid, ro.
  unfold prefill_grid. rewrite Hens. run. unfold dict_get. rewrite Hc. run.
  pose proof (unfrozen_ring_coords_spec layer (grid, ro) Hok) as Hring.
  cbn [snd] in Hring. rewrite Hring. run.
  fold coords. rewrite decide_False by done.
  rewrite base_char_spec by done. run.
  assert (Hwritten : ∀ (c : string) (sel : list (Z * Z)) (grid' : list (list string)),
    c ∈ fills axiom →
    (mode ≠ "random"%string → fills axiom !! (layer - 1)%nat = Some c) →
    (∀ x y, (x, y) ∈ sel → mat_get grid' y x = Ret c) →
    ∀ x y, (x, y) ∈ sel →
      ∃ c, c ∈ fills axiom ∧ mat_get grid' y x = Ret c ∧
           (mode ≠ "random"%string → fills axiom !! (layer - 1)%nat = Some c)).
  { intros c sel grid' Hc_in Hc_base Hfilled x y Hin. exists c. auto. }
  destruct (decide (mode = "full"%string)) as [Hfull|Hnotfull].
  { destruct (fills axiom !! (layer - 1)%nat) as [c|] eqn:Hbase.
    - destruct (decide (c = DEFAULT_CHAR)) as [Hdef|Hsym].
      + rewrite for_each_skip.
        * run. exists grid, g, []. destruct (Hunchanged g) as (Heq & ? & ? & ? & ?).
          by split_and!.
        * intros [gx gy] s _. rewrite decide_True; [done|]. set_solver.
      + destruct (fill_loop_spec (layer_dimension layer) c coords grid Hg)
          as (grid' & Hrun & Hg' & Hframe & Hfilled).
        { intros p Hp. by apply Hcoords. }
        rewrite (for_each_ext _ _ (λ '(gx, gy) grid, mat_set grid gy gx c)).
        * rewrite Hrun. run. exists grid', g, coords. split_and!; [done..| | | |done].
          -- intros Hnil. by rewrite Hnil in Hlen.
          -- done.
          -- apply (Hwritten c); [by eapply list_elem_of_lookup_2|done|done].
        * intros [gx gy] s _. rewrite decide_False; [done|]. set_solver.
    - exists grid, g, []. destruct (Hunchanged g) as (Heq & ? & ? & ? & ?).
      by split_and!. }
  destruct (decide (mode = "partial"%string)) as [Hpartial|Hnotpartial].
  { destruct (fills axiom !! (layer - 1)%nat) as [c|] eqn:Hbase.
    - pose proof (Hrng (or_introl Hpartial)) as HR.
      unfold random_sample. rewrite decide_True by done. rewrite Hhalf.
      pose proof (rng_sample_elem R HR g coords (4 * layer)) as Hsel.
      destruct (rng_sample R g coords (4 * layer)) as [selected g'].
      cbn [fst] in Hsel. run.
      destruct (fill_loop_spec (layer_dimension layer) c selected grid Hg)
        as (grid' & Hrun & Hg' & Hframe & Hfilled).
      { intros p Hp. by apply Hcoords, Hsel. }
      rewrite Hrun. run. exists grid', g', selected.
      split_and!; [done..| | | |done].
      + intros ->. apply (mat_ext (layer_dimension layer)); [done..|].
        intros y x Hy Hx. apply Hframe; [lia..|]. apply not_elem_of_nil.
      + done.
      + apply (Hwritten c); [by eapply list_elem_of_lookup_2|done|done].
    - exists grid, g, []. destruct (Hunchanged g) as (Heq & ? & ? & ? & ?).
      by split_and!. }
  destruct (decide (mode = "random"%string)) as [Hrandom|Hnotrandom].
  { destruct (decide (0 < length (fills axiom))%nat) as [Hchars|Hnone].
    - assert (Hne : fills axiom ≠ []).
      { intros Hnil. rewrite Hnil in Hchars. simpl in Hchars. lia. }
      rewrite (decide_False (P := fills axiom = [])) by done.
      pose proof (Hrng (or_intror Hrandom)) as HR.
      unfold random_sample. rewrite decide_True by done. rewrite Hhalf.
      pose proof (rng_sample_elem R HR g coords (4 * layer)) as Hsel.
      destruct (rng_sample R g coords (4 * layer)) as [selected g'].
      cbn [fst] in Hsel. run.
      destruct (choice_loop_spec (layer_dimension layer) (fills axiom)
                  selected grid g' HR Hne Hg)
        as (grid' & g'' & Hrun & Hg' & Hframe & Hfilled).
      { intros p Hp. by apply Hcoords, Hsel. }
      rewrite Hrun. run. exists grid', g'', selected.
      split_and!; [done..| | | |done].
      + intros ->. apply (mat_ext (layer_dimension layer)); [done..|].
        intros y x Hy Hx. apply Hframe; [lia..|]. apply not_elem_of_nil.
      + done.
      + intros x y Hin. destruct (Hfilled x y Hin) as (c & ? & ?).
        exists c. by split_and!.
    - assert (Hnil : fills axiom = []).
      { destruct (fills axiom); [done|]. simpl in Hnone. lia. }
      rewrite (decide_True (P := fills axiom = [])) by done.
      exists grid, g, []. destruct (Hunchanged g) as (Heq & ? & ? & ? & ?).
      by split_and!. }
  exists grid, g, []. destruct (Hunchanged g) as (Heq & ? & ? & ? & ?).
  by split_and!.
Qed.
End prefill_modes.

Section prefill_rules.
Context (R : Random).

(** What a returning iteration has done. *)
Lemma prefill_grid_Ret (mode : string) (fills : AxiomTag → list string)
    (layer : nat) (axiom : AxiomTag) (da db : Data) (g g' : rng_state R) :
  ((mode = "partial"%string ∨ mode = "random"%string) → RandomSpec R) →
  data_ok da → (0 < layer)%nat →
  prefill_grid R mode fills layer axiom (da, g) = Ret (db, g') →
  let coords :=
    (λ p : Z * Z, (p.1 + layer, p.2 + layer)) <$> ring_positions layer in
  ∃ d1 grid ro grid' selected,
    extends_below layer axiom da d1 ∧ data_ok d1 ∧
    d1 !! (layer, axiom) = Some (grid, ro) ∧
    db = <[(layer, axiom) := (grid', ro)]> d1 ∧
    dims (layer_dimension layer) grid' ∧
    (selected = [] → grid' = grid) ∧
    (∀ y x, 0 ≤ y → 0 ≤ x → (x, y) ∉ selected →
       mat_get grid' y x = mat_get grid y x) ∧
    (∀ x y, (x, y) ∈ selected →
       ∃ c, c ∈ fills axiom ∧ mat_get grid' y x = Ret c ∧
            (mode ≠ "random"%string → fills axiom !! (layer - 1)%nat = Some c)) ∧
    selected =
      (if decide (mode = "full"%string) then
         match fills axiom !! (layer - 1)%nat with
         | Some c => if decide (c = DEFAULT_CHAR) then [] else coords
         | None => []
         end
       else if decide (mode = "partial"%string) then
         match fills axiom !! (layer - 1)%nat with
         | Some c => (rng_sample R g coords (4 * layer)).1
         | None => []
         end
       else if decide (mode = "random"%string) then
         if decide (fills axiom = []) then []
         else (rng_sample R g coords (4 * layer)).1
       else []).
Proof.
  intros Hrng Hda Hpos Hrun coords.
  destruct (prefill_grid_cells R mode fills layer axiom da g Hrng Hda Hpos)
    as (d1 & grid & ro & grid' & g'' & sel & _ & Hext & Hd1 & Hc & Hrun'
        & Hg' & Hnil & Hframe & Hfilled & Hsel).
  rewrite Hrun in Hrun'. injection Hrun' as -> ->.
  exists d1, grid, ro, grid', sel. by split_and!.
Qed.

(** The invariant rule of [prefill_layers]: [J done d] holds of the cache
    once the grids of the keys in [done] have been visited. *)
Lemma prefill_layers_rule (J : list (nat * AxiomTag) → Data → Prop)
    (mode : string)
    (fillA fillB fillC fillD fillE fillF fillH fillI fillJ : list string)
    (d : Data) :
  let fills := fills_dict fillA fillB fillC fillD fillE fillF fillH fillI fillJ in
  let max_layers :=
    max_layers_of fillA fillB fillC fillD fillE fillF fillH fillI fillJ in
  ((mode = "partial"%string ∨ mode = "random"%string) → RandomSpec R) →
  data_ok d → J [] d →
  (∀ done layer axiom da g db g',
     (1 ≤ layer ≤ max_layers)%nat → (layer, axiom) ∉ done →
     data_ok da → J done da →
     prefill_grid R mode fills layer axiom (da, g) = Ret (db, g') →
     J (done ++ [(layer, axiom)]) db) →
  ∃ d',
    prefill_layers R mode fillA fillB fillC fillD fillE fillF fillH fillI fillJ d
    = Ret d' ∧ data_ok d' ∧
    J (layer ← seq 1 max_layers; (layer,.) <$> axioms) d'.
Proof.
  intros fills max_layers Hrng Hd H0 Hstep. unfold prefill_layers.
  fold fills. fold max_layers.
  rewrite (for_each_nested (seq 1 max_layers) (λ _, axioms)
             (prefill_grid R mode fills)).
  destruct (for_each_prefix_inv
              (λ done st, data_ok st.1 ∧ J done st.1)
              (layer ← seq 1 max_layers; (layer,.) <$> axioms)
              (λ p, prefill_grid R mode fills p.1 p.2) (d, rng_seed R 0))
    as ([d' g'] & Hrun & Hd' & HJ).
  - done.
  - intros done [l a] rest [da g] Hkeys [Hda HJ]. cbn [fst snd] in *.
    assert (Hk : (1 ≤ l ≤ max_layers)%nat).
    { apply (prefill_keys_elem max_layers l a). rewrite Hkeys. set_solver. }
    assert (Hnew : (l, a) ∉ done).
    { pose proof (prefill_keys_NoDup max_layers) as Hnd. rewrite Hkeys in Hnd.
      apply list.NoDup_app in Hnd as (_ & Hdisj & _). intros Hin.
      apply (Hdisj _ Hin). set_solver. }
    destruct (prefill_grid_cells R mode fills l a da g Hrng Hda)
      as (d1 & grid & ro & grid' & g' & sel & _ & _ & Hd1 & Hc & Hrun & Hg' & _);
      [lia|].
    eexists. split; [exact Hrun|]. cbn [fst]. split.
    + by apply (data_ok_insert_symbols l a grid).
    + by apply (Hstep done l a da g _ g').
  - exists d'. rewrite Hrun. done.
Qed.



(** X8.  A mode other than ["full"], ["partial"] and ["random"] is not
    rejected: the layers are built all the same, every cached grid stays
    as it is, and the new rings are left all default. *)
Theorem prefill_layers_unknown_mode (mode : string)
    (fillA fillB fillC fillD fillE fillF fillH fillI fillJ : list string)
    (d : Data) :
  mode ∉ ["full"; "partial"; "random"]%string → data_ok d →
  ∃ d',
    prefill_layers R mode fillA fillB fillC fillD fillE fillF fillH fillI fillJ d
    = Ret d' ∧
    (∀ l a, (1 ≤ l ≤ max_layers_of fillA fillB fillC fillD fillE fillF
                       fillH fillI fillJ)%nat → is_Some (d' !! (l, a))) ∧
    (∀ k c, d !! k = Some c → d' !! k = Some c) ∧
    (∀ l a c, (0 < l)%nat → d !! (l, a) = None → d' !! (l, a) = Some c →
              ring_all l c.1 DEFAULT_CHAR).
Proof.
  intros Hmode Hd.
  assert (Hrng : (mode = "partial"%string ∨ mode = "random"%string) → RandomSpec R)
    by (intros [->| ->]; exfalso; apply Hmode; set_solver).
  destruct (prefill_layers_rule
    (λ done d', (∀ k, k ∈ done → is_Some (d' !! k)) ∧
                (∀ k c, d !! k = Some c → d' !! k = Some c) ∧
                (∀ l a c, (0 < l)%nat → d !! (l, a) = None →
                          d' !! (l, a) = Some c → ring_all l c.1 DEFAULT_CHAR))
    mode fillA fillB fillC fillD fillE fillF fillH fillI fillJ d Hrng Hd)
    as (d' & Hrun & Hd' & Hdone & Hkeep & Hfresh).
  - split_and!; [|done|congruence]. intros k Hk. by apply elem_of_nil in Hk.
  - intros done layer axiom da g db g' Hl Hnew Hda (Hdone & Hkeep & Hfresh) Hrun.
    destruct (prefill_grid_Ret mode _ layer axiom da db g g' Hrng Hda ltac:(lia) Hrun) as
      (d1 & grid & ro & grid' & sel & (Hsub & Hadd & Hdef) & _ & Hc & -> & _
       & Hnil & _ & _ & Hsel).
    rewrite !decide_False in Hsel by (intros ->; apply Hmode; set_solver).
    rewrite (Hnil Hsel), insert_id by done.
    split_and!.
    + intros k [Hin|Hin]%elem_of_app.
      * destruct (Hdone k Hin) as [c' Hc']. rewrite (Hsub _ _ Hc'). eauto.
      * apply list_elem_of_singleton in Hin as ->. eauto.
    + intros k c Hk. by apply Hsub, Hkeep.
    + intros l a c Hpos Hnone Hsome.
      destruct (da !! (l, a)) as [c0|] eqn:Hc0.
      * rewrite (Hsub _ _ Hc0) in Hsome. simplify_eq. by apply (Hfresh l a).
      * by apply (Hdef l a).
  - exists d'. split_and!; [done| |done..].
    intros l a Hl. by apply Hdone, prefill_keys_elem.
Qed.




End prefill_rules.



Lemma prefill_layers_unknown_mode_witness :
  "Full"%string ∉ ["full"; "partial"; "random"]%string ∧ data_ok ∅ ∧
  ∃ d',
    prefill_layers first_random "Full" ["X"%string] [] [] [] [] [] [] [] [] ∅
    = Ret d' ∧
    (∀ l a, (1 ≤ l ≤ max_layers_of ["X"%string] [] [] [] [] [] [] [] [])%nat →
            is_Some (d' !! (l, a))) ∧
    (∀ k c, (∅ : Data) !! k = Some c → d' !! k = Some c) ∧
    (∀ l a c, (0 < l)%nat → (∅ : Data) !! (l, a) = None →
              d' !! (l, a) = Some c → ring_all l c.1 DEFAULT_CHAR).
Proof.
  assert (Hmode : "Full"%string ∉ ["full"; "partial"; "random"]%string)
    by (by apply (bool_decide_unpack _)).
  split_and!; [done|apply data_ok_empty|].
  apply (prefill_layers_unknown_mode first_random "Full" ["X"%string]
           [] [] [] [] [] [] [] [] ∅ Hmode), data_ok_empty.
Defined.



(** ** The terminal window *)

Lemma draw_cell_total (s : State) (grid : list (list string))
    (ro : list (list bool)) (y x : Z) :
  dims (layer_dimension (current_layer s)) grid →
  dims (layer_dimension (current_layer s)) ro →
  - current_layer s ≤ y ≤ current_layer s →
  - current_layer s ≤ x ≤ current_layer s →
  ∃ ch, draw_cell s grid ro y x = Ret ch.
Proof.
  intros Hg Hro Hy Hx. unfold draw_cell.
  destruct (mat_get_total _ grid (y + current_layer s) (x + current_layer s) Hg)
    as [ch ->]; [unfold layer_dimension; lia..|].
  destruct (mat_get_total _ ro (y + current_layer s) (x + current_layer s) Hro)
    as [b ->]; [unfold layer_dimension; lia..|].
  run. repeat case_decide; eauto.
Qed.

Lemma draw_row_spec (s : State) (grid : list (list string))
    (ro : list (list bool)) (lo hi y : Z) :
  dims (layer_dimension (current_layer s)) grid →
  dims (layer_dimension (current_layer s)) ro →
  - current_layer s ≤ y ≤ current_layer s →
  - current_layer s ≤ lo → hi ≤ current_layer s →
  ∃ row, draw_row s grid ro lo hi y = Ret row ∧
    length row = Z.to_nat (hi + 1 - lo) ∧
    ∀ (j : nat) ch, row !! j = Some ch → draw_cell s grid ro y (lo + j) = Ret ch.
Proof.
  intros Hg Hro Hy Hlo Hhi. unfold draw_row.
  destruct (for_each_inv
    (λ (j : nat) (row : list string),
       length row = j ∧
       ∀ (j' : nat) ch, row !! j' = Some ch →
         draw_cell s grid ro y (lo + j') = Ret ch)
    (py_range lo (hi + 1))
    (λ draw_x row_chars,
       char ← draw_cell s grid ro y draw_x; Ret (row_chars ++ [char])) [])
    as (row & Hrun & Hlen & Hcells).
  - split; [done|]. intros j' ch Hj. by rewrite lookup_nil in Hj.
  - intros j x row Hx [Hlen Hcells]. apply py_range_lookup in Hx as [-> Hlt].
    destruct (draw_cell_total s grid ro y (lo + j) Hg Hro Hy) as [ch Hch]; [lia|].
    rewrite Hch. run. eexists. split; [done|]. split.
    + rewrite length_app. simpl. lia.
    + intros j' ch' Hj'. destruct (decide (j' = j)) as [->|Hne].
      * rewrite lookup_app_r, Hlen, Nat.sub_diag in Hj' by lia.
        simpl in Hj'. by simplify_eq.
      * rewrite lookup_app_l in Hj'; [by apply Hcells|].
        apply lookup_lt_Some in Hj'. rewrite length_app in Hj'. simpl in Hj'. lia.
  - exists row. rewrite py_range_length in Hlen. by split_and!.
Qed.

Lemma draw_interface_spec (s : State) :
  cursor_in_grid s →
  let min_xv := (cursor_x s - VIEW_RADIUS) `max` (- current_layer s) in
  let max_xv := (cursor_x s + VIEW_RADIUS) `min` current_layer s in
  let min_yv := (cursor_y s - VIEW_RADIUS) `max` (- current_layer s) in
  let max_yv := (cursor_y s + VIEW_RADIUS) `min` current_layer s in
  ∃ grid ro rows,
    data s !! (current_layer s, current_axiom s) = Some (grid, ro) ∧
    draw_interface s = Ret (draw_header s ++ window_lines rows) ∧
    length rows = Z.to_nat (max_yv + 1 - min_yv) ∧
    ∀ (i : nat) row, rows !! i = Some row →
      length row = Z.to_nat (max_xv + 1 - min_xv) ∧
      ∀ (j : nat) ch, row !! j = Some ch →
        draw_cell s grid ro (min_yv + i) (min_xv + j) = Ret ch.
Proof.
  intros (Hd & [[grid ro] Hc] & Hin) min_xv max_xv min_yv max_yv.
  destruct (Hd _ _ _ Hc) as [(Hg & Hro & _) _]. simpl in Hg, Hro.
  apply is_within_bounds_true in Hin.
  exists grid, ro. unfold draw_interface, dict_get. rewrite Hc. run.
  fold min_xv max_xv min_yv max_yv.
  destruct (for_each_inv
    (λ (i : nat) (screen : list Addstr),
       ∃ rows, screen = draw_header s ++ window_lines rows ∧
         length rows = i ∧
         ∀ (i' : nat) row, rows !! i' = Some row →
           length row = Z.to_nat (max_xv + 1 - min_xv) ∧
           ∀ (j : nat) ch, row !! j = Some ch →
             draw_cell s grid ro (min_yv + i') (min_xv + j) = Ret ch)
    (py_range min_yv (max_yv + 1))
    (λ draw_y screen,
       row_chars ← draw_row s grid ro min_xv max_xv draw_y;
       Ret (screen ++ [mkAddstr (5 + (draw_y - min_yv)) 2
                         (String.concat "" row_chars)]))
    (draw_header s))
    as (screen & Hrun & rows & -> & Hlen & Hrows).
  - exists []. split_and!; [by rewrite app_nil_r|done|].
    intros i' row Hi. by rewrite lookup_nil in Hi.
  - intros i y screen Hy (rows & -> & Hlen & Hrows).
    apply py_range_lookup in Hy as [-> Hlt].
    destruct (draw_row_spec s grid ro min_xv max_xv (min_yv + i) Hg Hro)
      as (row & -> & Hrow_len & Hrow); [unfold min_yv, max_yv in *; lia
        |unfold min_xv; lia|unfold max_xv; lia|].
    run. eexists. split; [done|]. exists (rows ++ [row]). split_and!.
    + unfold window_lines. rewrite imap_app. cbn [imap].
      rewrite <-app_assoc, Nat.add_0_r, Hlen. do 3 f_equal. f_equal. lia.
    + rewrite length_app. simpl. lia.
    + intros i' row' Hi'. destruct (decide (i' = i)) as [->|Hne].
      * rewrite lookup_app_r, Hlen, Nat.sub_diag in Hi' by lia.
        simpl in Hi'. by simplify_eq.
      * rewrite lookup_app_l in Hi'; [by apply Hrows|].
        apply lookup_lt_Some in Hi'. rewrite length_app in Hi'. simpl in Hi'. lia.
  - exists rows. rewrite py_range_length in Hlen. by split_and!.
Qed.



(** X12.  What the window shows, in a state whose cursor is on an unfrozen
    cell.  The character in row [i], column [j] stands for the cell at
    offset [(min_xv + j, min_yv + i)]: a frozen cell is shown blank
    whatever it holds, so the symbols promoted from the layers below are
    never visible; an unfrozen cell shows its symbol; the cursor cell
    shows a hollow marker on a default cell and a solid one otherwise,
    except in context [(0, 'A')], where the symbol itself is shown. *)
Theorem draw_interface_shows (s : State) :
  state_ok s →
  let N : Z := current_layer s in
  let min_xv := (cursor_x s - VIEW_RADIUS) `max` (- N) in
  let min_yv := (cursor_y s - VIEW_RADIUS) `max` (- N) in
  ∃ grid ro rows,
    data s !! (current_layer s, current_axiom s) = Some (grid, ro) ∧
    draw_interface s = Ret (draw_header s ++ window_lines rows) ∧
    ∀ (i j : nat) row ch, rows !! i = Some row → row !! j = Some ch →
      ∃ sym, mat_get grid (min_yv + i + N) (min_xv + j + N) = Ret sym ∧
             ch = shown s sym (min_xv + j) (min_yv + i).
Proof.
  intros Hok N min_xv min_yv.
  pose proof (state_ok_cursor_in_grid s Hok) as Hcur.
  destruct Hok as (Hd & Hin & Hfree).
  destruct (draw_interface_spec s Hcur)
    as (grid & ro & rows & Hc & Hrun & Hlen & Hrows).
  exists grid, ro, rows. split_and!; [done..|].
  intros i j row ch Hi Hj. destruct (Hrows i row Hi) as [Hrow_len Hcells].
  specialize (Hcells j ch Hj).
  apply lookup_lt_Some in Hi, Hj. rewrite Hlen in Hi. rewrite Hrow_len in Hj.
  apply is_within_bounds_true in Hin. fold N in Hin.
  fold N min_xv min_yv in Hcells.
  set (x := min_xv + j) in *. set (y := min_yv + i) in *.
  assert (Hx : - N ≤ x ≤ N) by (unfold x, min_xv, VIEW_RADIUS in *; lia).
  assert (Hy : - N ≤ y ≤ N) by (unfold y, min_yv, VIEW_RADIUS in *; lia).
  destruct (Hd _ _ _ Hc) as [(Hg & _ & Hflags) _]. cbn [fst snd] in Hg, Hflags.
  assert (Hflag : mat_get ro (y + N) (x + N)
                  = Ret (bool_decide (chebyshev x y < N))).
  { rewrite Hflags by (unfold layer_dimension; lia). unfold frozen_at. fold N.
    by replace (x + N - N) with x by lia; replace (y + N - N) with y by lia. }
  destruct (mat_get_total _ grid (y + N) (x + N) Hg) as [sym Hsym];
    [unfold layer_dimension; lia..|].
  exists sym. split; [done|].
  unfold draw_cell in Hcells. fold N in Hcells.
  rewrite Hsym, Hflag in Hcells. run in Hcells. unfold shown. fold N.
  destruct (decide (x = cursor_x s ∧ y = cursor_y s)) as [[Hcx Hcy]|Hnot].
  - assert (Hunfrozen : bool_decide (chebyshev x y < N) = false).
    { unfold is_read_only, dict_get in Hfree. rewrite Hc in Hfree. run in Hfree.
      fold N in Hfree. rewrite <-Hcx, <-Hcy, Hflag in Hfree. congruence. }
    rewrite Hunfrozen in Hcells.
    destruct (decide (current_layer s = O ∧ current_axiom s = AxA
                      ∧ cursor_x s = 0 ∧ cursor_y s = 0)) as [(H0 & HA & _)|Hno].
    + rewrite decide_True by done. congruence.
    + rewrite decide_False
        by (intros [H0 HA]; apply Hno; unfold N in *; split_and!; [done|done|lia|lia]).
      destruct (decide (sym = DEFAULT_CHAR)) as [->|Hsymne].
      * rewrite decide_False in Hcells by (intros Hne; by apply Hne). congruence.
      * rewrite decide_True in Hcells by done. congruence.
  - congruence.
Qed.

Lemma draw_interface_shows_witness :
  state_ok state_layer1 ∧
  ∃ grid ro rows,
    data state_layer1 !! (current_layer state_layer1, current_axiom state_layer1)
    = Some (grid, ro) ∧
    draw_interface state_layer1
    = Ret (draw_header state_layer1 ++ window_lines rows) ∧
    ∀ (i j : nat) row ch, rows !! i = Some row → row !! j = Some ch →
      ∃ sym,
        mat_get grid
          ((cursor_y state_layer1 - VIEW_RADIUS)
             `max` (- current_layer state_layer1) + i
           + current_layer state_layer1)
          ((cursor_x state_layer1 - VIEW_RADIUS)
             `max` (- current_layer state_layer1) + j
           + current_layer state_layer1) = Ret sym ∧
        ch = shown state_layer1 sym
               ((cursor_x state_layer1 - VIEW_RADIUS)
                  `max` (- current_layer state_layer1) + j)
               ((cursor_y state_layer1 - VIEW_RADIUS)
                  `max` (- current_layer state_layer1) + i).
Proof.
  assert (Hok : state_ok state_layer1).
  { apply (reachable_state_ok first_random);
      [apply first_random_spec|apply state_layer1_reachable]. }
  split; [done|]. exact (draw_interface_shows state_layer1 Hok).
Defined.

(** ** The command line *)

Lemma py_split_cons (sep : ascii) (s : string) :
  ∃ w ws, py_split sep s = w :: ws.
Proof.
  destruct s as [|c s]; simpl; [eauto|].
  destruct (decide (c = sep)); [eauto|].
  destruct (py_split sep s); eauto.
Qed.

Lemma py_split_plain (sep : ascii) (s : string) :
  str_contains sep s = false → py_split sep s = [s].
Proof.
  induction s as [|c s IH]; simpl; [done|].
  destruct (decide (c = sep)); [done|]. intros Hs. by rewrite IH.
Qed.

Lemma py_split_sep (sep : ascii) (s1 s2 : string) :
  str_contains sep s1 = false →
  py_split sep (s1 +:+ String sep s2) = s1 :: py_split sep s2.
Proof.
  induction s1 as [|c s1 IH]; simpl.
  - intros _. by rewrite decide_True.
  - destruct (decide (c = sep)); [done|]. intros Hs. by rewrite IH.
Qed.

Lemma str_contains_sep (sep : ascii) (s1 s2 : string) :
  str_contains sep (s1 +:+ String sep s2) = true.
Proof.
  induction s1 as [|c s1 IH]; simpl.
  - by rewrite decide_True.
  - by destruct (decide (c = sep)).
Qed.

Lemma py_split_two (sep : ascii) (s : string) :
  str_contains sep s = true → (2 ≤ length (py_split sep s))%nat.
Proof.
  induction s as [|c s IH]; simpl; [done|].
  destruct (decide (c = sep)).
  - intros _. destruct (py_split_cons sep s) as (w & ws & ->). simpl. lia.
  - intros Hs. specialize (IH Hs).
    destruct (py_split sep s) as [|w ws]; simpl in *; lia.
Qed.

Lemma prefix_append (p s : string) :
  String.prefix p s = true → ∃ rest, s = p +:+ rest.
Proof.
  revert s. induction p as [|c p IH]; intros s.
  - intros _. by exists s.
  - destruct s as [|c' s]; simpl; [done|].
    destruct (ascii_dec c c') as [->|]; [|done].
    intros [rest ->]%IH. by exists rest.
Qed.

Lemma prefix_of_append (p rest : string) : String.prefix p (p +:+ rest) = true.
Proof.
  induction p as [|c p IH]; simpl; [by destruct rest|].
  by destruct (ascii_dec c c).
Qed.

(** One argument never fails, and cannot empty a fill list. *)
Lemma parse_arg_total (arg : string) (fills : AxiomTag → list string)
    (mode : string) :
  ∃ fills' mode',
    parse_arg arg (fills, mode) = Ret (fills', mode') ∧
    ((∀ a, fills a ≠ []) → ∀ a, fills' a ≠ []) ∧
    (String.prefix "--fill" arg = false → String.prefix "--mode=" arg = false →
     fills' = fills ∧ mode' = mode).
Proof.
  unfold parse_arg.
  destruct (String.prefix "--fill" arg) eqn:Hfill; cbn [andb].
  - destruct (str_contains "=" arg) eqn:Heq; cbn [andb].
    + pose proof (py_split_two _ _ Heq) as Hlen.
      destruct (py_get_total (py_split "=" arg) 0) as [head ->]; [lia|]. run.
      destruct (axiom_of_letter (str_drop 6 head)) as [a|]; [|by eexists _, _; split_and!; [done|intros|intros]].
      destruct (py_get_total (py_split "=" arg) 1) as [value ->]; [lia|]. run.
      eexists _, _. split_and!; [done| |done].
      intros Hne a'. destruct (decide (a = a')) as [->|Hdiff].
      * rewrite fn_lookup_insert.
        destruct (py_split_cons "," value) as (w & ws & ->). done.
      * rewrite fn_lookup_insert_ne by done. apply Hne.
    + destruct (String.prefix "--mode=" arg) eqn:Hmode; [|by eexists _, _; split_and!; [done|intros|intros]].
      apply prefix_append in Hmode as [rest ->]. done.
  - destruct (String.prefix "--mode=" arg) eqn:Hmode; [|by eexists _, _; split_and!; [done|intros|intros]].
    pose proof Hmode as [rest ->]%prefix_append.
    assert (Hlen : (2 ≤ length (py_split "=" ("--mode=" +:+ rest)))%nat)
      by (by apply py_split_two).
    destruct (py_get_total (py_split "=" ("--mode=" +:+ rest)) 1) as [value ->];
      [lia|]. run. by eexists _, _; split_and!; [done|intros|intros].
Qed.

(** The outcome of the loop over [sys.argv], for any arguments. *)
Lemma parse_args_spec (argv : list string) :
  ∃ fills mode,
    parse_args argv = Ret (fills, mode) ∧
    (∀ a, fills a ≠ []) ∧
    ((∀ arg, arg ∈ argv → String.prefix "--fill" arg = false
                          ∧ String.prefix "--mode=" arg = false) →
     fills = default_fills ∧ mode = "full"%string).
Proof.
  unfold parse_args.
  destruct (for_each_prefix_inv
    (λ (done : list string) (st : (AxiomTag → list string) * string),
       (∀ a, st.1 a ≠ []) ∧
       ((∀ arg, arg ∈ done → String.prefix "--fill" arg = false
                            ∧ String.prefix "--mode=" arg = false) →
        st = (default_fills, "full"%string)))
    argv parse_arg (default_fills, "full"%string))
    as ([fills mode] & Hrun & Hne & Hdef).
  - split; [by intros []|done].
  - intros done arg rest [fills mode] _ [Hne Hdef]. cbn [fst] in Hne.
    destruct (parse_arg_total arg fills mode) as (fills' & mode' & -> & Hne' & Hsame).
    eexists. split; [done|]. cbn [fst]. split; [by apply Hne'|].
    intros Hplain. destruct (Hplain arg) as [Hf Hm]; [set_solver|].
    destruct (Hsame Hf Hm) as [-> ->]. apply Hdef.
    intros arg' Hin. apply Hplain. set_solver.
  - exists fills, mode. split_and!; [done..|].
    intros Hplain. by specialize (Hdef Hplain) as [= -> ->].
Qed.

(** X13.  The loop over [sys.argv] never fails, whatever the arguments: the
    two indexings [arg.split('=')[1]] are guarded by the presence of
    ['='].  No option can make a fill list empty (an empty value gives
    the list of one empty symbol), so a prefill always has at least
    layer 1 to build; and without any [--fill...] or [--mode=] argument
    the result is the default configuration in mode ["full"]. *)
Theorem parse_args_total (argv : list string) :
  ∃ fills mode,
    parse_args argv = Ret (fills, mode) ∧
    (∀ a, fills a ≠ []) ∧
    ((∀ arg, arg ∈ argv → String.prefix "--fill" arg = false
                          ∧ String.prefix "--mode=" arg = false) →
     fills = default_fills ∧ mode = "full"%string).
Proof.
  exact (parse_args_spec argv).
Qed.

(** X14.  An argument [--fill<key>=<value>] whose key has no ['=']: when the
    key is one of the nine letters, the list of that axiom becomes the
    value cut at its first ['='] and split on commas, the other lists
    and the mode stay; any other key (no letter, two letters, lower
    case, the unused letter G) is ignored without an error. *)
Theorem parse_arg_fill (key value : string) (fills : AxiomTag → list string)
    (mode : string) :
  str_contains "=" key = false →
  ∃ v rest,
    py_split "=" value = v :: rest ∧
    (str_contains "=" value = false → v = value) ∧
    parse_arg ("--fill" +:+ key +:+ "=" +:+ value) (fills, mode)
    = Ret (match axiom_of_letter key with
           | Some a => (<[a := py_split "," v]> fills, mode)
           | None => (fills, mode)
           end).
Proof.
  intros Hkey. destruct (py_split_cons "=" value) as (v & rest & Hv).
  exists v, rest. split_and!; [done| |].
  - intros Hplain. rewrite py_split_plain in Hv by done. by simplify_eq.
  - assert (Hsplit : py_split "=" ("--fill" +:+ key +:+ "=" +:+ value)
                     = ("--fill" +:+ key) :: v :: rest).
    { rewrite <-Hv.
      change ("--fill" +:+ key +:+ "=" +:+ value)
        with (("--fill" +:+ key) +:+ String "=" value).
      apply py_split_sep. exact Hkey. }
    unfold parse_arg. rewrite Hsplit.
    assert (Hpre : String.prefix "--fill" ("--fill" +:+ key +:+ "=" +:+ value)
                   = true) by apply prefix_of_append.
    assert (Hcon : str_contains "=" ("--fill" +:+ key +:+ "=" +:+ value) = true).
    { change ("--fill" +:+ key +:+ "=" +:+ value)
        with (("--fill" +:+ key) +:+ String "=" value).
      apply str_contains_sep. }
    rewrite Hpre, Hcon. cbn [andb]. rewrite py_get_unfold by done. simpl.
    change ("" +:+ key) with key. by destruct (axiom_of_letter key).
Qed.

Lemma parse_arg_fill_witness :
  str_contains "=" "A" = false ∧
  parse_arg "--fillA=x,,y" (default_fills, "full"%string)
  = Ret (<[AxA := ["x"; ""; "y"]%string]> default_fills, "full"%string) ∧
  parse_arg "--fillA=" (default_fills, "full"%string)
  = Ret (<[AxA := [""%string]]> default_fills, "full"%string).
Proof.
  assert (Hkey : str_contains "=" "A" = false) by done.
  split; [done|]. split.
  - destruct (parse_arg_fill "A" "x,,y" default_fills "full" Hkey)
      as (v & rest & Hv & _ & Hrun).
    injection Hv as <- <-. exact Hrun.
  - destruct (parse_arg_fill "A" "" default_fills "full" Hkey)
      as (v & rest & Hv & _ & Hrun).
    injection Hv as <- <-. exact Hrun.
Defined.

(** X15.  An argument [--mode=<value>] sets the mode to the value cut at its
    first ['='], whatever the value is: the mode is not checked against
    the three modes that [prefill_layers] knows. *)
Theorem parse_arg_mode (value : string) (fills : AxiomTag → list string)
    (mode : string) :
  ∃ v rest,
    py_split "=" value = v :: rest ∧
    (str_contains "=" value = false → v = value) ∧
    parse_arg ("--mode=" +:+ value) (fills, mode) = Ret (fills, v).
Proof.
  destruct (py_split_cons "=" value) as (v & rest & Hv).
  exists v, rest. split_and!; [done| |].
  - intros Hplain. rewrite py_split_plain in Hv by done. by simplify_eq.
  - unfold parse_arg.
    assert (Hsplit : py_split "=" ("--mode=" +:+ value) = "--mode"%string :: v :: rest).
    { rewrite <-Hv. by apply (py_split_sep "=" "--mode" value). }
    assert (Hpre1 : String.prefix "--fill" ("--mode=" +:+ value) = false) by done.
    assert (Hpre2 : String.prefix "--mode=" ("--mode=" +:+ value) = true)
      by apply prefix_of_append.
    rewrite Hsplit, Hpre1, Hpre2. cbn [andb].
    rewrite py_get_unfold by done. done.
Qed.

(** ** The figure *)

Lemma get_outer_ring_cells_O (axiom : AxiomTag) (d : Data)
    (g : list (list string)) (ro : list (list bool)) :
  data_ok d → d !! (O, axiom) = Some (g, ro) →
  ∃ ch, mat_get g 0 0 = Ret ch ∧
        get_outer_ring_cells 0 axiom d = Ret [(0, 0, ch)].
Proof.
  intros Hd Hc. destruct (Hd _ _ _ Hc) as [(Hg & _ & _) _]. simpl in Hg.
  destruct (mat_get_total _ g 0 0 Hg) as [ch Hch]; [unfold layer_dimension; lia..|].
  exists ch. split; [done|].
  unfold get_outer_ring_cells, dict_get. rewrite Hc. run.
  rewrite decide_True by done. by rewrite Hch.
Qed.

Lemma get_outer_ring_cells_total (layer : nat) (axiom : AxiomTag) (d : Data) :
  data_ok d → is_Some (d !! (layer, axiom)) →
  ∃ ring, get_outer_ring_cells layer axiom d = Ret ring.
Proof.
  intros Hd [[g ro] Hc]. destruct layer as [|p].
  - destruct (get_outer_ring_cells_O axiom d g ro Hd Hc) as (ch & _ & ->). eauto.
  - rewrite (get_outer_ring_cells_pos _ _ _ g ro) by (done || lia). eauto.
Qed.

Lemma foldl_max_spec (l : list nat) (n : nat) :
  (n ≤ foldl Nat.max n l)%nat ∧
  (∀ x, x ∈ l → (x ≤ foldl Nat.max n l)%nat) ∧
  (foldl Nat.max n l = n ∨ foldl Nat.max n l ∈ l).
Proof.
  revert n. induction l as [|y l IH]; intros n; simpl.
  - split_and!; [done| |by left]. intros x Hx. by apply elem_of_nil in Hx.
  - destruct (IH (Nat.max n y)) as (Hle & Hall & Hin). split_and!.
    + lia.
    + intros x [->|Hx]%elem_of_cons; [lia|by apply Hall].
    + destruct Hin as [Heq|Hin]; [|right; set_solver].
      rewrite Heq. destruct (Nat.max_spec n y) as [[_ ->]|[_ ->]];
        [right; set_solver|by left].
Qed.

Section render_whole.
Context {coord angle : Type}.
Context (atan2 : Z → Z → angle) (angle_le : angle → angle → bool).
Context (circle_point : AxiomTag → nat → nat → nat → coord * coord * coord).

Lemma render_3d_trace_total (layer : nat) (axiom : AxiomTag)
    (cells : list (Z * Z * string)) :
  ∃ t, render_3d_trace atan2 angle_le circle_point layer axiom cells = Ret t ∧
       (t = None ↔ cells = []).
Proof.
  unfold render_3d_trace.
  destruct (decide (cells = [])) as [->|Hne]; [by exists None|].
  set (ring := sort_by_angle _ _ _).
  destruct (plot_cells_lengths (circle_point axiom layer) ring)
    as (Hx & Hy & Hz & _).
  destruct (decide (1 < length _)%nat) as [Hlong|Hshort].
  - destruct (py_get_total (x_vals (plot_cells (circle_point axiom layer) ring)) 0)
      as [x0 ->]; [lia|].
    destruct (py_get_total (y_vals (plot_cells (circle_point axiom layer) ring)) 0)
      as [y0 ->]; [lia|].
    destruct (py_get_total (z_vals (plot_cells (circle_point axiom layer) ring)) 0)
      as [z0 ->]; [lia|].
    run. eexists. split; [done|]. by split.
  - eexists. split; [done|]. by split.
Qed.

Lemma extend_empty_trace (t : Trace (coord := coord)) :
  extend_trace empty_trace t = t.
Proof. by destruct t. Qed.

(** One turn of the loop over the keys. *)
Lemma render_3d_key_spec (d : Data) (layer : nat) (axiom : AxiomTag)
    (g : list (list string)) (ro : list (list bool)) (acc : Traces) :
  data_ok d → d !! (layer, axiom) = Some (g, ro) →
  ∃ acc',
    render_3d_key atan2 angle_le circle_point d (layer, axiom) acc = Ret acc' ∧
    (layer = O →
       ∃ ch, mat_get g 0 0 = Ret ch ∧
         layer_0_trace acc'
         = <[axiom := extend_trace (layer_0_trace acc axiom)
                        (plot_cells (circle_point axiom 0) [(0, 0, ch)])]>
             (layer_0_trace acc)) ∧
    (layer ≠ O → layer_0_trace acc' = layer_0_trace acc) ∧
    (λ t, (trace_layer t, trace_axiom t)) <$> layer_1_plus_traces acc'
    = ((λ t, (trace_layer t, trace_axiom t)) <$> layer_1_plus_traces acc)
      ++ (if decide ((2 ≤ layer)%nat ∧ ring_visible d (layer, axiom) = true)
          then [(layer, axiom)] else []).
Proof.
  intros Hd Hc. unfold render_3d_key, ring_visible. cbn [fst snd].
  destruct layer as [|p].
  - destruct (get_outer_ring_cells_O axiom d g ro Hd Hc) as (ch & Hch & ->). run.
    unfold render_3d_trace. rewrite decide_False by done.
    unfold sort_by_angle. cbn [foldr insert_by_angle].
    assert (Hone : length (x_vals (plot_cells (circle_point axiom 0) [(0, 0, ch)]))
                   = 1%nat)
      by apply (plot_cells_lengths (circle_point axiom 0) [(0, 0, ch)]).
    rewrite decide_False by lia. run. rewrite decide_True by done.
    eexists. split; [done|]. cbn [layer_0_trace layer_1_plus_traces]. split_and!.
    + intros _. by exists ch.
    + done.
    + rewrite decide_False by lia. by rewrite app_nil_r.
  - destruct (get_outer_ring_cells_total (S p) axiom d Hd) as [ring Hring]; [eauto|].
    rewrite Hring. run.
    destruct (render_3d_trace_total (S p) axiom ring) as (t & -> & Hnone). run.
    destruct t as [t|].
    + assert (Hvis : ring ≠ []) by (intros Hnil; by apply Hnone in Hnil).
      rewrite decide_False by done.
      destruct (decide (S p = 1%nat)) as [Hone|Htwo].
      * eexists. split; [done|]. cbn [layer_0_trace layer_1_plus_traces].
        split_and!; [done..|]. rewrite decide_False by lia. by rewrite app_nil_r.
      * eexists. split; [done|]. cbn [layer_0_trace layer_1_plus_traces].
        split_and!; [done..|]. rewrite fmap_app. f_equal.
        rewrite decide_True; [done|]. split; [lia|]. by destruct ring.
    + assert (ring = []) as -> by by apply Hnone.
      eexists. split; [done|]. split_and!; [done..|].
      rewrite decide_False by (by intros [_ ?]). by rewrite app_nil_r.
Qed.

Lemma render_3d_spec (keys : list (nat * AxiomTag)) (d : Data) :
  data_ok d → (∀ k, k ∈ keys → is_Some (d !! k)) → NoDup keys → keys ≠ [] →
  ∃ traces max_layer,
    render_3d atan2 angle_le circle_point keys d = Ret (traces, max_layer) ∧
    (∀ k, k ∈ keys → (k.1 ≤ max_layer)%nat) ∧ max_layer ∈ keys.*1 ∧
    (∀ a,
       if decide ((O, a) ∈ keys) then
         ∃ g ro ch, d !! (O, a) = Some (g, ro) ∧ mat_get g 0 0 = Ret ch ∧
           layer_0_trace traces a
           = plot_cells (circle_point a 0) [(0, 0, ch)]
       else layer_0_trace traces a = empty_trace) ∧
    (λ t, (trace_layer t, trace_axiom t)) <$> layer_1_plus_traces traces
    = filter (λ k, (2 ≤ k.1)%nat ∧ ring_visible d k = true) keys.
Proof.
  intros Hd Hkeys Hnodup Hne. unfold render_3d.
  destruct keys as [|k0 keys0] eqn:Hk; [done|]. rewrite <-Hk in *.
  assert (Hmax : py_max keys.*1 = Ret (foldl Nat.max k0.1 keys0.*1))
    by by rewrite Hk.
  rewrite Hmax. run.
  destruct (foldl_max_spec keys0.*1 k0.1) as (Hfirst & Hothers & Hin).
  destruct (for_each_prefix_inv
    (λ (done : list (nat * AxiomTag)) (acc : Traces),
       (∀ a,
          if decide ((O, a) ∈ done) then
            ∃ g ro ch, d !! (O, a) = Some (g, ro) ∧ mat_get g 0 0 = Ret ch ∧
              layer_0_trace acc a = plot_cells (circle_point a 0) [(0, 0, ch)]
          else layer_0_trace acc a = empty_trace) ∧
       (λ t, (trace_layer t, trace_axiom t)) <$> layer_1_plus_traces acc
       = filter (λ k, (2 ≤ k.1)%nat ∧ ring_visible d k = true) done)
    keys (render_3d_key atan2 angle_le circle_point d)
    {| layer_0_trace := λ _, empty_trace; layer_1_trace := λ _, empty_trace;
       layer_1_plus_traces := [] |})
    as (traces & Hrun & Horigin & Houter).
  - split; [|done]. intros a. by rewrite decide_False by apply not_elem_of_nil.
  - intros done [layer axiom] rest acc Hsplit [Horigin Houter].
    assert (Hnew : (layer, axiom) ∉ done).
    { rewrite Hsplit in Hnodup.
      apply list.NoDup_app in Hnodup as (_ & Hdisj & _). intros Hin'.
      apply (Hdisj _ Hin'). set_solver. }
    destruct (Hkeys (layer, axiom)) as [[g ro] Hc]; [rewrite Hsplit; set_solver|].
    destruct (render_3d_key_spec d layer axiom g ro acc Hd Hc)
      as (acc' & -> & Hzero & Hpos & Hplus).
    exists acc'. split; [done|]. split.
    + intros a. specialize (Horigin a).
      destruct (decide (layer = O)) as [->|Hlayer].
      * destruct (Hzero eq_refl) as (ch & Hch & ->).
        destruct (decide (axiom = a)) as [->|Hdiff].
        -- rewrite fn_lookup_insert, decide_True by set_solver.
           rewrite decide_False in Horigin by done.
           rewrite Horigin, extend_empty_trace. by exists g, ro, ch.
        -- rewrite fn_lookup_insert_ne by done.
           destruct (decide ((O, a) ∈ done)) as [Hin'|Hnot].
           ++ rewrite decide_True by set_solver. done.
           ++ rewrite decide_False; [done|].
              intros [?|Hin']%elem_of_app; [done|].
              apply list_elem_of_singleton in Hin'. congruence.
      * rewrite (Hpos Hlayer).
        destruct (decide ((O, a) ∈ done)) as [Hin'|Hnot].
        -- rewrite decide_True by set_solver. done.
        -- rewrite decide_False; [done|].
           intros [?|Hin']%elem_of_app; [done|].
           apply list_elem_of_singleton in Hin'. congruence.
    + rewrite Hplus, Houter, list.filter_app. by f_equal.
  - exists traces, (foldl Nat.max k0.1 keys0.*1). rewrite Hrun. run.
    split_and!; [done| | |done..].
    + intros k. rewrite Hk. intros [->|Hin']%elem_of_cons; [done|].
      apply Hothers. by apply list_elem_of_fmap_2.
    + rewrite Hk. simpl. destruct Hin as [->|Hin]; set_solver.
Qed.

(** X16.  [render_3d] on a well-formed cache, with the keys in any order:
    on an empty cache it fails with [ValueError], the maximum of an
    empty sequence (which is why [run] enters a context before the first
    frame); otherwise it returns, and [max_layer], the range of the three
    axes, is the largest cached layer. *)
Theorem render_3d_returns (keys : list (nat * AxiomTag)) (d : Data) :
  data_ok d → (∀ k, k ∈ keys ↔ is_Some (d !! k)) → NoDup keys →
  (d = ∅ → render_3d atan2 angle_le circle_point keys d = Raise ValueError) ∧
  (d ≠ ∅ →
   ∃ traces max_layer,
     render_3d atan2 angle_le circle_point keys d = Ret (traces, max_layer) ∧
     (∀ l a, is_Some (d !! (l, a)) → (l ≤ max_layer)%nat) ∧
     ∃ a, is_Some (d !! (max_layer, a))).
Proof.
  intros Hd Hkeys Hnodup. split.
  - intros ->. destruct keys as [|k keys]; [done|].
    destruct (proj1 (Hkeys k)) as [c Hc]; [set_solver|].
    by rewrite lookup_empty in Hc.
  - intros Hne.
    assert (Hkeys_ne : keys ≠ []).
    { intros ->. apply Hne. apply map_eq. intros k. rewrite lookup_empty.
      destruct (d !! k) as [c|] eqn:Hc; [|done].
      assert (Hin : k ∈ @nil (nat * AxiomTag)) by (apply Hkeys; eauto).
      by apply elem_of_nil in Hin. }
    destruct (render_3d_spec keys d Hd) as (traces & m & Hrun & Hle & Hin & _);
      [by intros k ?%Hkeys|done..|].
    exists traces, m. split_and!; [done| |].
    + intros l a Hs%Hkeys. by apply (Hle (l, a)).
    + apply list_elem_of_fmap in Hin as ([l a] & -> & Hin). exists a.
      by apply Hkeys.
Qed.

(** X17.  The traces of layer 0: for an axiom whose origin grid is cached the
    trace is the single point computed for index 0 of 1, labelled with
    whatever symbol the origin holds (the origin is never filtered out,
    a blank or default origin is plotted too); for any other axiom the
    trace stays empty.  Grids of higher layers never contribute to it. *)
Theorem render_3d_origin_traces (keys : list (nat * AxiomTag)) (d : Data) :
  data_ok d → (∀ k, k ∈ keys ↔ is_Some (d !! k)) → NoDup keys → d ≠ ∅ →
  ∃ traces max_layer,
    render_3d atan2 angle_le circle_point keys d = Ret (traces, max_layer) ∧
    ∀ a,
      match d !! (O, a) with
      | Some (g, ro) =>
          ∃ ch, mat_get g 0 0 = Ret ch ∧
            layer_0_trace traces a = plot_cells (circle_point a 0) [(0, 0, ch)] ∧
            text_vals (layer_0_trace traces a) = [ch] ∧
            length (x_vals (layer_0_trace traces a)) = 1%nat
      | None => layer_0_trace traces a = empty_trace
      end.
Proof.
  intros Hd Hkeys Hnodup Hne.
  assert (Hkeys_ne : keys ≠ []).
  { intros ->. apply Hne. apply map_eq. intros k. rewrite lookup_empty.
    destruct (d !! k) as [c|] eqn:Hc; [|done].
    assert (Hin : k ∈ @nil (nat * AxiomTag)) by (apply Hkeys; eauto).
    by apply elem_of_nil in Hin. }
  destruct (render_3d_spec keys d Hd) as (traces & m & Hrun & _ & _ & Horigin & _);
    [by intros k ?%Hkeys|done..|].
  exists traces, m. split; [done|]. intros a. specialize (Horigin a).
  destruct (d !! (O, a)) as [[g ro]|] eqn:Hc.
  - rewrite decide_True in Horigin by (apply Hkeys; eauto).
    destruct Horigin as (g' & ro' & ch & Hc' & Hch & Htrace). simplify_eq.
    exists ch. split_and!; [done..| |].
    + rewrite Htrace. unfold plot_cells. simpl.
      by destruct (circle_point a 0 0 1) as [[x y] z].
    + rewrite Htrace.
      apply (plot_cells_lengths (circle_point a 0) [(0, 0, ch)]).
  - rewrite decide_False in Horigin; [done|].
    intros [c Hc']%Hkeys. congruence.
Qed.

End render_whole.

(** The keys of a finite map, in the order of [map_to_list], are one
    possible iteration order. *)
Lemma map_keys_spec (d : Data) :
  (∀ k, k ∈ (map_to_list d).*1 ↔ is_Some (d !! k)) ∧ NoDup (map_to_list d).*1.
Proof.
  split; [|apply NoDup_fst_map_to_list].
  intros k. rewrite list_elem_of_fmap. split.
  - intros ([k' c] & -> & Hin%elem_of_map_to_list). eauto.
  - intros [c Hc]. exists (k, c). split; [done|]. by apply elem_of_map_to_list.
Qed.

Lemma state_marked_data :
  data_ok (data state_marked) ∧ data state_marked ≠ ∅.
Proof.
  split.
  - apply (reachable_state_ok first_random); [apply first_random_spec|].
    apply (reachable_step _ state_layer1 (WriteSymbol "x"));
      [apply state_layer1_reachable|by apply step_write].
  - intros Hempty.
    assert (Hnone : data state_marked !! (1%nat, AxA) = None)
      by (rewrite Hempty; apply lookup_empty).
    vm_compute in Hnone. discriminate Hnone.
Qed.

Lemma render_3d_returns_witness :
  data_ok (data state_marked) ∧
  (∀ k, k ∈ (map_to_list (data state_marked)).*1
        ↔ is_Some (data state_marked !! k)) ∧
  NoDup (map_to_list (data state_marked)).*1 ∧
  data state_marked ≠ ∅ ∧
  ∃ traces max_layer,
    render_3d (λ _ _ : Z, 0) (λ _ _ : Z, true)
      (λ (_ : AxiomTag) (_ i k : nat), (i, k, O))
      (map_to_list (data state_marked)).*1 (data state_marked)
    = Ret (traces, max_layer) ∧
    (∀ l a, is_Some (data state_marked !! (l, a)) → (l ≤ max_layer)%nat) ∧
    ∃ a, is_Some (data state_marked !! (max_layer, a)).
Proof.
  destruct state_marked_data as [Hd Hne].
  destruct (map_keys_spec (data state_marked)) as [Hkeys Hnodup].
  split_and!; [done..|].
  apply (render_3d_returns (λ _ _ : Z, 0) (λ _ _ : Z, true)
           (λ (_ : AxiomTag) (_ i k : nat), (i, k, O))
           (map_to_list (data state_marked)).*1 (data state_marked)
           Hd Hkeys Hnodup), Hne.
Defined.

Lemma render_3d_origin_traces_witness :
  data_ok (data state_marked) ∧
  (∀ k, k ∈ (map_to_list (data state_marked)).*1
        ↔ is_Some (data state_marked !! k)) ∧
  NoDup (map_to_list (data state_marked)).*1 ∧
  data state_marked ≠ ∅ ∧
  ∃ traces max_layer,
    render_3d (λ _ _ : Z, 0) (λ _ _ : Z, true)
      (λ (_ : AxiomTag) (_ i k : nat), (i, k, O))
      (map_to_list (data state_marked)).*1 (data state_marked)
    = Ret (traces, max_layer) ∧
    ∀ a,
      match data state_marked !! (O, a) with
      | Some (g, ro) =>
          ∃ ch, mat_get g 0 0 = Ret ch ∧
            layer_0_trace traces a
            = plot_cells ((λ (_ : AxiomTag) (_ i k : nat), (i, k, O)) a 0%nat)
                [(0, 0, ch)] ∧
            text_vals (layer_0_trace traces a) = [ch] ∧
            length (x_vals (layer_0_trace traces a)) = 1%nat
      | None => layer_0_trace traces a = empty_trace
      end.
Proof.
  destruct state_marked_data as [Hd Hne].
  destruct (map_keys_spec (data state_marked)) as [Hkeys Hnodup].
  split_and!; [done..|].
  exact (render_3d_origin_traces (λ _ _ : Z, 0) (λ _ _ : Z, true)
           (λ (_ : AxiomTag) (_ i k : nat), (i, k, O))
           (map_to_list (data state_marked)).*1 (data state_marked)
           Hd Hkeys Hnodup Hne).
Defined.


(** ** The interactive loop *)

Lemma jump_across_loop_data (fuel : nat) (dx dy x y : Z) (s : State)
    (b : bool) (s' : State) :
  jump_across_loop fuel dx dy x y s = Ret (b, s') → data s' = data s.
Proof.
  revert x y. induction fuel as [|fuel IH]; intros x y; simpl; [done|].
  destruct (negb (is_within_bounds s (x + dx) (y + dy))); [by intros [= _ <-]|].
  destruct (is_read_only s (x + dx) (y + dy)) as [ro| |]; run; [|done..].
  destruct (negb ro); [by intros [= _ <-]|]. apply IH.
Qed.

Lemma move_cursor_data (fuel : nat) (dx dy : Z) (s s' : State) :
  move_cursor fuel dx dy s = Ret s' → data s' = data s.
Proof.
  unfold move_cursor, jump_across.
  destruct (jump_across_loop fuel dx dy (cursor_x s) (cursor_y s) s)
    as [[b s1]| |] eqn:Hloop; run; [|done..].
  apply jump_across_loop_data in Hloop. by destruct b; intros [= <-].
Qed.

Lemma go_to_layer_axiom_keeps (layer : nat) (axiom : AxiomTag) (s s' : State) :
  data_ok (data s) → go_to_layer_axiom layer axiom s = Ret s' →
  (∀ k c, data s !! k = Some c → data s' !! k = Some c) ∧
  current_layer s' = layer ∧ current_axiom s' = axiom ∧
  cursor_x s' = - layer ∧ cursor_y s' = - layer.
Proof.
  intros Hd Hrun.
  destruct (go_to_layer_axiom_spec layer axiom s Hd) as (d' & _ & Hgo & (Hsub & _) & _).
  rewrite Hgo in Hrun. injection Hrun as <-. by split_and!.
Qed.

(** One key in a state of a session: the chain returns, and what it
    does is nothing or one command of the session. *)
Lemma handle_key_step (R : Random) (K : Curses) (fuel : nat) (key : Z)
    (s : State) :
  state_ok s → (2 * current_layer s + 1 ≤ fuel)%nat →
  ∃ s', handle_key K fuel key s = Ret s' ∧
        (s' = s ∨ ∃ c, step R s c s') ∧
        (current_layer s' ≤ S (current_layer s))%nat.
Proof.
  intros Hok Hfuel. pose proof (state_ok_cursor_in_grid s Hok) as Hcur.
  destruct Hok as (Hd & _ & _).
  assert (Hgo : ∀ layer axiom, (layer ≤ S (current_layer s))%nat →
            ∃ s', go_to_layer_axiom layer axiom s = Ret s' ∧
                  (s' = s ∨ ∃ c, step R s c s') ∧
                  (current_layer s' ≤ S (current_layer s))%nat).
  { intros layer axiom Hle.
    destruct (go_to_layer_axiom_spec layer axiom s Hd) as (d' & _ & Hgo & _).
    eexists. split; [exact Hgo|]. split; [|simpl; lia].
    right. exists (SwitchContext layer axiom). by constructor. }
  assert (Hmove : ∀ dx dy, unit_direction dx dy →
            ∃ s', move_cursor fuel dx dy s = Ret s' ∧
                  (s' = s ∨ ∃ c, step R s c s') ∧
                  (current_layer s' ≤ S (current_layer s))%nat).
  { intros dx dy Hdir.
    destruct (move_cursor_spec s dx dy fuel Hcur Hdir Hfuel)
      as [(k & s' & Hmv & Hmoved)|[Hmv _]].
    - exists s'. split; [done|]. split.
      + right. exists (MoveCursor dx dy). by apply (step_move R s dx dy fuel).
      + destruct Hmoved as (_ & -> & _). simpl. lia.
    - exists s. split; [done|]. split; [by left|lia]. }
  assert (Hinsert : ∀ ch,
            ∃ s', insert_char ch s = Ret s' ∧
                  (s' = s ∨ ∃ c, step R s c s') ∧
                  (current_layer s' ≤ S (current_layer s))%nat).
  { intros ch.
    destruct (insert_char_spec ch s Hcur)
      as (g & ro & _ & [[_ Hins]|(_ & g' & Hins & _)]).
    - exists s. split; [done|]. split; [by left|lia].
    - eexists. split; [exact Hins|]. split; [|simpl; lia].
      right. exists (WriteSymbol ch). by constructor. }
  unfold handle_key.
  repeat case_decide;
    first [apply Hgo; lia
          |apply Hmove; unfold unit_direction; set_solver
          |apply Hinsert
          |exists s; split; [done|]; split; [by left|lia]].
Qed.

Section run_loop.
Context {coord angle : Type}.
Context (atan2 : Z → Z → angle) (angle_le : angle → angle → bool).
Context (circle_point : AxiomTag → nat → nat → nat → coord * coord * coord).
Context (keys_of : Data → list (nat * AxiomTag)).
Context (K : Curses) (fuel : nat) (R : Random).
Context (Hkeys : keys_in_order keys_of) (HR : RandomSpec R).

(** Both outputs of a turn succeed in a state of a session. *)
Lemma frame_total (s : State) :
  state_ok s →
  ∃ fig screen,
    render_3d atan2 angle_le circle_point (keys_of (data s)) (data s) = Ret fig ∧
    draw_interface s = Ret screen.
Proof.
  intros Hok. pose proof (state_ok_cursor_in_grid s Hok) as Hcur.
  pose proof Hcur as (Hd & Hsome & _).
  destruct (Hkeys (data s)) as [Hin Hnodup].
  destruct (render_3d_spec atan2 angle_le circle_point (keys_of (data s)) (data s) Hd)
    as (traces & m & Hfig & _); [by intros k ?%Hin|done| |].
  { intros Hnil. apply Hin in Hsome. rewrite Hnil in Hsome.
    by apply elem_of_nil in Hsome. }
  destruct (draw_interface_spec s Hcur) as (g & ro & rows & _ & Hscreen & _).
  eauto.
Qed.

Lemma run_loop_spec (keys : list Z) (s : State) (frames : list Frame) :
  reachable R s →
  (2 * (current_layer s + length keys) + 1 ≤ fuel)%nat →
  ∃ s' frames' fig screen,
    run_loop atan2 angle_le circle_point keys_of K fuel keys s frames
    = Ret (s', frames ++ frames' ++ [(fig, screen)]) ∧
    reachable R s' ∧ (length frames' ≤ length keys)%nat ∧
    render_3d atan2 angle_le circle_point (keys_of (data s')) (data s') = Ret fig ∧
    draw_interface s' = Ret screen.
Proof.
  revert s frames. induction keys as [|key keys IH]; intros s frames Hreach Hfuel.
  - destruct (frame_total s) as (fig & screen & Hfig & Hscreen);
      [by apply (reachable_state_ok R)|].
    cbn [run_loop]. rewrite Hfig, Hscreen. run.
    exists s, [], fig, screen. by split_and!.
  - pose proof (reachable_state_ok R s HR Hreach) as Hok.
    destruct (frame_total s Hok) as (fig & screen & Hfig & Hscreen).
    cbn [run_loop]. rewrite Hfig, Hscreen. run. cbn [length] in Hfuel.
    destruct (decide (key = -1)) as [_|_].
    { destruct (IH s (frames ++ [(fig, screen)]) Hreach)
        as (s' & frames' & fig' & screen' & -> & ? & ? & ? & ?); [lia|].
      exists s', ((fig, screen) :: frames'), fig', screen'.
      rewrite <-app_assoc. simpl. split_and!; [done..|lia|done|done]. }
    destruct (decide (key = 4)) as [_|_].
    { exists s, [], fig, screen. by split_and!; [done..|simpl; lia|done|done]. }
    destruct (handle_key_step R K fuel key s Hok) as (s1 & -> & Hstep & Hlayer);
      [lia|]. run.
    assert (Hreach1 : reachable R s1).
    { destruct Hstep as [->|[c Hc]]; [done|by apply (reachable_step R s c)]. }
    destruct (IH s1 (frames ++ [(fig, screen)]) Hreach1)
      as (s' & frames' & fig' & screen' & -> & ? & ? & ? & ?); [lia|].
    exists s', ((fig, screen) :: frames'), fig', screen'.
    rewrite <-app_assoc. simpl. split_and!; [done..|lia|done|done].
Qed.

(** X19.  The whole program, for every command line and every sequence of
    keys: no exception escapes ([KeyError], [IndexError], [ValueError]),
    the [while True] loop of [jump_across] always comes back, the state
    reached is a state of a session, a frame is put out for the start and
    for each key read at most, and the last frame shows the final
    state. *)
Theorem main_never_raises (argv : list string) (keys : list Z) :
  (2 * length keys + 1 ≤ fuel)%nat →
  ∃ s frames fig screen,
    main atan2 angle_le circle_point keys_of K fuel R argv keys
    = Ret (s, frames ++ [(fig, screen)]) ∧
    reachable R s ∧ (length frames ≤ length keys)%nat ∧
    render_3d atan2 angle_le circle_point (keys_of (data s)) (data s) = Ret fig ∧
    draw_interface s = Ret screen.
Proof.
  intros Hfuel. unfold main.
  destruct (parse_args_spec argv) as (fills & mode & -> & _). run.
  assert (Hstart : ∃ s0,
    (if bool_decide ("--prefill"%string ∈ argv)
     then prefill R mode fills initial_state else Ret initial_state) = Ret s0 ∧
    data_ok (data s0) ∧
    ∀ s1, go_to_layer_axiom 0 AxA s0 = Ret s1 → reachable R s1).
  { destruct (bool_decide ("--prefill"%string ∈ argv)).
    - unfold prefill.
      destruct (prefill_layers_spec R mode (fills AxA) (fills AxB) (fills AxC)
                  (fills AxD) (fills AxE) (fills AxF) (fills AxH) (fills AxI)
                  (fills AxJ) (data initial_state))
        as (d' & Hrun & Hd' & _); [by right|apply data_ok_empty|].
      rewrite Hrun. run. eexists. split; [done|]. split; [done|].
      intros s1 Hgo.
      apply (reachable_prefill_run R mode fills (set_data initial_state d') s1);
        [|done]. unfold prefill. by rewrite Hrun.
    - exists initial_state. split; [done|]. split; [apply data_ok_empty|].
      intros s1 Hgo. by apply reachable_run. }
  destruct Hstart as (s0 & -> & Hd0 & Hreach0). run. unfold run.
  destruct (go_to_layer_axiom_spec 0 AxA s0 Hd0) as (d1 & _ & Hgo & _).
  rewrite Hgo. run.
  destruct (run_loop_spec keys _ [] (Hreach0 _ Hgo))
    as (s' & frames' & fig & screen & Hrun & ? & ? & ? & ?); [simpl; lia|].
  exists s', frames', fig, screen. by rewrite Hrun.
Qed.
End run_loop.

Lemma map_keys_in_order : keys_in_order (λ d, (map_to_list d).*1).
Proof. intros d. apply map_keys_spec. Qed.

Lemma main_never_raises_witness :
  keys_in_order (λ d, (map_to_list d).*1) ∧ RandomSpec first_random ∧
  (2 * length [43; 120; 261; 121; 4; 122] + 1 ≤ 13)%nat ∧
  ∃ s frames fig screen,
    main (λ _ _ : Z, 0) (λ _ _ : Z, true)
      (λ (_ : AxiomTag) (_ i k : nat), (i, k, O))
      (λ d, (map_to_list d).*1) ncurses 13 first_random
      ["layer_axiom_game.py"; "--prefill"; "--mode=partial"]%string
      [43; 120; 261; 121; 4; 122]
    = Ret (s, frames ++ [(fig, screen)]) ∧
    reachable first_random s ∧
    (length frames ≤ length [43; 120; 261; 121; 4; 122])%nat ∧
    render_3d (λ _ _ : Z, 0) (λ _ _ : Z, true)
      (λ (_ : AxiomTag) (_ i k : nat), (i, k, O))
      ((map_to_list (data s)).*1) (data s) = Ret fig ∧
    draw_interface s = Ret screen.
Proof.
  assert (Hfuel : (2 * length [43; 120; 261; 121; 4; 122] + 1 ≤ 13)%nat)
    by (simpl; lia).
  split_and!; [apply map_keys_in_order|apply first_random_spec|done|].
  exact (main_never_raises (λ _ _ : Z, 0) (λ _ _ : Z, true)
           (λ (_ : AxiomTag) (_ i k : nat), (i, k, O))
           (λ d, (map_to_list d).*1) ncurses 13 first_random
           map_keys_in_order first_random_spec
           ["layer_axiom_game.py"; "--prefill"; "--mode=partial"]%string
           [43; 120; 261; 121; 4; 122] Hfuel).
Defined.

(** ** What a key can change *)

(** X20.  Which keys write.  Whatever the key codes of the terminal library,
    a key that [run] handles either leaves every cached grid exactly as
    it was (it may add grids or move the cursor), or it is a printable
    key, code 32 to 126, other than [+] and [-], and the outcome is that
    of [insert_char] with its character.  So [+] and [-], which are
    bound to the layers, can never be typed into a grid. *)
Theorem handle_key_writes (K : Curses) (fuel : nat) (key : Z) (s s' : State) :
  data_ok (data s) → handle_key K fuel key s = Ret s' →
  (∀ k c, data s !! k = Some c → data s' !! k = Some c) ∨
  (32 ≤ key < 127 ∧ key ≠ ord "+" ∧ key ≠ ord "-" ∧
   insert_char (chr key) s = Ret s').
Proof.
  intros Hd. unfold handle_key.
  repeat case_decide; intros Hrun;
    first [left; by apply (proj1 (go_to_layer_axiom_keeps _ _ s s' Hd Hrun))
          |left; by rewrite (move_cursor_data _ _ _ _ _ Hrun)
          |left; by injection Hrun as <-
          |right; split_and!; (done || lia)].
Qed.

Lemma handle_key_writes_witness :
  data_ok (data state_layer1) ∧
  handle_key ncurses 3 120 state_layer1 = Ret state_marked ∧
  ((∀ k c, data state_layer1 !! k = Some c → data state_marked !! k = Some c) ∨
   (32 ≤ 120 < 127 ∧ 120 ≠ ord "+" ∧ 120 ≠ ord "-" ∧
    insert_char (chr 120) state_layer1 = Ret state_marked)).
Proof.
  assert (Hd : data_ok (data state_layer1)).
  { apply (reachable_state_ok first_random);
      [apply first_random_spec|apply state_layer1_reachable]. }
  assert (Hrun : handle_key ncurses 3 120 state_layer1 = Ret state_marked)
    by (vm_compute; reflexivity).
  split_and!; [done..|].
  exact (handle_key_writes ncurses 3 120 state_layer1 state_marked Hd Hrun).
Defined.

(** X21.  Up and down again.  With key codes above 255 for the function keys,
    as in curses, the key [+] followed by the key [-] comes back to the
    same layer and axiom with every grid kept, the second key finds its
    grid cached and changes nothing in the cache, but the cursor is not
    where it was: it is in the top-left corner of the layer. *)
Theorem plus_minus_round_trip (K : Curses) (fuel : nat) (s : State) :
  (∀ k, k ∈ curses_keys K → 255 < k) → state_ok s →
  ∃ s1 s2,
    handle_key K fuel (ord "+") s = Ret s1 ∧
    handle_key K fuel (ord "-") s1 = Ret s2 ∧
    current_layer s1 = S (current_layer s) ∧
    current_layer s2 = current_layer s ∧ current_axiom s2 = current_axiom s ∧
    cursor_x s2 = - current_layer s ∧ cursor_y s2 = - current_layer s ∧
    (∀ k c, data s !! k = Some c → data s2 !! k = Some c) ∧
    data s2 = data s1.
Proof.
  intros HK Hok. pose proof (state_ok_cursor_in_grid s Hok) as (Hd & [c Hc] & _).
  assert (HF : 255 < KEY_F1 K ∧ 255 < KEY_F2 K ∧ 255 < KEY_F3 K ∧ 255 < KEY_F4 K
               ∧ 255 < KEY_F5 K ∧ 255 < KEY_F6 K ∧ 255 < KEY_F7 K
               ∧ 255 < KEY_F8 K ∧ 255 < KEY_F9 K)
    by (split_and!; apply HK; unfold curses_keys; set_solver).
  destruct HF as (H1 & H2 & H3 & H4 & H5 & H6 & H7 & H8 & H9).
  change (ord "+") with 43. change (ord "-") with 45.
  destruct (go_to_layer_axiom_spec (current_layer s + 1) (current_axiom s) s Hd)
    as (d1 & Hens1 & Hgo1 & (Hsub & _) & Hok1).
  set (s1 := {| data := d1; current_layer := (current_layer s + 1)%nat;
                current_axiom := current_axiom s;
                cursor_x := - (current_layer s + 1)%nat;
                cursor_y := - (current_layer s + 1)%nat |}) in *.
  assert (Hplus : handle_key K fuel 43 s = Ret s1).
  { unfold handle_key. rewrite !decide_False by lia.
    change (ord "+") with 43. by rewrite decide_True. }
  assert (Hback : go_to_layer_axiom (current_layer s) (current_axiom s) s1
                  = Ret {| data := d1; current_layer := current_layer s;
                           current_axiom := current_axiom s;
                           cursor_x := - current_layer s;
                           cursor_y := - current_layer s |}).
  { unfold go_to_layer_axiom. cbn [data s1].
    rewrite ensure_layer_axiom_present by (rewrite (Hsub _ _ Hc); eauto). done. }
  assert (Hminus : handle_key K fuel 45 s1
                   = Ret {| data := d1; current_layer := current_layer s;
                            current_axiom := current_axiom s;
                            cursor_x := - current_layer s;
                            cursor_y := - current_layer s |}).
  { unfold handle_key. rewrite !decide_False by lia.
    change (ord "+") with 43. change (ord "-") with 45.
    rewrite decide_False by lia. rewrite decide_True by done.
    cbn [current_layer current_axiom s1].
    rewrite decide_True by lia.
    replace (current_layer s + 1 - 1)%nat with (current_layer s) by lia.
    exact Hback. }
  exists s1. eexists. split; [exact Hplus|]. split; [exact Hminus|].
  cbn [current_layer current_axiom cursor_x cursor_y data s1].
  split_and!; [lia|done..].
Qed.

Lemma plus_minus_round_trip_witness :
  (∀ k, k ∈ curses_keys ncurses → 255 < k) ∧ state_ok state_marked ∧
  ∃ s1 s2,
    handle_key ncurses 3 (ord "+") state_marked = Ret s1 ∧
    handle_key ncurses 3 (ord "-") s1 = Ret s2 ∧
    current_layer s1 = S (current_layer state_marked) ∧
    current_layer s2 = current_layer state_marked ∧
    current_axiom s2 = current_axiom state_marked ∧
    cursor_x s2 = - current_layer state_marked ∧
    cursor_y s2 = - current_layer state_marked ∧
    (∀ k c, data state_marked !! k = Some c → data s2 !! k = Some c) ∧
    data s2 = data s1.
Proof.
  assert (HK : ∀ k, k ∈ curses_keys ncurses → 255 < k).
  { intros k Hk. unfold curses_keys, ncurses in Hk. simpl in Hk.
    repeat (apply elem_of_cons in Hk as [->|Hk]; [lia|]).
    by apply elem_of_nil in Hk. }
  assert (Hok : state_ok state_marked).
  { apply (reachable_state_ok first_random); [apply first_random_spec|].
    apply (reachable_step _ state_layer1 (WriteSymbol "x"));
      [apply state_layer1_reachable|by apply step_write]. }
  split_and!; [done..|].
  exact (plus_minus_round_trip ncurses 3 state_marked HK Hok).
Defined.

(** ** The symbols of a session *)

Lemma promoted_cases (ch : string) : promoted ch = " "%string ∨ promoted ch = ch.
Proof. unfold promoted. destruct (decide _); auto. Qed.

(** Building layers only copies symbols, blanks origin markers and puts
    defaults. *)
Lemma ensure_symbols_in (P : string → Prop) (layer : nat) (axiom : AxiomTag) :
  P DEFAULT_CHAR → P CENTER_CHAR → P " "%string →
  ∀ d d', data_ok d → symbols_in P d →
    ensure_layer_axiom layer axiom d = Ret d' → symbols_in P d'.
Proof.
  intros Hdef Hcenter Hblank.
  induction layer as [|p IH]; intros d d' Hd Hsym Hens;
    unfold ensure_layer_axiom in Hens;
    (destruct (decide (is_Some (d !! (_, axiom)))) as [?|Habsent];
       [by injection Hens as <-|]).
  - rewrite create_layer_axiom_O in Hens. injection Hens as <-.
    intros l a g ro gy gx ch Hc Hy Hx Hch.
    destruct (decide ((O, axiom) = (l, a))) as [[= <- <-]|Hne].
    + rewrite lookup_insert_eq in Hc. injection Hc as <- <-.
      assert (gy = 0 ∧ gx = 0) as [-> ->] by (unfold layer_dimension in *; lia).
      vm_compute in Hch. by injection Hch as <-.
    + rewrite lookup_insert_ne in Hc by done. by apply (Hsym l a g ro gy gx).
  - destruct (ensure_layer_axiom_spec p axiom d Hd) as (d1 & Hens1 & Hd1 & Hsome1 & _).
    pose proof (IH d d1 Hd Hsym Hens1) as Hsym1.
    destruct (create_layer_axiom_S_spec p axiom d d1 Hens1 Hd1 Hsome1)
      as (prev_grid & prev_ro & g & ro & Hprev & Hcreate & Hok & Hinner & Hring).
    rewrite Hcreate in Hens. injection Hens as <-.
    intros l a g0 ro0 gy gx ch Hc Hy Hx Hch.
    destruct (decide ((S p, axiom) = (l, a))) as [[= <- <-]|Hne].
    + rewrite lookup_insert_eq in Hc. injection Hc as <- <-.
      destruct (decide (1 ≤ gy ≤ 2 * p + 1 ∧ 1 ≤ gx ≤ 2 * p + 1)) as [Hin|Hout].
      * destruct (Hinner (gy - 1) (gx - 1)) as (ch0 & Hch0 & Hcopy & _);
          [unfold layer_dimension; lia..|].
        replace (gy - 1 + 1) with gy in Hcopy by lia.
        replace (gx - 1 + 1) with gx in Hcopy by lia.
        rewrite Hcopy in Hch. injection Hch as <-.
        destruct (promoted_cases ch0) as [->| ->]; [done|].
        apply (Hsym1 p axiom prev_grid prev_ro (gy - 1) (gx - 1));
          [done|unfold layer_dimension; lia..|done].
      * destruct (Hring gy gx Hy Hx) as [Hdefault _].
        { unfold layer_dimension, chebyshev in *. lia. }
        rewrite Hdefault in Hch. by injection Hch as <-.
    + rewrite lookup_insert_ne in Hc by done. by apply (Hsym1 l a g0 ro0 gy gx).
Qed.

Lemma insert_char_symbols_in (P : string → Prop) (ch : string) (s s' : State) :
  cursor_in_grid s → symbols_in P (data s) → P ch →
  insert_char ch s = Ret s' → symbols_in P (data s').
Proof.
  intros Hcur Hsym Hch Hrun. pose proof Hcur as (_ & _ & Hin).
  apply is_within_bounds_true in Hin.
  destruct (insert_char_spec ch s Hcur)
    as (g & ro & Hc & [[_ Hins]|(_ & g' & Hins & _ & Hget & Hother)]);
    rewrite Hins in Hrun; injection Hrun as <-; [done|].
  intros l a g0 ro0 gy gx ch0 Hc0 Hy Hx Hch0. cbn [data set_data] in Hc0.
  destruct (decide ((current_layer s, current_axiom s) = (l, a))) as [[= <- <-]|Hne].
  - rewrite lookup_insert_eq in Hc0. injection Hc0 as <- <-.
    destruct (decide ((gy, gx) = (cursor_y s + current_layer s,
                                  cursor_x s + current_layer s))) as [[= -> ->]|Hoff].
    + rewrite Hget in Hch0. by injection Hch0 as <-.
    + rewrite Hother in Hch0 by (done || lia).
      by apply (Hsym (current_layer s) (current_axiom s) g ro gy gx).
  - rewrite lookup_insert_ne in Hc0 by done. by apply (Hsym l a g0 ro0 gy gx).
Qed.

Lemma typed_constants :
  typed DEFAULT_CHAR ∧ typed CENTER_CHAR ∧ typed " "%string.
Proof.
  split_and!; [by left|right; exists 79|right; exists 32];
    (split_and!; [lia|lia|by vm_compute|by vm_compute|done]).
Qed.

Lemma handle_key_symbols (K : Curses) (fuel : nat) (key : Z) (s s' : State) :
  state_ok s → symbols_in typed (data s) →
  handle_key K fuel key s = Ret s' → symbols_in typed (data s').
Proof.
  intros Hok Hsym. pose proof (state_ok_cursor_in_grid s Hok) as Hcur.
  destruct Hok as (Hd & _ & _).
  destruct typed_constants as (Hdef & Hcenter & Hblank).
  assert (Hgo : ∀ layer axiom, go_to_layer_axiom layer axiom s = Ret s' →
            symbols_in typed (data s')).
  { intros layer axiom Hrun. unfold go_to_layer_axiom in Hrun.
    destruct (ensure_layer_axiom layer axiom (data s)) as [d'| |] eqn:Hens;
      run in Hrun; [|done..]. injection Hrun as <-. cbn [data].
    by apply (ensure_symbols_in typed layer axiom Hdef Hcenter Hblank (data s)). }
  unfold handle_key.
  repeat case_decide; intros Hrun;
    first [by eapply Hgo
          |by rewrite (move_cursor_data _ _ _ _ _ Hrun)
          |by injection Hrun as <-
          |idtac].
  apply (insert_char_symbols_in typed (chr key) s s' Hcur Hsym); [|done].
  right. exists key. by split_and!; [lia|lia|done..].
Qed.

Lemma typed_not_sign (ch : string) :
  typed ch → ch ≠ "+"%string ∧ ch ≠ "-"%string.
Proof.
  intros [->|(key & Hrange & Hplus & Hminus & ->)]; [by split|].
  assert (Hcode : ∀ n : nat, (n < 256)%nat → chr key = chr n → key = n).
  { intros n Hn [= Heq]. apply (f_equal nat_of_ascii) in Heq.
    rewrite !nat_ascii_embedding in Heq by lia. lia. }
  split; intros Heq.
  - apply Hplus. by apply (Hcode 43%nat); [lia|].
  - apply Hminus. by apply (Hcode 45%nat); [lia|].
Qed.

Section run_symbols.
Context {coord angle : Type}.
Context (atan2 : Z → Z → angle) (angle_le : angle → angle → bool).
Context (circle_point : AxiomTag → nat → nat → nat → coord * coord * coord).
Context (keys_of : Data → list (nat * AxiomTag)).
Context (K : Curses) (fuel : nat).

Lemma run_loop_symbols (keys : list Z) :
  ∀ (s : State) (frames : list Frame) (s' : State) (frames' : list Frame),
    state_ok s → symbols_in typed (data s) →
    (2 * (current_layer s + length keys) + 1 ≤ fuel)%nat →
    run_loop atan2 angle_le circle_point keys_of K fuel keys s frames
    = Ret (s', frames') →
    symbols_in typed (data s').
Proof.
  induction keys as [|key keys IH]; intros s frames s' frames' Hok Hsym Hfuel Hrun;
    cbn [run_loop] in Hrun;
    apply bind_Ret in Hrun as (fig & _ & Hrun);
    apply bind_Ret in Hrun as (screen & _ & Hrun).
  - by injection Hrun as <- _.
  - cbn [length] in Hfuel.
    destruct (decide (key = -1)) as [_|_].
    { apply (IH s (frames ++ [(fig, screen)]) s' frames' Hok Hsym); [lia|done]. }
    destruct (decide (key = 4)) as [_|_]; [by injection Hrun as <- _|].
    apply bind_Ret in Hrun as (s1 & Hkey & Hrun).
    destruct (handle_key_step first_random K fuel key s Hok)
      as (s1' & Hkey' & Hstep & Hlayer); [lia|].
    rewrite Hkey in Hkey'. injection Hkey' as <-.
    assert (Hok1 : state_ok s1).
    { destruct Hstep as [->|[c Hc]]; [done|].
      by apply (step_state_ok first_random s c s1 first_random_spec Hok). }
    apply (IH s1 (frames ++ [(fig, screen)]) s' frames' Hok1); [|lia|done].
    by apply (handle_key_symbols K fuel key s).
Qed.

(** X22.  A session without prefill, for every sequence of keys: each cell of
    each cached grid holds the default symbol or the character of a
    printable key other than [+] and [-]; in particular no grid ever
    holds ["+"] or ["-"]. *)
Theorem run_symbols_typed (keys : list Z) :
  keys_in_order keys_of → (2 * length keys + 1 ≤ fuel)%nat →
  ∃ s frames,
    run atan2 angle_le circle_point keys_of K fuel keys initial_state
    = Ret (s, frames) ∧
    symbols_in (λ ch, typed ch ∧ ch ≠ "+"%string ∧ ch ≠ "-"%string) (data s).
Proof.
  intros Hkeys Hfuel. unfold run.
  destruct (go_to_layer_axiom_spec 0 AxA initial_state data_ok_empty)
    as (d1 & Hens & Hgo & _ & Hok1).
  rewrite Hgo. run.
  set (s1 := {| data := d1; current_layer := 0; current_axiom := AxA;
                cursor_x := - 0%nat; cursor_y := - 0%nat |}) in *.
  assert (Hreach : reachable first_random s1) by by apply reachable_run.
  destruct (run_loop_spec atan2 angle_le circle_point keys_of K fuel first_random
              Hkeys first_random_spec keys s1 [] Hreach)
    as (s' & frames' & fig & screen & Hrun & _); [simpl; lia|].
  exists s', ([] ++ frames' ++ [(fig, screen)]). split; [done|].
  assert (Hsym1 : symbols_in typed (data s1)).
  { destruct typed_constants as (Hdef & Hcenter & Hblank).
    apply (ensure_symbols_in typed 0 AxA Hdef Hcenter Hblank ∅ d1 data_ok_empty);
      [|done].
    intros l a g ro gy gx ch Hc. by rewrite lookup_empty in Hc. }
  pose proof (run_loop_symbols keys s1 [] s' _ Hok1 Hsym1
                ltac:(simpl; lia) Hrun) as Hsym.
  intros l a g ro gy gx ch Hc Hy Hx Hch.
  pose proof (Hsym l a g ro gy gx ch Hc Hy Hx Hch) as Htyped.
  split; [done|]. by apply typed_not_sign.
Qed.
End run_symbols.

Lemma run_symbols_typed_witness :
  keys_in_order (λ d, (map_to_list d).*1) ∧
  (2 * length [43; 43; 260; 45; 120] + 1 ≤ 11)%nat ∧
  ∃ s frames,
    run (λ _ _ : Z, 0) (λ _ _ : Z, true)
      (λ (_ : AxiomTag) (_ i k : nat), (i, k, O))
      (λ d, (map_to_list d).*1) ncurses 11 [43; 43; 260; 45; 120] initial_state
    = Ret (s, frames) ∧
    symbols_in (λ ch, typed ch ∧ ch ≠ "+"%string ∧ ch ≠ "-"%string) (data s).
Proof.
  assert (Hfuel : (2 * length [43; 43; 260; 45; 120] + 1 ≤ 11)%nat)
    by (simpl; lia).
  split_and!; [apply map_keys_in_order|done|].
  exact (run_symbols_typed (λ _ _ : Z, 0) (λ _ _ : Z, true)
           (λ (_ : AxiomTag) (_ i k : nat), (i, k, O))
           (λ d, (map_to_list d).*1) ncurses 11 [43; 43; 260; 45; 120]
           map_keys_in_order Hfuel).
Defined.

(** ** Walks in any direction *)

(** The loop of [jump_across] for a stride [(dx, dy)] that advances along
    one of the four grid directions [(σ, τ)]: with more fuel than cells
    left ahead in that direction it returns. *)
Lemma jump_across_loop_stride (s : State) (dx dy σ τ : Z) :
  data_ok (data s) →
  is_Some (data s !! (current_layer s, current_axiom s)) →
  unit_direction σ τ → 1 ≤ σ * dx + τ * dy →
  ∀ (fuel : nat) (x y : Z),
    is_within_bounds s x y = true →
    current_layer s - (σ * x + τ * y) < fuel →
    jump_across_loop fuel dx dy x y s = Ret (false, s)
    ∨ ∃ k, 1 ≤ k ∧
        jump_across_loop fuel dx dy x y s
        = Ret (true, set_cursor s (x + k * dx) (y + k * dy)) ∧
        is_within_bounds s (x + k * dx) (y + k * dy) = true ∧
        is_read_only s (x + k * dx) (y + k * dy) = Ret false.
Proof.
  intros Hd Hgrid Hdir Hadv. induction fuel as [|fuel IH]; intros x y Hin Hfuel.
  { apply is_within_bounds_true in Hin.
    apply unit_direction_cases in Hdir. lia. }
  cbn [jump_across_loop].
  destruct (is_within_bounds s (x + dx) (y + dy)) eqn:Hnext; cbn [negb];
    [|by left].
  rewrite (is_read_only_spec s (x + dx) (y + dy)) by done. run.
  destruct (frozen_at _ _ _) eqn:Hfrozen; cbn [negb].
  - assert (Hfuel' : current_layer s - (σ * (x + dx) + τ * (y + dy)) < fuel).
    { apply unit_direction_cases in Hdir. lia. }
    destruct (IH (x + dx) (y + dy) Hnext Hfuel')
      as [Hrun|(k & Hk & Hrun & Hb & Hro)]; [by left|].
    right. exists (k + 1).
    replace (x + (k + 1) * dx) with (x + dx + k * dx) by lia.
    replace (y + (k + 1) * dy) with (y + dy + k * dy) by lia.
    split_and!; [lia|done..].
  - right. exists 1. rewrite !Z.mul_1_l. split_and!; [done..|].
    by rewrite (is_read_only_spec s (x + dx) (y + dy)), Hfrozen.
Qed.

(** With the zero stride the loop looks at the same cell again and again. *)
Lemma jump_across_loop_still (s : State) (x y : Z) (fuel : nat) :
  is_within_bounds s x y = true → is_read_only s x y = Ret true →
  jump_across_loop fuel 0 0 x y s = Diverge.
Proof.
  intros Hin Hro. induction fuel as [|fuel IH]; [done|].
  cbn [jump_across_loop]. rewrite !Z.add_0_r, Hin, Hro. run. done.
Qed.

(** [jump_across] with any stride, as a state. *)
Lemma jump_across_stride_spec (s : State) (dx dy : Z) :
  cursor_in_grid s →
  ((dx ≠ 0 ∨ dy ≠ 0 ∨ is_read_only s (cursor_x s) (cursor_y s) = Ret false) →
   jump_across (2 * current_layer s + 1) dx dy s = Ret (false, s)
   ∨ ∃ k, 1 ≤ k ∧
       jump_across (2 * current_layer s + 1) dx dy s
       = Ret (true, set_cursor s (cursor_x s + k * dx) (cursor_y s + k * dy)) ∧
       is_within_bounds s (cursor_x s + k * dx) (cursor_y s + k * dy) = true ∧
       is_read_only s (cursor_x s + k * dx) (cursor_y s + k * dy) = Ret false) ∧
  (dx = 0 → dy = 0 → is_read_only s (cursor_x s) (cursor_y s) = Ret true →
   ∀ fuel, jump_across fuel dx dy s = Diverge).
Proof.
  intros (Hd & Hgrid & Hin). split.
  - intros Hgo. unfold jump_across.
    pose proof Hin as Hb. apply is_within_bounds_true in Hb.
    assert (Hstride : ∀ σ τ, unit_direction σ τ → 1 ≤ σ * dx + τ * dy →
      current_layer s - (σ * cursor_x s + τ * cursor_y s)
      < (2 * current_layer s + 1)%nat →
      jump_across_loop (2 * current_layer s + 1) dx dy (cursor_x s) (cursor_y s) s
      = Ret (false, s)
      ∨ ∃ k, 1 ≤ k ∧
          jump_across_loop (2 * current_layer s + 1) dx dy
            (cursor_x s) (cursor_y s) s
          = Ret (true, set_cursor s (cursor_x s + k * dx) (cursor_y s + k * dy)) ∧
          is_within_bounds s (cursor_x s + k * dx) (cursor_y s + k * dy) = true ∧
          is_read_only s (cursor_x s + k * dx) (cursor_y s + k * dy) = Ret false).
    { intros σ τ Hdir Hadv Hfuel.
      exact (jump_across_loop_stride s dx dy σ τ Hd Hgrid Hdir Hadv _ _ _
               Hin Hfuel). }
    destruct (decide (0 < dx)) as [Hx|Hx];
      [apply (Hstride 1 0); [unfold unit_direction; set_solver|lia..]|].
    destruct (decide (dx < 0)) as [Hx'|Hx'];
      [apply (Hstride (-1) 0); [unfold unit_direction; set_solver|lia..]|].
    destruct (decide (0 < dy)) as [Hy|Hy];
      [apply (Hstride 0 1); [unfold unit_direction; set_solver|lia..]|].
    destruct (decide (dy < 0)) as [Hy'|Hy'];
      [apply (Hstride 0 (-1)); [unfold unit_direction; set_solver|lia..]|].
    assert (dx = 0) as -> by lia. assert (dy = 0) as -> by lia.
    destruct Hgo as [?|[?|Hro]]; [done..|].
    right. exists 1. rewrite !Z.mul_0_r, !Z.add_0_r.
    replace (2 * current_layer s + 1)%nat with (S (2 * current_layer s)) by lia.
    cbn [jump_across_loop]. rewrite !Z.add_0_r, Hin, Hro. run.
    by split_and!.
  - intros -> -> Hro fuel. by apply jump_across_loop_still.
Qed.


(** X23.  Strides other than the four unit steps.  From a cursor inside the
    current grid, [jump_across] advances by whole strides [(dx, dy)],
    looking only at the cells it lands on: with a stride that is not
    [(0, 0)], or from an unfrozen cell, it returns within
    [2 * current_layer + 1] iterations, either rejected with the state
    unchanged, or accepted with the cursor alone changed, on an unfrozen
    cell of the grid a whole number of strides away, and it raises
    nothing.  With the stride [(0, 0)] from a frozen cell its loop never
    ends. *)
Theorem jump_across_any_direction (s : State) (dx dy : Z) :
  cursor_in_grid s →
  ((dx ≠ 0 ∨ dy ≠ 0 ∨ is_read_only s (cursor_x s) (cursor_y s) = Ret false) →
   jump_across (2 * current_layer s + 1) dx dy s = Ret (false, s)
   ∨ ∃ k s', 1 ≤ k ∧
       jump_across (2 * current_layer s + 1) dx dy s = Ret (true, s') ∧
       cursor_x s' = cursor_x s + k * dx ∧ cursor_y s' = cursor_y s + k * dy ∧
       data s' = data s ∧ current_layer s' = current_layer s ∧
       current_axiom s' = current_axiom s ∧
       (- current_layer s ≤ cursor_x s' ≤ current_layer s ∧
        - current_layer s ≤ cursor_y s' ≤ current_layer s) ∧
       is_within_bounds s (cursor_x s') (cursor_y s') = true ∧
       is_read_only s (cursor_x s') (cursor_y s') = Ret false) ∧
  (dx = 0 → dy = 0 → is_read_only s (cursor_x s) (cursor_y s) = Ret true →
   ∀ fuel, jump_across fuel dx dy s = Diverge).
Proof.
  intros Hcur. destruct (jump_across_stride_spec s dx dy Hcur) as [Hgo Hstill].
  split; [|done]. intros Hdir.
  destruct (Hgo Hdir) as [Hrun|(k & Hk & Hrun & Hin & Hro)]; [by left|].
  right. eexists k, _. split; [done|]. split; [exact Hrun|].
  cbn [data current_layer current_axiom cursor_x cursor_y set_cursor].
  do 5 (split; [done|]). split; [by apply is_within_bounds_true|done].
Qed.

Lemma jump_across_any_direction_witness :
  cursor_in_grid state_layer1 ∧
  (jump_across (2 * current_layer state_layer1 + 1) 2 0 state_layer1
   = Ret (false, state_layer1)
   ∨ ∃ k s', 1 ≤ k ∧
       jump_across (2 * current_layer state_layer1 + 1) 2 0 state_layer1
       = Ret (true, s') ∧
       cursor_x s' = cursor_x state_layer1 + k * 2 ∧
       cursor_y s' = cursor_y state_layer1 + k * 0 ∧
       data s' = data state_layer1).
Proof.
  assert (Hcur : cursor_in_grid state_layer1).
  { apply state_ok_cursor_in_grid, (reachable_state_ok first_random);
      [apply first_random_spec|apply state_layer1_reachable]. }
  split; [done|].
  destruct (jump_across_any_direction state_layer1 2 0 Hcur) as [Hgo _].
  destruct Hgo as [Hrun|(k & s' & Hk & Hrun & Hx & Hy & Hdata & _)];
    [left; lia|by left|].
  right. exists k, s'. by split_and!.
Defined.
